(** * SeriesLoadLimiter: a shallow embedding of the firmware sketch

    The sketch [SeriesLoadLimiter.ino] drives a series AC load limiter from an
    8-bit AVR.  This development embeds the parts of the sketch that decide
    the properties stated about it: the persistent preset store, the
    current-limit writer, the power-on waveform qualification, the pushbutton
    menu and the serial programming commands.

    Conventions.
    - C integers are [Z] with the wrap-around of their width written out:
      [byte]/[uint8_t] is 8 bits, [word] is 16 bits, [unsigned long] is 32.
    - Globals of the sketch are the fields of [State]; the EEPROM is a finite
      map from cell address to cell content.
    - Every call that reaches the hardware (pins, interrupt controller, EEPROM,
      PWM, delays, serial port) and every store to the [volatile] actuator
      request [EnableOutput] is logged as an [Event], in program order.
    - What the outside world does (edges on the mains input, comparator trips,
      button presses, serial bytes) enters each function as an explicit
      argument.
    - Drawing on the LCD changes nothing the firmware reads back; only the
      texts of the sweep diagnostic are logged. *)

From Stdlib Require Import ZArith List Bool Lia.
From stdpp Require Import base option gmap strings.
Import ListNotations.

Open Scope Z_scope.

(** ** Compile-time configuration ([#define]s of the sketch) *)

Module Config.
Definition MainsFrequency : Z := 50.
Definition CurrentSensingResistor : Z := 100.
Definition MaximumCurrent : Z := 10000.
Definition CurrentDigitCount : nat := 5.
Definition LargestDigitIncrement : Z := 10000.
Definition PWMsteps : Z := 65534.
Definition PWM_RCfilter_RiseTime : Z := 125.
(** [F_CPU] comes from the board definition, not from the sketch; the
    boards the sketch targets run at 16 MHz.  It only sets the length of
    the per-step settle delay. *)
Definition F_CPU : Z := 16000000.
Definition PWM_RCfilter_RiseTime_PerStep : Z :=
  (1000000 * 2) / (F_CPU / MaximumCurrent).
Definition CurrentPresets : Z := 10.
Definition MaxZeroCrossingTimeIncrement : Z := 10.
Definition MaxZeroCrossingTime : Z :=
  ((1000000 * 2) / MainsFrequency) / MaxZeroCrossingTimeIncrement.
Definition DebounceDelay : Z := 50.
Definition BytesPerPreset : Z := 2.
Definition CurrentPresetBase : Z := 0.
Definition PresetRecallBase : Z :=
  CurrentPresetBase + CurrentPresets * BytesPerPreset.
Definition BackEMFcountermeasuresRequiredBase : Z := PresetRecallBase + 1.
End Config.
Export Config.

(** ** Machine integers *)

Definition to_byte (z : Z) : Z := z mod 256.
Definition to_word (z : Z) : Z := z mod 65536.
Definition to_ulong (z : Z) : Z := z mod 4294967296.

(** A C++ [bool] initialised from an integer: any nonzero value is [true]. *)
Definition bool_of_int (z : Z) : bool := negb (z =? 0).
Definition int_of_bool (b : bool) : Z := if b then 1 else 0.

Definition LOW : bool := false.
Definition HIGH : bool := true.

(** ** Hardware events *)

Inductive Pin :=
| ZeroCrossingIRQpin | OvercurrentIRQpin | Pushbutton
| CurrentLimitPWM | OutputEnable | DummyACcycles.

Inductive EdgeMode := CHANGE | RISING | FALLING.

Inductive Event :=
| digitalWrite (p : Pin) (level : bool)
| digitalRead (p : Pin) (level : bool)
| await_level (p : Pin) (level : bool)
| attachInterrupt (p : Pin) (m : EdgeMode)
| detachInterrupt (p : Pin)
| EEPROM_read (address : Z)
| EEPROM_write (address : Z) (value : Z)
| AdvancedAnalogWrite_write (p : Pin) (value : Z)
| delayTimerless (ms : Z)
| delayMicroseconds (us : Z)
| EnableOutput_store (level : bool)
| Serial_available (pending : bool)
| Serial_print (text : string)
| Serial_println (text : string)
| Serial_print_number (n : Z)
| lcd_print (text : string)
| lcd_print_number (n : Z).

(** ** Program state: the globals of the sketch and the EEPROM *)

Record State := mkState {
  EEPROM : gmap Z Z;
  ZeroCrossingTime : Z;
  CurrentLimit : Z;
  RecalledPreset : Z;
  BackEMFcountermeasuresRequired : bool;
  DummyZeroCrossingIRQenable : bool;
  ZeroCrossingDetected : bool;
  OvercurrentSensed : bool;
  EnableOutput : bool
}.

Definition set_EEPROM (v : gmap Z Z) (s : State) : State :=
  mkState v (ZeroCrossingTime s) (CurrentLimit s) (RecalledPreset s)
    (BackEMFcountermeasuresRequired s) (DummyZeroCrossingIRQenable s)
    (ZeroCrossingDetected s) (OvercurrentSensed s) (EnableOutput s).
Definition set_ZeroCrossingTime (v : Z) (s : State) : State :=
  mkState (EEPROM s) v (CurrentLimit s) (RecalledPreset s)
    (BackEMFcountermeasuresRequired s) (DummyZeroCrossingIRQenable s)
    (ZeroCrossingDetected s) (OvercurrentSensed s) (EnableOutput s).
Definition set_CurrentLimit (v : Z) (s : State) : State :=
  mkState (EEPROM s) (ZeroCrossingTime s) v (RecalledPreset s)
    (BackEMFcountermeasuresRequired s) (DummyZeroCrossingIRQenable s)
    (ZeroCrossingDetected s) (OvercurrentSensed s) (EnableOutput s).
Definition set_RecalledPreset (v : Z) (s : State) : State :=
  mkState (EEPROM s) (ZeroCrossingTime s) (CurrentLimit s) v
    (BackEMFcountermeasuresRequired s) (DummyZeroCrossingIRQenable s)
    (ZeroCrossingDetected s) (OvercurrentSensed s) (EnableOutput s).
Definition set_BackEMFcountermeasuresRequired (v : bool) (s : State) : State :=
  mkState (EEPROM s) (ZeroCrossingTime s) (CurrentLimit s) (RecalledPreset s)
    v (DummyZeroCrossingIRQenable s)
    (ZeroCrossingDetected s) (OvercurrentSensed s) (EnableOutput s).
Definition set_DummyZeroCrossingIRQenable (v : bool) (s : State) : State :=
  mkState (EEPROM s) (ZeroCrossingTime s) (CurrentLimit s) (RecalledPreset s)
    (BackEMFcountermeasuresRequired s) v
    (ZeroCrossingDetected s) (OvercurrentSensed s) (EnableOutput s).
Definition set_ZeroCrossingDetected (v : bool) (s : State) : State :=
  mkState (EEPROM s) (ZeroCrossingTime s) (CurrentLimit s) (RecalledPreset s)
    (BackEMFcountermeasuresRequired s) (DummyZeroCrossingIRQenable s)
    v (OvercurrentSensed s) (EnableOutput s).
Definition set_OvercurrentSensed (v : bool) (s : State) : State :=
  mkState (EEPROM s) (ZeroCrossingTime s) (CurrentLimit s) (RecalledPreset s)
    (BackEMFcountermeasuresRequired s) (DummyZeroCrossingIRQenable s)
    (ZeroCrossingDetected s) v (EnableOutput s).
Definition set_EnableOutput (v : bool) (s : State) : State :=
  mkState (EEPROM s) (ZeroCrossingTime s) (CurrentLimit s) (RecalledPreset s)
    (BackEMFcountermeasuresRequired s) (DummyZeroCrossingIRQenable s)
    (ZeroCrossingDetected s) (OvercurrentSensed s) v.

(** ** The effect monad: state passing with an event log *)

Record Run (A : Type) := mkRun {
  result : A;
  final : State;
  events : list Event
}.
Arguments mkRun {A} _ _ _.
Arguments result {A} _.
Arguments final {A} _.
Arguments events {A} _.

Definition M (A : Type) : Type := State -> Run A.

Definition ret {A} (a : A) : M A := fun s => mkRun a s [].
Definition bind {A B} (m : M A) (k : A -> M B) : M B :=
  fun s =>
    let r1 := m s in
    let r2 := k (result r1) (final r1) in
    mkRun (result r2) (final r2) (events r1 ++ events r2).
Definition emit (e : Event) : M unit := fun s => mkRun tt s [e].
Definition get {A} (f : State -> A) : M A := fun s => mkRun (f s) s [].
Definition modify (f : State -> State) : M unit := fun s => mkRun tt (f s) [].
Definition when (b : bool) (m : M unit) : M unit := if b then m else ret tt.

Notation "x <- m ;; k" := (bind m (fun x => k))
  (at level 100, m at next level, right associativity).
Notation "m ;; k" := (bind m (fun _ => k))
  (at level 100, right associativity).

(** ** Interrupt handlers and the trigger pair *)

Definition ZeroCrossingIRQ : M unit :=
  modify (set_ZeroCrossingDetected true) ;;
  e <- get EnableOutput ;;
  emit (digitalWrite OutputEnable e).

Definition OvercurrentIRQ : M unit :=
  emit (digitalWrite OutputEnable LOW) ;;
  modify (set_OvercurrentSensed true).

Definition EnableInterrupts : M unit :=
  emit (attachInterrupt OvercurrentIRQpin FALLING) ;;
  emit (attachInterrupt ZeroCrossingIRQpin CHANGE).

Definition DisableInterrupts : M unit :=
  emit (detachInterrupt ZeroCrossingIRQpin) ;;
  emit (digitalWrite OutputEnable LOW) ;;
  emit (detachInterrupt OvercurrentIRQpin).

(** ** EEPROM cells and the preset store *)

(** A cell that was never written reads as erased (0xFF); a read yields
    eight bits. *)
Definition cell (m : gmap Z Z) (address : Z) : Z :=
  to_byte (default 255 (m !! address)).

Definition EEPROM_read_byte (address : Z) : M Z :=
  emit (EEPROM_read address) ;;
  get (fun s => cell (EEPROM s) address).

Definition EEPROM_write_byte (address value : Z) : M unit :=
  emit (EEPROM_write address (to_byte value)) ;;
  modify (fun s => set_EEPROM (<[address := to_byte value]> (EEPROM s)) s).

(** [BeyondByte.readWord (address, 2, BeyondByte_EEPROM, MSBFIRST)] and the
    matching [writeWord]: two consecutive cells, most significant first. *)
Definition BeyondByte_readWord (address : Z) : M Z :=
  hi <- EEPROM_read_byte address ;;
  lo <- EEPROM_read_byte (address + 1) ;;
  ret (to_word (hi * 256 + lo)).

Definition BeyondByte_writeWord (address value : Z) : M unit :=
  EEPROM_write_byte address (value / 256) ;;
  EEPROM_write_byte (address + 1) value.

Definition RecallPreset (preset : Z) : M Z :=
  DisableInterrupts ;;
  data <- BeyondByte_readWord (preset * BytesPerPreset + CurrentPresetBase) ;;
  EnableInterrupts ;;
  ret data.

Definition StorePreset (value preset : Z) : M unit :=
  DisableInterrupts ;;
  BeyondByte_writeWord (preset * BytesPerPreset + CurrentPresetBase) value ;;
  EnableInterrupts.

(** ** The current-limit writer *)

(** The duty code [WriteCurrentLimit] hands to the PWM driver:
    [word temp = (MaximumCurrent + 1); temp -= CurrentLimit;]. *)
Definition dutyCode (limit : Z) : Z :=
  to_word (to_word (MaximumCurrent + 1) - limit).

(** [overcurrent] tells whether the comparator interrupt fires while the
    function sits in its settle delay. *)
Definition WriteCurrentLimit (SweepUsed : bool) (overcurrent : bool) : M unit :=
  limit <- get CurrentLimit ;;
  emit (AdvancedAnalogWrite_write CurrentLimitPWM (dutyCode limit)) ;;
  if negb SweepUsed then
    emit (delayTimerless PWM_RCfilter_RiseTime) ;;
    when overcurrent OvercurrentIRQ
  else if negb (limit =? 0) then
    emit (delayMicroseconds PWM_RCfilter_RiseTime_PerStep) ;;
    when overcurrent OvercurrentIRQ
  else
    emit (delayTimerless PWM_RCfilter_RiseTime) ;;
    when overcurrent OvercurrentIRQ ;;
    modify (set_OvercurrentSensed false).

(** The duty codes written to the actuator, in order. *)
Definition duty_writes (t : list Event) : list Z :=
  omap (fun e => match e with
                 | AdvancedAnalogWrite_write CurrentLimitPWM v => Some v
                 | _ => None
                 end) t.

(** ** [setup]: reading the countermeasure flag *)

(** [BackEMFcountermeasuresRequired] is a [bool]; the initialisation from the
    EEPROM byte converts it, the test that follows compares the converted
    value. *)
Definition setup_read_BackEMF : M unit :=
  b <- EEPROM_read_byte BackEMFcountermeasuresRequiredBase ;;
  modify (set_BackEMFcountermeasuresRequired (bool_of_int b)) ;;
  f <- get BackEMFcountermeasuresRequired ;;
  if negb (Bool.eqb f true) && negb (Bool.eqb f false) then
    modify (set_BackEMFcountermeasuresRequired false) ;;
    f <- get BackEMFcountermeasuresRequired ;;
    EEPROM_write_byte BackEMFcountermeasuresRequiredBase (int_of_bool f)
  else ret tt.

(** ** [setup]: the check of the stored presets *)

Fixpoint check_presets (n : nat) (i : Z) : M unit :=
  match n with
  | O => ret tt
  | S n' =>
      PresetCurrent <- RecallPreset i ;;
      (if PresetCurrent >? MaximumCurrent then StorePreset 0 i else ret tt) ;;
      check_presets n' (i + 1)
  end.

Definition setup_check_presets : M unit :=
  check_presets (Z.to_nat CurrentPresets) 0 ;;
  d <- EEPROM_read_byte PresetRecallBase ;;
  if d >=? CurrentPresets then EEPROM_write_byte PresetRecallBase 0
  else ret tt.

(** ** [setup]: qualification of the mains waveform *)

Definition ErrorNone : Z := 0.
Definition ErrorSinewaveOnly : Z := 1.
Definition ErrorNoAltCycles : Z := 2.
Definition ErrorNoZeroCross : Z := 3.

(** [edge i] tells whether the zero-crossing interrupt fires during the
    [i]-th polling delay of this wait. *)
Fixpoint poll_zero_crossing (n i : nat) (edge : nat -> bool) : M unit :=
  match n with
  | O => ret tt
  | S n' =>
      z <- get ZeroCrossingDetected ;;
      if z then ret tt
      else
        emit (delayMicroseconds MaxZeroCrossingTimeIncrement) ;;
        when (edge i) ZeroCrossingIRQ ;;
        poll_zero_crossing n' (S i) edge
  end.

Definition WaitForZeroCrossingOrTimeout (edge : nat -> bool) : M unit :=
  poll_zero_crossing (Z.to_nat MaxZeroCrossingTime) 0 edge.

(** What the mains input does during the five waits of the qualification,
    and the two readings of [micros()] around the last one. *)
Record Mains := {
  any_edge : nat -> bool;
  rising_sync : nat -> bool;
  rising_edge : nat -> bool;
  falling_sync : nat -> bool;
  falling_edge : nat -> bool;
  StartTime : Z;
  StopTime : Z
}.

Definition NominalHalfPeriod : Z := 1000000 / MainsFrequency / 2.
Definition SinewaveThreshold : Z := (NominalHalfPeriod * 75) / 100.

Definition setup_qualify (mains : Mains) : M Z :=
  WaitForZeroCrossingOrTimeout (any_edge mains) ;;
  z <- get ZeroCrossingDetected ;;
  if z then
    emit (detachInterrupt ZeroCrossingIRQpin) ;;
    modify (set_ZeroCrossingDetected false) ;;
    emit (attachInterrupt ZeroCrossingIRQpin RISING) ;;
    WaitForZeroCrossingOrTimeout (rising_sync mains) ;;
    modify (set_ZeroCrossingDetected false) ;;
    WaitForZeroCrossingOrTimeout (rising_edge mains) ;;
    z <- get ZeroCrossingDetected ;;
    BothEdgesDetected <-
      (if negb z then ret false
       else
         emit (detachInterrupt ZeroCrossingIRQpin) ;;
         modify (set_ZeroCrossingDetected false) ;;
         emit (attachInterrupt ZeroCrossingIRQpin FALLING) ;;
         WaitForZeroCrossingOrTimeout (falling_sync mains) ;;
         modify (set_ZeroCrossingDetected false) ;;
         WaitForZeroCrossingOrTimeout (falling_edge mains) ;;
         z <- get ZeroCrossingDetected ;;
         emit (detachInterrupt ZeroCrossingIRQpin) ;;
         modify (set_ZeroCrossingTime
                   (to_word (to_ulong (to_ulong (StopTime mains)
                                       - to_ulong (StartTime mains))))) ;;
         ret z) ;;
    t <- get ZeroCrossingTime ;;
    if BothEdgesDetected && (t <? SinewaveThreshold) then ret ErrorSinewaveOnly
    else if negb BothEdgesDetected then ret ErrorNoAltCycles
    else ret ErrorNone
  else ret ErrorNoZeroCross.

Definition store_EnableOutput (level : bool) : M unit :=
  emit (EnableOutput_store level) ;;
  modify (set_EnableOutput level).

(** How [setup] ends: in the endless halt loop, or by returning to [loop]. *)
Inductive Startup := Halted (ErrorCode : Z) | Normal.

Definition setup_finish (ErrorCode : Z) : M Startup :=
  DisableInterrupts ;;
  if negb (ErrorCode =? ErrorNone) then
    (if ErrorCode =? ErrorSinewaveOnly then emit (lcd_print "SINEWAVE ONLY")
     else if ErrorCode =? ErrorNoAltCycles then emit (lcd_print "NO ALT CYCLES")
     else if ErrorCode =? ErrorNoZeroCross then emit (lcd_print "NO ZERO CROSS")
     else ret tt) ;;
    ret (Halted ErrorCode)
  else
    r <- EEPROM_read_byte PresetRecallBase ;;
    modify (set_RecalledPreset r) ;;
    r <- get RecalledPreset ;;
    limit <- RecallPreset r ;;
    modify (set_CurrentLimit limit) ;;
    EnableInterrupts ;;
    WriteCurrentLimit false false ;;
    d <- get DummyZeroCrossingIRQenable ;;
    when (negb d) (store_EnableOutput HIGH) ;;
    ret Normal.

Definition setup_startup (mains : Mains) : M Startup :=
  ErrorCode <- setup_qualify mains ;;
  setup_finish ErrorCode.

(** ** The pushbutton *)

(** A press as [TimePushbuttonHeld] meets it: the button is up at the first
    read, or it is down and stays down for [polls] of the 100 ms polls. *)
Inductive Press := NotPressed | HeldFor (polls : nat).

Fixpoint held_loop (fuel : nat) (i : Z) (polls : nat) (value : Z) : Z :=
  match fuel with
  | O => value
  | S f =>
      match polls with
      | O => value
      | S p => held_loop f (i + 1) p (to_byte i / 10)
      end
  end.

Definition TimePushbuttonHeld (p : Press) : M Z :=
  match p with
  | NotPressed => emit (digitalRead Pushbutton HIGH) ;; ret 0
  | HeldFor polls =>
      emit (digitalRead Pushbutton LOW) ;;
      emit (delayTimerless DebounceDelay) ;;
      emit (await_level Pushbutton HIGH) ;;
      emit (delayTimerless DebounceDelay) ;;
      ret (held_loop 101 0 polls 0)
  end.

(** [pressed i] tells whether the button reads [LOW] at the [i]-th poll. *)
Fixpoint poll_pushbutton (fuel i : nat) (pressed : nat -> bool) : M bool :=
  match fuel with
  | O => ret true
  | S f =>
      if pressed i then
        emit (digitalRead Pushbutton LOW) ;;
        emit (delayTimerless DebounceDelay) ;;
        ret false
      else
        emit (digitalRead Pushbutton HIGH) ;;
        emit (delayTimerless 100) ;;
        poll_pushbutton f (S i) pressed
  end.

Definition PushbuttonTimeout (value : Z) (pressed : nat -> bool) : M bool :=
  poll_pushbutton (Z.to_nat (to_byte value * 10 + 1)) 0 pressed.

(** ** The overcurrent sweep (pushbutton and serial variants) *)

(** One step of a sweep as the outside world shapes it: whether the stop
    signal is present when the step polls it, and whether the comparator
    interrupt fires during the settle delay or between the end of
    [WriteCurrentLimit] and the test of [OvercurrentSensed]. *)
Record SweepStep := {
  stop : bool;
  trip_settling : bool;
  trip_settled : bool
}.

Record SweepPass := {
  stop_before : bool;
  steps : Z -> SweepStep
}.

(** The two places the sweep is written at: after the calibration screen,
    stopped by the pushbutton and reporting on the LCD, and the serial
    command, stopped by an incoming byte and reporting on the serial port. *)
Inductive Channel := OnLCD | OnSerial.

Inductive PassEnd := Tripped | Completed | Stopped.

Inductive Progress := Finished | StillBusy.

(** The poll of the stop signal: the pushbutton reads [LOW], or a byte is
    waiting on the serial port. *)
Definition stop_poll_event (c : Channel) (present : bool) : Event :=
  match c with
  | OnLCD => digitalRead Pushbutton (negb present)
  | OnSerial => Serial_available present
  end.

Definition poll_stop (c : Channel) (present : bool) : M bool :=
  emit (stop_poll_event c present) ;;
  ret present.

Definition ZeroCount (limit : Z) : nat :=
  if limit <? 10 then 4%nat
  else if limit <? 100 then 3%nat
  else if limit <? 1000 then 2%nat
  else if limit <? 10000 then 1%nat
  else 0%nat.

Fixpoint print_zeros (n : nat) : M unit :=
  match n with
  | O => ret tt
  | S n' => emit (lcd_print "0") ;; print_zeros n'
  end.

Definition report_trip (c : Channel) : M unit :=
  limit <- get CurrentLimit ;;
  match c with
  | OnLCD =>
      print_zeros (ZeroCount limit) ;;
      emit (lcd_print_number limit) ;;
      emit (lcd_print " mA")
  | OnSerial =>
      emit (Serial_print "Overcurrent sensed at ") ;;
      emit (Serial_print_number limit) ;;
      emit (Serial_println " mA")
  end.

Definition out_of_limits_event (c : Channel) : Event :=
  match c with
  | OnLCD => lcd_print "OUT LIMIT"
  | OnSerial => Serial_println "Overcurrent sense is not within limits"
  end.

Definition report_out_of_limits (c : Channel) : M unit :=
  emit (out_of_limits_event c).

(** The [for] loop: [fuel] counts the values [i .. MaximumCurrent] still to
    be visited. *)
Fixpoint sweep_for (c : Channel) (fuel : nat) (i : Z) (env : Z -> SweepStep)
  : M PassEnd :=
  match fuel with
  | O => ret Completed
  | S f =>
      s <- poll_stop c (stop (env i)) ;;
      if s then ret Stopped
      else
        modify (set_CurrentLimit i) ;;
        WriteCurrentLimit true (trip_settling (env i)) ;;
        when (trip_settled (env i)) OvercurrentIRQ ;;
        sensed <- get OvercurrentSensed ;;
        if sensed then report_trip c ;; ret Tripped
        else
          limit <- get CurrentLimit ;;
          when (negb sensed && (limit =? MaximumCurrent))
            (report_out_of_limits c) ;;
          sweep_for c f (to_word (i + 1)) env
  end.

Definition sweep_pass (c : Channel) (env : Z -> SweepStep) : M PassEnd :=
  sweep_for c (Z.to_nat (MaximumCurrent + 1)) 0 env.

(** The enclosing [while (true)]: passes repeat until the stop signal is
    seen at the top of the loop.  When the list of passes is used up the
    sweep is still running. *)
Fixpoint sweep (c : Channel) (passes : list SweepPass) : M Progress :=
  match passes with
  | [] => ret StillBusy
  | p :: rest =>
      s <- poll_stop c (stop_before p) ;;
      if s then ret Finished
      else sweep_pass c (steps p) ;; sweep c rest
  end.





(** ** [loop]: the pushbutton menu *)

(** *** Preset selection (held 0-2 seconds) *)

(** [presses] are the presses the operator still makes, in order; when they
    are used up the menu is left waiting for the pushbutton. *)
Fixpoint select_preset (OldPreset OldPWMvalue : Z) (presses : list Press)
  : M Progress :=
  r <- get RecalledPreset ;;
  modify (set_RecalledPreset (to_byte (r + 1))) ;;
  r <- get RecalledPreset ;;
  when (r >=? CurrentPresets) (modify (set_RecalledPreset 0)) ;;
  r <- get RecalledPreset ;;
  limit <- RecallPreset r ;;
  modify (set_CurrentLimit limit) ;;
  d <- get DummyZeroCrossingIRQenable ;;
  when d (modify (set_OvercurrentSensed false)) ;;
  emit (await_level Pushbutton LOW) ;;
  match presses with
  | [] => ret StillBusy
  | p :: rest =>
      WhatToDo <- TimePushbuttonHeld p ;;
      if (WhatToDo >? 2) && (WhatToDo <=? 5) then
        WriteCurrentLimit false false ;;
        ret Finished
      else if WhatToDo >? 5 then
        modify (set_RecalledPreset OldPreset) ;;
        modify (set_CurrentLimit OldPWMvalue) ;;
        ret Finished
      else select_preset OldPreset OldPWMvalue rest
  end.

(** *** Preset programming (held 3-5 seconds) *)

(** "convert a single number into places": repeated subtraction of
    [factor].  At most [temp] subtractions of a [factor >= 1] can happen, so
    [fuel = temp] always reaches the exit. *)
Fixpoint count_places (fuel : nat) (temp factor digit : Z) : Z * Z :=
  match fuel with
  | O => (temp, digit)
  | S f =>
      if temp >=? factor then
        count_places f (to_word (temp - factor)) factor (to_byte (digit + 1))
      else (temp, digit)
  end.

Fixpoint to_places (n : nat) (temp factor : Z) : list Z :=
  match n with
  | O => []
  | S n' =>
      let '(temp', digit) := count_places (Z.to_nat temp) temp factor 0 in
      digit :: to_places n' temp' (to_word (factor / 10))
  end.

(** "convert places into a single number", in 16-bit arithmetic. *)
Fixpoint from_places (DigitTemp : list Z) (factor limit : Z) : Z :=
  match DigitTemp with
  | [] => limit
  | digit :: rest =>
      let FigureToAdd := to_word (digit * factor) in
      from_places rest (to_word (factor / 10)) (to_word (limit + FigureToAdd))
  end.

Definition digit_at (DigitTemp : list Z) (SelectedDigit : nat) : Z :=
  default 0 (DigitTemp !! SelectedDigit).

(** [DigitTemp[SelectedDigit]++] on a [uint8_t], then the roll-over. *)
Definition increment_digit (DigitTemp : list Z) (SelectedDigit : nat) : list Z :=
  let d := to_byte (digit_at DigitTemp SelectedDigit + 1) in
  <[SelectedDigit := if d >? 9 then 0 else d]> DigitTemp.

(** The [while (true)] that recomposes the number and zeroes the selected
    digit while the number exceeds the maximum; [None] when [fuel] rounds do
    not reach the [break]. *)
Fixpoint recompose (fuel : nat) (DigitTemp : list Z) (SelectedDigit : nat)
  : option (list Z * Z) :=
  match fuel with
  | O => None
  | S f =>
      let limit := from_places DigitTemp LargestDigitIncrement 0 in
      if limit >? MaximumCurrent then
        recompose f (<[SelectedDigit := 0]> DigitTemp) SelectedDigit
      else Some (DigitTemp, limit)
  end.

(** A round that zeroes an already zeroed digit repeats itself, so two rounds
    decide whether the loop is ever left. *)
Definition recompose_rounds : nat := 2.

(** The increment step of the editor on the current limit. *)
Definition increment_step (limit : Z) (SelectedDigit : nat)
  : option (list Z * Z) :=
  let DigitTemp := to_places CurrentDigitCount limit LargestDigitIncrement in
  recompose recompose_rounds (increment_digit DigitTemp SelectedDigit)
    SelectedDigit.

Fixpoint program_preset (SelectedDigit : nat) (DigitIncrement : Z)
    (presses : list Press) : M Progress :=
  emit (await_level Pushbutton LOW) ;;
  match presses with
  | [] => ret StillBusy
  | p :: rest =>
      limit <- get CurrentLimit ;;
      WhatToDo <- TimePushbuttonHeld p ;;
      if WhatToDo <=? 2 then
        match increment_step limit SelectedDigit with
        | Some (_, limit') =>
            modify (set_CurrentLimit limit') ;;
            program_preset SelectedDigit DigitIncrement rest
        | None => ret StillBusy
        end
      else if (WhatToDo >? 2) && (WhatToDo <=? 5) then
        if (CurrentDigitCount <=? S SelectedDigit)%nat then
          program_preset 0%nat LargestDigitIncrement rest
        else
          program_preset (S SelectedDigit) (to_word (DigitIncrement / 10)) rest
      else
        WriteCurrentLimit false false ;;
        ret Finished
  end.

(** *** The dispatch on the time the pushbutton was held *)

Definition loop_menu (WhatToDo : Z) (presses : list Press) : M Progress :=
  if (WhatToDo >=? 0) && (WhatToDo <=? 2) then
    OldPreset <- get RecalledPreset ;;
    OldPWMvalue <- get CurrentLimit ;;
    select_preset OldPreset OldPWMvalue presses
  else if (WhatToDo >? 2) && (WhatToDo <=? 5) then
    program_preset 0%nat LargestDigitIncrement presses
  else if (WhatToDo >? 5) && (WhatToDo <=? 9) then
    limit <- get CurrentLimit ;;
    r <- get RecalledPreset ;;
    StorePreset limit r ;;
    ret Finished
  else if WhatToDo =? 10 then
    DisableInterrupts ;;
    r <- get RecalledPreset ;;
    EEPROM_write_byte PresetRecallBase r ;;
    EnableInterrupts ;;
    ret Finished
  else ret Finished.

(** *** From the press to the menu *)

(** [second i] tells whether the pushbutton reads [LOW] at the [i]-th poll of
    the three-second window; [p] is the press [TimePushbuttonHeld] measures. *)
Definition loop_pushbutton_entry (second : nat -> bool) (p : Press) : M Z :=
  b <- get BackEMFcountermeasuresRequired ;;
  if Bool.eqb b true then
    emit (delayTimerless DebounceDelay) ;;
    emit (await_level Pushbutton HIGH) ;;
    emit (delayTimerless DebounceDelay) ;;
    timeout <- PushbuttonTimeout 3 second ;;
    if Bool.eqb timeout false then
      store_EnableOutput LOW ;;
      emit (delayTimerless DebounceDelay) ;;
      TimePushbuttonHeld p
    else ret 11
  else TimePushbuttonHeld p.

(** After the menu: the request is raised again and the handler waits for a
    zero crossing; [zero_crossing] tells whether one arrives. *)
Definition loop_pushbutton_exit (zero_crossing : bool) : M Progress :=
  b <- get BackEMFcountermeasuresRequired ;;
  d <- get DummyZeroCrossingIRQenable ;;
  when (Bool.eqb b true && Bool.eqb d false) (store_EnableOutput HIGH) ;;
  modify (set_ZeroCrossingDetected false) ;;
  modify (set_OvercurrentSensed false) ;;
  if zero_crossing then ZeroCrossingIRQ ;; ret Finished
  else ret StillBusy.

Definition loop_pushbutton (second : nat -> bool) (p : Press)
    (presses : list Press) (zero_crossing : bool) : M Progress :=
  WhatToDo <- loop_pushbutton_entry second p ;;
  m <- loop_menu WhatToDo presses ;;
  match m with
  | Finished => loop_pushbutton_exit zero_crossing
  | StillBusy => ret StillBusy
  end.

(** ** [setup]: the serial programming commands *)

(** A command line after [FieldOps] has split it into fields.  The numeric
    fields are the values the sketch holds in its [word] variables. *)
Inductive StoreField := DEFAULT | Milliamps (ValueToStore : Z).
Inductive BackEMFField := ON | OFF | CHECK | OtherField.

Inductive Command :=
| STORE (MemoryToStore : Z) (field : StoreField)
| READ_ALL
| READ (MemoryToRead : Z)
| CALIBRATE
| BACK_EMF (field : BackEMFField)
| CURRENT_SWEEP
| Unrecognised.

Definition memory_in_range (Memory : Z) : bool :=
  (Memory <=? CurrentPresets)
  && (((CurrentPresets >=? 100) && (Memory >=? 0) && (Memory <? 100))
      || ((CurrentPresets <? 100) && (Memory >=? 1) && (Memory <? 100))).

(** [ValueToStore] is declared without an initialiser and assigned only when
    field 2 is not [DEFAULT]; [indeterminate] is what it holds otherwise. *)
Definition serial_STORE (MemoryToStore : Z) (field : StoreField)
    (indeterminate : Z) : M bool :=
  let StoreDefault := match field with DEFAULT => true | Milliamps _ => false end in
  let ValueToStore :=
    match field with DEFAULT => indeterminate | Milliamps v => v end in
  if (MemoryToStore <=? CurrentPresets) && (ValueToStore <=? MaximumCurrent)
     && (((CurrentPresets >=? 100) && (MemoryToStore >=? 0)
          && (MemoryToStore <? 100))
         || ((CurrentPresets <? 100) && (MemoryToStore >=? 1)
             && (MemoryToStore <? 100)))
  then
    let MemoryToStore :=
      if CurrentPresets <? 100 then to_word (MemoryToStore - 1)
      else MemoryToStore in
    (if negb StoreDefault then StorePreset ValueToStore (to_byte MemoryToStore)
     else EEPROM_write_byte PresetRecallBase MemoryToStore) ;;
    ret true
  else ret false.

Fixpoint read_all (n : nat) (i : Z) : M unit :=
  match n with
  | O => ret tt
  | S n' =>
      let PresetToRead := if CurrentPresets <? 100 then i + 1 else i in
      emit (Serial_print "Memory ") ;;
      emit (Serial_print_number PresetToRead) ;;
      emit (Serial_print ": ") ;;
      v <- RecallPreset (to_byte i) ;;
      emit (Serial_print_number v) ;;
      emit (Serial_println " mA") ;;
      read_all n' (i + 1)
  end.

Definition serial_READ_ALL : M bool :=
  emit (Serial_print "Default: ") ;;
  d <- EEPROM_read_byte PresetRecallBase ;;
  emit (Serial_print_number
          (if CurrentPresets <? 100 then to_byte (d + 1) else d)) ;;
  read_all (Z.to_nat CurrentPresets) 0 ;;
  ret true.

Definition serial_READ (MemoryToRead : Z) : M bool :=
  if memory_in_range MemoryToRead then
    let MemoryToRead :=
      if CurrentPresets <? 100 then to_word (MemoryToRead - 1)
      else MemoryToRead in
    v <- RecallPreset (to_byte MemoryToRead) ;;
    emit (Serial_print_number v) ;;
    emit (Serial_println " mA") ;;
    ret true
  else ret false.

Definition serial_CALIBRATE : M bool :=
  modify (set_CurrentLimit (to_word MaximumCurrent)) ;;
  WriteCurrentLimit false false ;;
  DisableInterrupts ;;
  emit (Serial_print "Adjust VR1 for ") ;;
  let V := to_ulong (to_ulong MaximumCurrent * CurrentSensingResistor) in
  emit (Serial_print_number (V / 1000000)) ;;
  emit (Serial_print ".") ;;
  emit (Serial_print_number (V mod 1000000)) ;;
  emit (Serial_println "V at TP2") ;;
  ret true.

Definition serial_BACK_EMF (field : BackEMFField) : M bool :=
  match field with
  | ON =>
      modify (set_BackEMFcountermeasuresRequired true) ;;
      f <- get BackEMFcountermeasuresRequired ;;
      EEPROM_write_byte BackEMFcountermeasuresRequiredBase (int_of_bool f) ;;
      ret true
  | OFF =>
      modify (set_BackEMFcountermeasuresRequired false) ;;
      f <- get BackEMFcountermeasuresRequired ;;
      EEPROM_write_byte BackEMFcountermeasuresRequiredBase (int_of_bool f) ;;
      ret true
  | CHECK =>
      emit (Serial_print "Back EMF countermeasures ") ;;
      f <- get BackEMFcountermeasuresRequired ;;
      emit (Serial_println (if f then "enabled" else "disabled")) ;;
      ret true
  | OtherField => ret false
  end.

(** The sweep is left only on the stop signal: while the passes at hand have
    not seen it the command is still running ([None]), with the triggers
    armed and nothing answered. *)
Definition serial_CURRENT_SWEEP (passes : list SweepPass) : M (option bool) :=
  EnableInterrupts ;;
  p <- sweep OnSerial passes ;;
  match p with
  | Finished => DisableInterrupts ;; ret (Some true)
  | StillBusy => ret None
  end.

(** A command that returns at once, with the [ValidField] it leaves. *)
Definition returned (command : M bool) : M (option bool) :=
  ValidField <- command ;;
  ret (Some ValidField).

(** The reply that closes a command; none is made while the command has not
    returned. *)
Definition serial_reply (ended : option bool) : M (option bool) :=
  match ended with
  | Some ValidField =>
      emit (Serial_println
              (if Bool.eqb ValidField true then "OK" else "ERROR")) ;;
      ret (Some ValidField)
  | None => ret None
  end.

(** One command of the session: the dispatch, then the [OK]/[ERROR] reply.
    [indeterminate] and [passes] are the surroundings the [STORE] and
    [CURRENT_SWEEP] branches depend on.  The result is the [ValidField] the
    reply was made from, [None] while the command has not returned. *)
Definition serial_command (command : Command) (indeterminate : Z)
    (passes : list SweepPass) : M (option bool) :=
  ended <-
    match command with
    | STORE MemoryToStore field =>
        returned (serial_STORE MemoryToStore field indeterminate)
    | READ_ALL => returned serial_READ_ALL
    | READ MemoryToRead => returned (serial_READ MemoryToRead)
    | CALIBRATE => returned serial_CALIBRATE
    | BACK_EMF field => returned (serial_BACK_EMF field)
    | CURRENT_SWEEP => serial_CURRENT_SWEEP passes
    | Unrecognised => returned (ret false)
    end ;;
  serial_reply ended.

(** ** [setup]: calibration and diagnostic entry (held 10 seconds) *)

(** [p] is the press that leaves the screen.  A hold of 5 to 9 seconds
    runs the sweep, which is left only on a press: while the passes at hand
    have not seen one the sketch is still inside it ([StillBusy]), with the
    triggers armed and the end of the screen not reached. *)
Definition setup_calibration (p : Press) (passes : list SweepPass)
  : M Progress :=
  modify (set_CurrentLimit (to_word MaximumCurrent)) ;;
  WriteCurrentLimit false false ;;
  DisableInterrupts ;;
  emit (await_level Pushbutton LOW) ;;
  ActionToTake <- TimePushbuttonHeld p ;;
  screen <-
    (if ActionToTake >=? 10 then
       f <- get BackEMFcountermeasuresRequired ;;
       modify (set_BackEMFcountermeasuresRequired (negb f)) ;;
       f <- get BackEMFcountermeasuresRequired ;;
       EEPROM_write_byte BackEMFcountermeasuresRequiredBase (int_of_bool f) ;;
       emit (delayTimerless 5000) ;;
       ret Finished
     else if (ActionToTake >=? 5) && (ActionToTake <=? 9) then
       EnableInterrupts ;;
       swept <- sweep OnLCD passes ;;
       match swept with
       | Finished =>
           DisableInterrupts ;;
           emit (delayTimerless DebounceDelay) ;;
           emit (await_level Pushbutton HIGH) ;;
           emit (delayTimerless DebounceDelay) ;;
           ret Finished
       | StillBusy => ret StillBusy
       end
     else ret Finished) ;;
  match screen with
  | Finished =>
      modify (set_DummyZeroCrossingIRQenable true) ;;
      ret Finished
  | StillBusy => ret StillBusy
  end.

(** ** The critical-section discipline, read off an event log *)

Definition is_EEPROM_access (e : Event) : bool :=
  match e with
  | EEPROM_read _ | EEPROM_write _ _ => true
  | _ => false
  end.

(** Where a log stands with respect to the trigger pair: [Armed] outside any
    section; [Disarming1], [Disarming2] after the first and second call of
    [DisableInterrupts]; [Disarmed] once it is complete; [Accessed] after an
    EEPROM access made while disarmed; [Rearming] after the first call of
    [EnableInterrupts]. *)
Inductive Phase :=
| Armed | Disarming1 | Disarming2 | Disarmed | Accessed | Rearming.

Definition phase_step (ph : Phase) (e : Event) : option Phase :=
  if is_EEPROM_access e then
    match ph with
    | Disarmed | Accessed => Some Accessed
    | _ => None
    end
  else
    match ph, e with
    | Accessed, attachInterrupt OvercurrentIRQpin FALLING => Some Rearming
    | Accessed, _ => None
    | Rearming, attachInterrupt ZeroCrossingIRQpin CHANGE => Some Armed
    | Rearming, _ => None
    | Disarming1, digitalWrite OutputEnable false => Some Disarming2
    | Disarming2, detachInterrupt OvercurrentIRQpin => Some Disarmed
    | _, detachInterrupt ZeroCrossingIRQpin => Some Disarming1
    | _, _ => Some Armed
    end.

Fixpoint phases (ph : Phase) (t : list Event) : option Phase :=
  match t with
  | [] => Some ph
  | e :: t' =>
      match phase_step ph e with
      | Some ph' => phases ph' t'
      | None => None
      end
  end.

(** Every EEPROM access of the log lies in a run of accesses that
    [DisableInterrupts] immediately precedes and [EnableInterrupts]
    immediately follows. *)
Definition in_critical_sections (t : list Event) : bool :=
  match phases Armed t with
  | Some Accessed | Some Rearming | None => false
  | Some _ => true
  end.

(** ** Vocabulary of the statements *)

Definition preset_address (preset : Z) : Z :=
  preset * BytesPerPreset + CurrentPresetBase.

(** The value [RecallPreset] returns for a slot of a given EEPROM. *)
Definition stored_preset (m : gmap Z Z) (preset : Z) : Z :=
  to_word (cell m (preset_address preset) * 256
           + cell m (preset_address preset + 1)).

(** The EEPROM after [StorePreset value preset]. *)
Definition write_preset (m : gmap Z Z) (value preset : Z) : gmap Z Z :=
  <[preset_address preset + 1 := to_byte value]>
    (<[preset_address preset := to_byte (value / 256)]> m).

Definition DisableInterrupts_events : list Event :=
  [detachInterrupt ZeroCrossingIRQpin; digitalWrite OutputEnable LOW;
   detachInterrupt OvercurrentIRQpin].

Definition EnableInterrupts_events : list Event :=
  [attachInterrupt OvercurrentIRQpin FALLING;
   attachInterrupt ZeroCrossingIRQpin CHANGE].

(** A state as a normally booted unit has it: back-EMF countermeasures on,
    preset 3 of 2500 mA recalled, output requested. *)
Definition running_state : State :=
  mkState (write_preset ∅ 2500 3) 20000 2500 3 true false false false HIGH.

(** What the power-on check makes of a stored preset value. *)
Definition normalised (value : Z) : Z :=
  if value >? MaximumCurrent then 0 else value.

(** An EEPROM with a corrupt slot 2 and a corrupt power-on default. *)
Definition corrupt_state : State :=
  mkState (<[PresetRecallBase := 200]> (write_preset (write_preset ∅ 2500 3) 60000 2))
    0 0 0 false false false false LOW.

(** Whether an edge arrives within the polls of one
    [WaitForZeroCrossingOrTimeout]. *)
Definition edge_seen (edge : nat -> bool) : bool :=
  existsb edge (seq 0 (Z.to_nat MaxZeroCrossingTime)).

(** The half-period the qualification stores in [ZeroCrossingTime]. *)
Definition measured_half_period (mains : Mains) : Z :=
  to_word (to_ulong (to_ulong (StopTime mains) - to_ulong (StartTime mains))).

(** A 50 Hz sine: every wait sees its edge at the third poll, and the two
    falling edges are 20000 microseconds apart. *)
Definition sine_mains : Mains :=
  {| any_edge := fun i => Nat.eqb i 3;
     rising_sync := fun i => Nat.eqb i 3;
     rising_edge := fun i => Nat.eqb i 3;
     falling_sync := fun i => Nat.eqb i 3;
     falling_edge := fun i => Nat.eqb i 3;
     StartTime := 1000000;
     StopTime := 1020000 |}.




(** No mains at all. *)
Definition dead_mains : Mains :=
  {| any_edge := fun _ => false;
     rising_sync := fun _ => false;
     rising_edge := fun _ => false;
     falling_sync := fun _ => false;
     falling_edge := fun _ => false;
     StartTime := 0;
     StopTime := 0 |}.


(** The weight of the digit the editor has selected. *)
Definition place_value (SelectedDigit : nat) : Z :=
  match SelectedDigit with
  | 0%nat => 10000
  | 1%nat => 1000
  | 2%nat => 100
  | 3%nat => 10
  | _ => 1
  end.

(** The digit an increment leaves at the selected place: 0 after a 9, 0 when
    the incremented number would exceed the maximum, the next digit
    otherwise. *)
Definition digit_after (limit : Z) (SelectedDigit : nat) (digit : Z) : Z :=
  if digit =? 9 then 0
  else if limit + place_value SelectedDigit >? MaximumCurrent then 0
  else digit + 1.

(** The editor over 10000 mA, asked to raise the ten-thousands digit. *)
Definition editor_limit : Z := 10000.


Definition is_output_off_request (e : Event) : bool :=
  match e with
  | EnableOutput_store false => true
  | _ => false
  end.









(** ** [loop]: the load percentage *)

(** [micros] is the reading of [micros()] when the overcurrent flag is seen,
    [ZeroCrossingStart] the reading taken at the zero crossing; all three
    steps are [unsigned long] arithmetic, the byte handed to
    [DisplayLoadPercentage] is the clamped value. *)
Definition LoadPercentage (micros ZeroCrossingStart HalfPeriod : Z) : Z :=
  let p := to_ulong micros in
  let p := to_ulong (p - to_ulong ZeroCrossingStart) in
  let p := to_ulong (p * 100) in
  let p := p / HalfPeriod in
  let p := if p >? 100 then 100 else p in
  to_byte p.

(** ** [setup]: the temporary toggle of the countermeasures (held 2-4 s) *)

Definition setup_temporary_toggle : M unit :=
  f <- get BackEMFcountermeasuresRequired ;;
  modify (set_BackEMFcountermeasuresRequired (negb f)) ;;
  emit (lcd_print "BACK EMF") ;;
  emit (lcd_print "COUNTERMEASURE") ;;
  emit (lcd_print "TEMPORARY") ;;
  f <- get BackEMFcountermeasuresRequired ;;
  emit (lcd_print (if Bool.eqb f true then "ENABLE" else "DISABLE")) ;;
  emit (delayTimerless 5000).

(** ** [setup]: the serial command [COMP_TEST] *)

(** One round of the test loop as the outside world shapes it: whether the
    comparator interrupt has fired since the last round, whether the
    comparator output reads [LOW], whether the interrupt fires between the
    test that opens the report and the test that names its cause, and
    whether a serial byte is waiting when the round polls the port. *)
Record CompRound := {
  comp_interrupt : bool;
  comp_pin_low : bool;
  comp_interrupt_late : bool;
  comp_serial : bool
}.

(** The [while (true)] of the test: it is left only when a serial byte is
    waiting; when the list of rounds is used up the test is still running.
    The wait that follows a report ends when the comparator output is high
    again or a serial byte arrives. *)
Fixpoint comp_test_loop (rounds : list CompRound) : M Progress :=
  match rounds with
  | [] => ret StillBusy
  | q :: rest =>
      when (comp_interrupt q) OvercurrentIRQ ;;
      sensed <- get OvercurrentSensed ;;
      low <- (if Bool.eqb sensed true then ret false
              else
                emit (digitalRead OvercurrentIRQpin (negb (comp_pin_low q))) ;;
                ret (comp_pin_low q)) ;;
      when (Bool.eqb sensed true || low)
        (emit (Serial_print
                 "Current is now greater than programmed threshold - ") ;;
         when (comp_interrupt_late q) OvercurrentIRQ ;;
         sensed <- get OvercurrentSensed ;;
         (if Bool.eqb sensed true then
            modify (set_OvercurrentSensed false) ;;
            emit (Serial_println "interrupt")
          else emit (Serial_println "poll")) ;;
         emit (await_level OvercurrentIRQpin HIGH)) ;;
      emit (Serial_available (comp_serial q)) ;;
      if comp_serial q then
        emit (Serial_println "End of overcurrent comparator test") ;;
        ret Finished
      else
        emit (delayTimerless 1000) ;;
        comp_test_loop rest
  end.

(** [None] while the test loop is still running. *)
Definition serial_COMP_TEST (CurrentToTest : Z) (rounds : list CompRound)
  : M (option bool) :=
  if CurrentToTest <=? MaximumCurrent then
    emit (Serial_println "Entering overcurrent comparator test") ;;
    modify (set_CurrentLimit CurrentToTest) ;;
    WriteCurrentLimit false false ;;
    modify (set_OvercurrentSensed false) ;;
    EnableInterrupts ;;
    p <- comp_test_loop rounds ;;
    match p with
    | Finished => DisableInterrupts ;; ret (Some true)
    | StillBusy => ret None
    end
  else ret (Some false).

(** ** [setup]: the serial command [EXIT] *)

Definition serial_EXIT (diagnostics : bool) : M unit :=
  when diagnostics
    (emit (Serial_println "Diagnostic mode enabled") ;;
     modify (set_DummyZeroCrossingIRQenable true)) ;;
  emit (Serial_println "Exiting serial programming mode").

(** ** [setup] from the check of the presets to its end *)

Definition setup_tail (mains : Mains) : M Startup :=
  setup_check_presets ;;
  setup_startup mains.

(** ** Vocabulary of the further statements *)

(** The seconds [TimePushbuttonHeld] returns for a press. *)
Definition seconds_held (p : Press) : Z :=
  match p with
  | NotPressed => 0
  | HeldFor polls => held_loop 101 0 polls 0
  end.

(** The slot the menu shows after one more short press. *)
Definition next_preset (preset : Z) : Z :=
  if to_byte (preset + 1) >=? CurrentPresets then 0 else to_byte (preset + 1).

(** The numbers a log prints on the serial port. *)
Definition serial_numbers (t : list Event) : list Z :=
  omap (fun e => match e with
                 | Serial_print_number n => Some n
                 | _ => None
                 end) t.

(** The serial status lines of a log. *)
Definition serial_lines (t : list Event) : list string :=
  omap (fun e => match e with
                 | Serial_println text => Some text
                 | _ => None
                 end) t.

(** The working values are in range: the current limit is a valid limit, the
    recalled preset a valid slot. *)
Definition working_in_range (s : State) : Prop :=
  0 <= CurrentLimit s <= MaximumCurrent
  /\ 0 <= RecalledPreset s < CurrentPresets.

(** Every preset slot holds a valid limit. *)
Definition presets_in_range (m : gmap Z Z) : Prop :=
  forall preset, 0 <= preset < CurrentPresets ->
    stored_preset m preset <= MaximumCurrent.

Definition is_EEPROM_write (e : Event) : bool :=
  match e with
  | EEPROM_write _ _ => true
  | _ => false
  end.

Definition is_output_on_request (e : Event) : bool :=
  match e with
  | EnableOutput_store true => true
  | _ => false
  end.

Definition is_delay (e : Event) : bool :=
  match e with
  | delayMicroseconds _ => true
  | _ => false
  end.

(** The last level written to the output pin, if any. *)
Definition last_output_write (t : list Event) : option bool :=
  last (omap (fun e => match e with
                       | digitalWrite OutputEnable level => Some level
                       | _ => None
                       end) t).

(** The power-on default cell names slot 3, slot 3 holds 2500 mA and the
    other slots were never written. *)
Definition factory_state : State :=
  mkState (<[PresetRecallBase := 3]> (write_preset ∅ 2500 3))
    0 0 0 false false false false LOW.

(** What one more short press in the preset selection does to the globals:
    the next slot is recalled into the current limit (and, in diagnostic
    mode, the overcurrent flag is cleared by the "OL" display). *)
Definition show_next (s : State) : State :=
  let r := next_preset (RecalledPreset s) in
  let s1 := set_CurrentLimit (stored_preset (EEPROM s) r)
              (set_RecalledPreset r s) in
  if DummyZeroCrossingIRQenable s then set_OvercurrentSensed false s1 else s1.

Fixpoint browse (n : nat) (s : State) : State :=
  match n with
  | O => s
  | S n' => browse n' (show_next s)
  end.

(** An event that neither writes the EEPROM nor changes the output request
    nor hands a duty code to the PWM driver. *)
Definition is_passive (e : Event) : bool :=
  match e with
  | EEPROM_write _ _ | EnableOutput_store _ | AdvancedAnalogWrite_write _ _ =>
      false
  | _ => true
  end.

(** What a round of the preset selection logs before it acts on the press. *)
Definition round_events (s : State) (p : Press) : list Event :=
  events (RecallPreset (next_preset (RecalledPreset s)) s)
  ++ [await_level Pushbutton LOW]
  ++ events (TimePushbuttonHeld p s).

(** An event that raises the output request or drives the output pin
    high. *)
Definition is_energising (e : Event) : bool :=
  match e with
  | digitalWrite OutputEnable true | EnableOutput_store true => true
  | _ => false
  end.

(** An event that programs nothing and that, where it writes the output pin,
    writes [level]. *)
Definition follows_request (level : bool) (e : Event) : bool :=
  is_passive e
  && match e with
     | digitalWrite OutputEnable v => Bool.eqb v level
     | _ => true
     end.

(** The reports of the comparator test. *)
Definition is_comp_report (e : Event) : bool :=
  match e with
  | Serial_println text =>
      String.eqb text "interrupt" || String.eqb text "poll"
  | _ => false
  end.
(** * Properties *)

(** ** Machine integers *)

Lemma to_byte_small z : 0 <= z < 256 -> to_byte z = z.
Proof. intros H. unfold to_byte. apply Z.mod_small. exact H. Qed.

Lemma to_word_small z : 0 <= z < 65536 -> to_word z = z.
Proof. intros H. unfold to_word. apply Z.mod_small. exact H. Qed.

Lemma to_byte_range z : 0 <= to_byte z < 256.
Proof. unfold to_byte. apply Z.mod_pos_bound. lia. Qed.

Lemma to_byte_idem z : to_byte (to_byte z) = to_byte z.
Proof. apply to_byte_small, to_byte_range. Qed.

Lemma word_of_bytes v :
  to_word (to_byte (v / 256) * 256 + to_byte v) = to_word v.
Proof.
  unfold to_word, to_byte.
  replace (v / 256 mod 256 * 256 + v mod 256) with (v mod (256 * 256)).
  - apply Z.mod_mod. lia.
  - rewrite Z.rem_mul_r by lia. lia.
Qed.

Lemma dutyCode_in_range v :
  0 <= v <= MaximumCurrent -> dutyCode v = MaximumCurrent + 1 - v.
Proof.
  intros H. unfold dutyCode, to_word, MaximumCurrent in *.
  rewrite (Z.mod_small 10001) by lia. apply Z.mod_small. lia.
Qed.

Lemma WriteCurrentLimit_duty SweepUsed overcurrent s :
  duty_writes (events (WriteCurrentLimit SweepUsed overcurrent s))
  = [dutyCode (CurrentLimit s)].
Proof.
  unfold WriteCurrentLimit.
  destruct SweepUsed, overcurrent, (CurrentLimit s =? 0) eqn:E;
    unfold bind, get; cbn; rewrite ?E; reflexivity.
Qed.

(** ** The preset store *)

Lemma cell_insert_eq (m : gmap Z Z) a v : cell (<[a := to_byte v]> m) a = to_byte v.
Proof. unfold cell. rewrite lookup_insert_eq. cbn. apply to_byte_idem. Qed.

Lemma cell_insert_ne (m : gmap Z Z) a b v : a <> b -> cell (<[a := v]> m) b = cell m b.
Proof. intros H. unfold cell. rewrite lookup_insert_ne by exact H. reflexivity. Qed.

Lemma RecallPreset_run preset s :
  RecallPreset preset s
  = mkRun (stored_preset (EEPROM s) preset) s
      (DisableInterrupts_events
       ++ [EEPROM_read (preset_address preset);
           EEPROM_read (preset_address preset + 1)]
       ++ EnableInterrupts_events).
Proof. reflexivity. Qed.

Lemma StorePreset_run value preset s :
  StorePreset value preset s
  = mkRun tt (set_EEPROM (write_preset (EEPROM s) value preset) s)
      (DisableInterrupts_events
       ++ [EEPROM_write (preset_address preset) (to_byte (value / 256));
           EEPROM_write (preset_address preset + 1) (to_byte value)]
       ++ EnableInterrupts_events).
Proof. reflexivity. Qed.

Lemma stored_preset_write_eq m value preset :
  stored_preset (write_preset m value preset) preset = to_word value.
Proof.
  unfold stored_preset, write_preset.
  rewrite cell_insert_eq, cell_insert_ne by lia.
  rewrite cell_insert_eq. apply word_of_bytes.
Qed.

Lemma stored_preset_write_ne m value preset other :
  other <> preset ->
  stored_preset (write_preset m value preset) other = stored_preset m other.
Proof.
  intros H. unfold stored_preset, write_preset, preset_address, BytesPerPreset.
  rewrite !cell_insert_ne by lia. reflexivity.
Qed.

Lemma cell_write_preset_outside m value preset a :
  a <> preset_address preset -> a <> preset_address preset + 1 ->
  cell (write_preset m value preset) a = cell m a.
Proof.
  intros H1 H2. unfold write_preset. rewrite !cell_insert_ne by congruence.
  reflexivity.
Qed.

(** ** C1: the duty code *)

(** C1. For every current limit [v] in [0, MaximumCurrent] the duty code
    [WriteCurrentLimit] hands to the PWM driver is [MaximumCurrent + 1 - v],
    and a larger limit gets a strictly smaller duty code. *)
Theorem C1_duty_code (s : State) (SweepUsed overcurrent : bool) :
  0 <= CurrentLimit s <= MaximumCurrent ->
  duty_writes (events (WriteCurrentLimit SweepUsed overcurrent s))
  = [MaximumCurrent + 1 - CurrentLimit s]
  /\ forall (s' : State) (SweepUsed' overcurrent' : bool),
       0 <= CurrentLimit s' <= MaximumCurrent ->
       CurrentLimit s < CurrentLimit s' ->
       exists d d',
         duty_writes (events (WriteCurrentLimit SweepUsed overcurrent s)) = [d]
         /\ duty_writes (events (WriteCurrentLimit SweepUsed' overcurrent' s'))
            = [d']
         /\ d' < d.
Proof.
  intros Hs. rewrite WriteCurrentLimit_duty, dutyCode_in_range by exact Hs.
  split; [reflexivity|].
  intros s' sw' oc' Hs' Hlt.
  exists (MaximumCurrent + 1 - CurrentLimit s), (MaximumCurrent + 1 - CurrentLimit s').
  rewrite WriteCurrentLimit_duty, dutyCode_in_range by exact Hs'.
  repeat split. lia.
Qed.

Lemma C1_duty_code_witness :
  duty_writes (events (WriteCurrentLimit false false running_state)) = [7501].
Proof.
  destruct (C1_duty_code running_state false false) as [H _].
  - vm_compute. split; discriminate.
  - exact H.
Defined.

(** ** C10: the countermeasure flag at power-on *)

(** C10. The flag read at power-on is true exactly when the stored byte is
    not 0; the "neither true nor false" branch is never taken, so nothing is
    written and the EEPROM is left as it was. *)
Theorem C10_flag_read_never_normalises (s : State) :
  let r := setup_read_BackEMF s in
  BackEMFcountermeasuresRequired (final r)
  = negb (cell (EEPROM s) BackEMFcountermeasuresRequiredBase =? 0)
  /\ EEPROM (final r) = EEPROM s
  /\ events r = [EEPROM_read BackEMFcountermeasuresRequiredBase].
Proof.
  unfold setup_read_BackEMF, bind, EEPROM_read_byte, get, modify, emit, bind.
  cbn. unfold bool_of_int.
  destruct (cell (EEPROM s) BackEMFcountermeasuresRequiredBase =? 0);
    cbn; repeat split.
Qed.

(** ** C9: critical sections *)

(** C9 (as amended). Loading and saving a preset slot, and the write of the
    power-on default made from the pushbutton menu, happen between
    [DisableInterrupts] and [EnableInterrupts]; the writes of the
    countermeasure flag (serial [BACK_EMF ON]/[OFF], the toggle after the
    calibration screen) are plain EEPROM writes outside any such section. *)
Theorem C9_critical_sections (s : State) (value preset : Z)
    (presses : list Press) (polls : nat) (passes : list SweepPass) :
  in_critical_sections (events (RecallPreset preset s)) = true
  /\ in_critical_sections (events (StorePreset value preset s)) = true
  /\ in_critical_sections (events (loop_menu 10 presses s)) = true
  /\ in_critical_sections (events (serial_BACK_EMF ON s)) = false
  /\ in_critical_sections (events (serial_BACK_EMF OFF s)) = false
  /\ in_critical_sections
       (events (setup_calibration (HeldFor (101 + polls)) passes s)) = false.
Proof.
  repeat split; reflexivity.
Qed.

Lemma C9_flag_write_unguarded :
  in_critical_sections
    (events (serial_command (BACK_EMF ON) 0 [] running_state)) = false
  /\ events (serial_command (BACK_EMF ON) 0 [] running_state)
     = [EEPROM_write BackEMFcountermeasuresRequiredBase 1; Serial_println "OK"].
Proof. split; reflexivity. Qed.

(** ** C6 and C7: the serial [STORE] command *)

Lemma serial_STORE_rejected MemoryToStore field indeterminate s :
  let ValueToStore :=
    match field with DEFAULT => indeterminate | Milliamps v => v end in
  MemoryToStore < 1 \/ CurrentPresets < MemoryToStore
  \/ MaximumCurrent < ValueToStore ->
  serial_STORE MemoryToStore field indeterminate s = mkRun false s [].
Proof.
  intros V H. unfold serial_STORE. fold V.
  unfold CurrentPresets, MaximumCurrent in *.
  destruct (MemoryToStore <=? 10) eqn:E1, (V <=? 10000) eqn:E2,
    (MemoryToStore >=? 1) eqn:E3; cbn; try reflexivity.
  exfalso. lia.
Qed.

Lemma serial_STORE_value_accepted MemoryToStore ValueToStore indeterminate s :
  1 <= MemoryToStore <= CurrentPresets -> ValueToStore <= MaximumCurrent ->
  serial_STORE MemoryToStore (Milliamps ValueToStore) indeterminate s
  = mkRun true
      (set_EEPROM (write_preset (EEPROM s) ValueToStore (MemoryToStore - 1)) s)
      (events (StorePreset ValueToStore (MemoryToStore - 1) s)).
Proof.
  intros H1 H2. unfold serial_STORE.
  unfold CurrentPresets, MaximumCurrent in *.
  replace (MemoryToStore <=? 10) with true by lia.
  replace (ValueToStore <=? 10000) with true by lia.
  replace (MemoryToStore >=? 1) with true by lia.
  replace (MemoryToStore <? 100) with true by lia.
  change (10 >=? 100) with false. change (10 <? 100) with true.
  cbn [andb orb negb].
  rewrite (to_word_small (MemoryToStore - 1)) by lia.
  rewrite (to_byte_small (MemoryToStore - 1)) by lia.
  reflexivity.
Qed.

(** C6. A [STORE <slot> <mA>] whose slot is outside [1..CurrentPresets] or
    whose value exceeds [MaximumCurrent] is answered [ERROR] and changes
    nothing; any other is answered [OK] after the value was written to the
    addressed slot (slot numbers on the wire start at 1). *)
Theorem C6_STORE_validates (s : State) (slot mA indeterminate : Z)
    (passes : list SweepPass) :
  0 <= slot < 65536 -> 0 <= mA < 65536 ->
  let r := serial_command (STORE slot (Milliamps mA)) indeterminate passes s in
  (slot < 1 \/ CurrentPresets < slot \/ MaximumCurrent < mA ->
   result r = Some false /\ events r = [Serial_println "ERROR"] /\ final r = s)
  /\ (1 <= slot <= CurrentPresets /\ mA <= MaximumCurrent ->
      result r = Some true
      /\ last (events r) = Some (Serial_println "OK")
      /\ stored_preset (EEPROM (final r)) (slot - 1) = mA
      /\ final r = set_EEPROM (write_preset (EEPROM s) mA (slot - 1)) s
      /\ (forall other, other <> slot - 1 ->
            stored_preset (EEPROM (final r)) other
            = stored_preset (EEPROM s) other)).
Proof.
  intros Hslot HmA r. subst r. split.
  - intros H. unfold serial_command, returned, serial_reply, bind.
    rewrite (serial_STORE_rejected slot (Milliamps mA)) by exact H.
    repeat split.
  - intros [H1 H2]. unfold serial_command, returned, serial_reply, bind.
    rewrite serial_STORE_value_accepted by assumption.
    rewrite StorePreset_run.
    cbn [bind ret emit result final events EEPROM set_EEPROM].
    repeat split.
    + rewrite stored_preset_write_eq. apply to_word_small. exact HmA.
    + intros other Hne. apply stored_preset_write_ne. exact Hne.
Qed.

Lemma C6_STORE_validates_witness :
  (let r := serial_command (STORE 11 (Milliamps 5000)) 0 [] running_state in
   result r = Some false /\ events r = [Serial_println "ERROR"]
   /\ final r = running_state)
  /\ (let r := serial_command (STORE 4 (Milliamps 5000)) 0 [] running_state in
      stored_preset (EEPROM (final r)) 3 = 5000).
Proof.
  split.
  - apply (C6_STORE_validates running_state 11 5000 0 []); [lia | lia |].
    right. left. vm_compute. reflexivity.
  - apply (C6_STORE_validates running_state 4 5000 0 []); [lia | lia |].
    vm_compute. repeat split; discriminate.
Defined.

(** Whether [STORE <slot> DEFAULT] is accepted is decided by the slot and by
    what the unassigned [ValueToStore] happens to hold. *)
Lemma serial_STORE_DEFAULT_accepted (s : State) (slot indeterminate : Z) :
  result (serial_STORE slot DEFAULT indeterminate s)
  = memory_in_range slot && (indeterminate <=? MaximumCurrent).
Proof.
  unfold serial_STORE, memory_in_range.
  destruct (slot <=? CurrentPresets), (indeterminate <=? MaximumCurrent),
    (slot >=? 1), (slot <? 100); reflexivity.
Qed.

(** C7 (the firmware at the failing input). [STORE 3 DEFAULT], received while
    the unassigned [ValueToStore] holds 65535, is answered [ERROR] and the
    power-on default is not written, although slot 3 is in range. *)
Theorem C7_STORE_DEFAULT_reads_unassigned (s : State) :
  let r := serial_command (STORE 3 DEFAULT) 65535 [] s in
  result r = Some false /\ events r = [Serial_println "ERROR"] /\ final r = s
  /\ result (serial_command (STORE 3 DEFAULT) 0 [] s) = Some true.
Proof. repeat split. Qed.

(** ** C5: the check of the stored presets *)

Lemma check_presets_spec (n : nat) : forall (i : Z) (s : State),
  let r := check_presets n i s in
  final r = set_EEPROM (EEPROM (final r)) s
  /\ (forall j, i <= j < i + Z.of_nat n ->
        stored_preset (EEPROM (final r)) j
        = normalised (stored_preset (EEPROM s) j)
        /\ In (EEPROM_read (preset_address j)) (events r)
        /\ (In (EEPROM_write (preset_address j) 0) (events r)
            <-> MaximumCurrent < stored_preset (EEPROM s) j))
  /\ (forall a, a < preset_address i \/ preset_address (i + Z.of_nat n) <= a ->
        cell (EEPROM (final r)) a = cell (EEPROM s) a
        /\ forall v, ~ In (EEPROM_write a v) (events r)).
Proof.
  induction n as [|n IH]; intros i s; cbv zeta.
  - cbn. repeat split; try lia; try tauto. destruct s; reflexivity.
  - cbn [check_presets]. unfold bind. rewrite RecallPreset_run.
    cbn [result final events].
    set (v := stored_preset (EEPROM s) i).
    set (s1 := final ((if v >? MaximumCurrent then StorePreset 0 i else ret tt) s)).
    set (e1 := events ((if v >? MaximumCurrent then StorePreset 0 i else ret tt) s)).
    cbn [result final events].
    assert (Hs1 : s1 = set_EEPROM (EEPROM s1) s).
    { subst s1. destruct (v >? MaximumCurrent); [rewrite StorePreset_run|];
        cbn; destruct s; reflexivity. }
    assert (Hi : stored_preset (EEPROM s1) i = normalised v).
    { subst s1. unfold normalised. destruct (v >? MaximumCurrent).
      - rewrite StorePreset_run. cbn. apply stored_preset_write_eq.
      - reflexivity. }
    assert (Hother : forall a, a <> preset_address i -> a <> preset_address i + 1 ->
                       cell (EEPROM s1) a = cell (EEPROM s) a).
    { intros a Ha1 Ha2. subst s1. destruct (v >? MaximumCurrent).
      - rewrite StorePreset_run. cbn. apply cell_write_preset_outside; assumption.
      - reflexivity. }
    assert (He1 : forall a w, In (EEPROM_write a w) e1 <->
                    MaximumCurrent < v /\ w = 0
                    /\ (a = preset_address i \/ a = preset_address i + 1)).
    { intros a w. subst e1. destruct (v >? MaximumCurrent) eqn:E.
      - rewrite StorePreset_run. cbn. split.
        + intros [H|[H|[H|[H|[H|[H|[H|[]]]]]]]]; try discriminate;
            injection H as <- <-; (split; [lia|split; [reflexivity|tauto]]).
        + intros (_ & -> & [->| ->]); tauto.
      - cbn. split; [tauto|]. intros (H & _). lia. }
    destruct (IH (i + 1) s1) as (IH1 & IH2 & IH3).
    set (r := check_presets n (i + 1) s1) in *.
    split; [|split].
    + rewrite IH1, Hs1. destruct s; reflexivity.
    + intros j Hj. destruct (Z.eq_dec j i) as [->|Hne].
      * destruct (IH3 (preset_address i)) as [Hc Hw].
        { left. unfold preset_address, BytesPerPreset. lia. }
        destruct (IH3 (preset_address i + 1)) as [Hc' _].
        { left. unfold preset_address, BytesPerPreset. lia. }
        split; [|split].
        -- unfold stored_preset. rewrite Hc, Hc'. exact Hi.
        -- cbn. tauto.
        -- rewrite !in_app_iff, He1. fold v. split.
           ++ intros [H|[H|H]].
              ** cbn in H. intuition discriminate.
              ** tauto.
              ** destruct (Hw _ H).
           ++ intros H. right. left. tauto.
      * destruct (IH2 j) as (H1 & H2 & H3); [lia|].
        assert (Hsame : stored_preset (EEPROM s1) j = stored_preset (EEPROM s) j).
        { unfold stored_preset. rewrite !Hother; [reflexivity| | | |];
            unfold preset_address, BytesPerPreset; lia. }
        split; [|split].
        -- rewrite H1, Hsame. reflexivity.
        -- rewrite !in_app_iff. tauto.
        -- rewrite !in_app_iff, He1, H3, Hsame. split.
           ++ intros [H|[H|H]]; [cbn in H; intuition discriminate| |exact H].
              exfalso. unfold preset_address, BytesPerPreset in H. lia.
           ++ tauto.
    + intros a Ha.
      assert (Ha' : a < preset_address (i + 1)
                    \/ preset_address (i + 1 + Z.of_nat n) <= a).
      { unfold preset_address, BytesPerPreset in *. lia. }
      destruct (IH3 a Ha') as [Hc Hw]. split.
      * rewrite Hc. apply Hother; unfold preset_address, BytesPerPreset in *; lia.
      * intros w. rewrite !in_app_iff, He1. intros [H|[H|H]].
        -- cbn in H. intuition discriminate.
        -- unfold preset_address, BytesPerPreset in *. lia.
        -- exact (Hw w H).
Qed.

(** C5. The power-on check reads every preset slot; it writes 0 over a slot
    exactly when the stored value exceeds [MaximumCurrent] and leaves the
    other slots as they were; it writes 0 over the power-on default exactly
    when the stored index is [CurrentPresets] or more. *)
Theorem C5_boot_check_normalises (s : State) :
  let r := setup_check_presets s in
  (forall i, 0 <= i < CurrentPresets ->
     In (EEPROM_read (preset_address i)) (events r)
     /\ stored_preset (EEPROM (final r)) i
        = (if stored_preset (EEPROM s) i >? MaximumCurrent then 0
           else stored_preset (EEPROM s) i)
     /\ (In (EEPROM_write (preset_address i) 0) (events r)
         <-> MaximumCurrent < stored_preset (EEPROM s) i))
  /\ cell (EEPROM (final r)) PresetRecallBase
     = (if cell (EEPROM s) PresetRecallBase >=? CurrentPresets then 0
        else cell (EEPROM s) PresetRecallBase)
  /\ (In (EEPROM_write PresetRecallBase 0) (events r)
      <-> CurrentPresets <= cell (EEPROM s) PresetRecallBase)
  /\ cell (EEPROM (final r)) BackEMFcountermeasuresRequiredBase
     = cell (EEPROM s) BackEMFcountermeasuresRequiredBase.
Proof.
  cbv zeta. unfold setup_check_presets, bind.
  generalize (check_presets_spec (Z.to_nat CurrentPresets) 0 s). cbv zeta.
  generalize (check_presets (Z.to_nat CurrentPresets) 0 s).
  intros r (H1 & H2 & H3).
  unfold EEPROM_read_byte, bind, emit, get. cbn [result final events].
  destruct (H3 PresetRecallBase) as [Hd Hdw].
  { right. unfold preset_address, PresetRecallBase, CurrentPresetBase,
      BytesPerPreset, CurrentPresets. lia. }
  destruct (H3 BackEMFcountermeasuresRequiredBase) as [Hf _].
  { right. unfold preset_address, BackEMFcountermeasuresRequiredBase,
      PresetRecallBase, CurrentPresetBase, BytesPerPreset, CurrentPresets. lia. }
  rewrite Hd.
  set (d := cell (EEPROM s) PresetRecallBase) in *.
  assert (Hslots : forall i, 0 <= i < CurrentPresets ->
            preset_address i <> PresetRecallBase
            /\ preset_address i + 1 <> PresetRecallBase).
  { intros i Hi. clear -Hi.
    unfold preset_address, PresetRecallBase, CurrentPresetBase,
      BytesPerPreset, CurrentPresets in *. lia. }
  split; [|split; [|split]].
  - intros i Hi. destruct (H2 i) as (Heq & Hread & Hw).
    { unfold CurrentPresets in *. lia. }
    destruct (Hslots i Hi) as [Hn1 Hn2].
    split; [|split].
    + rewrite !in_app_iff. tauto.
    + fold (normalised (stored_preset (EEPROM s) i)). rewrite <- Heq.
      destruct (d >=? CurrentPresets); [|reflexivity].
      unfold EEPROM_write_byte, bind, emit, modify.
      cbn [result final events EEPROM set_EEPROM].
      unfold stored_preset. rewrite !cell_insert_ne by congruence.
      reflexivity.
    + rewrite !in_app_iff, Hw. split; [|tauto].
      intros [H|[H|H]]; [exact H| |].
      * cbn in H. intuition discriminate.
      * destruct (d >=? CurrentPresets); cbn in H; [|tauto].
        destruct H as [H|[]]. injection H as H. congruence.
  - destruct (d >=? CurrentPresets).
    + unfold EEPROM_write_byte, bind, emit, modify. cbn [result final events EEPROM set_EEPROM].
      apply (cell_insert_eq _ _ 0).
    + exact Hd.
  - rewrite !in_app_iff. destruct (d >=? CurrentPresets) eqn:E; cbn; split.
    + intros _. lia.
    + tauto.
    + intros [H|H]; [destruct (Hdw _ H)|]. intuition discriminate.
    + lia.
  - destruct (d >=? CurrentPresets).
    + unfold EEPROM_write_byte, bind, emit, modify. cbn [result final events EEPROM set_EEPROM].
      rewrite cell_insert_ne; [exact Hf|].
      unfold BackEMFcountermeasuresRequiredBase. lia.
    + exact Hf.
Qed.

Lemma C5_boot_check_normalises_witness :
  let r := setup_check_presets corrupt_state in
  (stored_preset (EEPROM (final r)) 2 = 0
   /\ stored_preset (EEPROM (final r)) 3 = 2500)
  /\ cell (EEPROM (final r)) PresetRecallBase = 0.
Proof.
  cbv zeta. split; [split|].
  - destruct (C5_boot_check_normalises corrupt_state) as [H _].
    destruct (H 2) as (_ & H2 & _); [vm_compute; split; [discriminate|reflexivity]|].
    rewrite H2. vm_compute. reflexivity.
  - destruct (C5_boot_check_normalises corrupt_state) as [H _].
    destruct (H 3) as (_ & H3 & _); [vm_compute; split; [discriminate|reflexivity]|].
    rewrite H3. vm_compute. reflexivity.
  - destruct (C5_boot_check_normalises corrupt_state) as (_ & H & _).
    rewrite H. vm_compute. reflexivity.
Defined.

(** ** C2: the qualification of the mains waveform *)

Lemma set_ZeroCrossingDetected_same s :
  set_ZeroCrossingDetected (ZeroCrossingDetected s) s = s.
Proof. destruct s; reflexivity. Qed.

Lemma poll_zero_crossing_final (n : nat) : forall (i : nat) edge s,
  final (poll_zero_crossing n i edge s)
  = set_ZeroCrossingDetected
      (ZeroCrossingDetected s || existsb edge (seq i n)) s.
Proof.
  induction n as [|n IH]; intros i edge s.
  - cbn. rewrite orb_false_r. symmetry. apply set_ZeroCrossingDetected_same.
  - cbn [poll_zero_crossing seq existsb].
    destruct s as [m t cl rp b d z oc eo].
    unfold bind, get, emit, when. cbn [result final events ZeroCrossingDetected].
    destruct z; [reflexivity|].
    cbn [result final events]. rewrite IH. destruct (edge i); reflexivity.
Qed.

Lemma WaitForZeroCrossingOrTimeout_final edge s :
  final (WaitForZeroCrossingOrTimeout edge s)
  = set_ZeroCrossingDetected (ZeroCrossingDetected s || edge_seen edge) s.
Proof. apply poll_zero_crossing_final. Qed.


(** ** Running the monad, one step at a time *)

Section RunLaws.
Context {A B : Type}.
Variables (m : M A) (k : A -> M B) (s : State).

Lemma result_bind : result (bind m k s) = result (k (result (m s)) (final (m s))).
Proof. reflexivity. Qed.

Lemma final_bind : final (bind m k s) = final (k (result (m s)) (final (m s))).
Proof. reflexivity. Qed.

Lemma events_bind :
  events (bind m k s)
  = events (m s) ++ events (k (result (m s)) (final (m s))).
Proof. reflexivity. Qed.
End RunLaws.

Lemma result_ret {A} (a : A) s : result (ret a s) = a.
Proof. reflexivity. Qed.
Lemma final_ret {A} (a : A) s : final (ret a s) = s.
Proof. reflexivity. Qed.
Lemma events_ret {A} (a : A) s : events (ret a s) = [].
Proof. reflexivity. Qed.
Lemma final_emit e s : final (emit e s) = s.
Proof. reflexivity. Qed.
Lemma events_emit e s : events (emit e s) = [e].
Proof. reflexivity. Qed.
Lemma result_get {A} (f : State -> A) s : result (get f s) = f s.
Proof. reflexivity. Qed.
Lemma final_get {A} (f : State -> A) s : final (get f s) = s.
Proof. reflexivity. Qed.
Lemma events_get {A} (f : State -> A) s : events (get f s) = [].
Proof. reflexivity. Qed.
Lemma final_modify f s : final (modify f s) = f s.
Proof. reflexivity. Qed.
Lemma events_modify f s : events (modify f s) = [].
Proof. reflexivity. Qed.

Ltac run_step :=
  rewrite ?result_bind, ?final_bind, ?events_bind, ?result_ret, ?final_ret,
    ?events_ret, ?final_emit, ?events_emit, ?result_get, ?final_get,
    ?events_get, ?final_modify, ?events_modify;
  cbv beta.

Ltac run := repeat (progress run_step).
Lemma setup_qualify_result mains s :
  let first := ZeroCrossingDetected s || edge_seen (any_edge mains) in
  let rising := edge_seen (rising_edge mains) in
  let falling := edge_seen (falling_edge mains) in
  result (setup_qualify mains s)
  = (if first then
       if rising then
         if falling then
           if measured_half_period mains <? SinewaveThreshold
           then ErrorSinewaveOnly else ErrorNone
         else ErrorNoAltCycles
       else ErrorNoAltCycles
     else ErrorNoZeroCross)
  /\ (first = true -> rising = true ->
      ZeroCrossingTime (final (setup_qualify mains s))
      = measured_half_period mains)
  /\ DummyZeroCrossingIRQenable (final (setup_qualify mains s))
     = DummyZeroCrossingIRQenable s.
Proof.
  cbv zeta. unfold setup_qualify. run.
  rewrite !WaitForZeroCrossingOrTimeout_final.
  cbn [ZeroCrossingDetected set_ZeroCrossingDetected].
  destruct (ZeroCrossingDetected s || edge_seen (any_edge mains)).
  2:{ run. split; [reflexivity | split; [discriminate | reflexivity]]. }
  run. rewrite !WaitForZeroCrossingOrTimeout_final.
  cbn [ZeroCrossingDetected set_ZeroCrossingDetected orb negb].
  destruct (edge_seen (rising_edge mains)); cbn [negb]; run.
  2:{ cbn. split; [reflexivity | split; [discriminate | reflexivity]]. }
  rewrite !WaitForZeroCrossingOrTimeout_final.
  cbn [ZeroCrossingDetected set_ZeroCrossingDetected ZeroCrossingTime
       set_ZeroCrossingTime DummyZeroCrossingIRQenable orb negb andb].
  fold (measured_half_period mains).
  destruct (edge_seen (falling_edge mains)); cbn [negb andb];
    [destruct (measured_half_period mains <? SinewaveThreshold)|];
    run; repeat split.
Qed.


Lemma final_DisableInterrupts s : final (DisableInterrupts s) = s.
Proof. reflexivity. Qed.
Lemma final_EnableInterrupts s : final (EnableInterrupts s) = s.
Proof. reflexivity. Qed.
Lemma result_RecallPreset preset s :
  result (RecallPreset preset s) = stored_preset (EEPROM s) preset.
Proof. reflexivity. Qed.
Lemma final_RecallPreset preset s : final (RecallPreset preset s) = s.
Proof. reflexivity. Qed.
Lemma final_StorePreset value preset s :
  final (StorePreset value preset s)
  = set_EEPROM (write_preset (EEPROM s) value preset) s.
Proof. reflexivity. Qed.
Lemma result_EEPROM_read_byte address s :
  result (EEPROM_read_byte address s) = cell (EEPROM s) address.
Proof. reflexivity. Qed.
Lemma final_EEPROM_read_byte address s : final (EEPROM_read_byte address s) = s.
Proof. reflexivity. Qed.
Lemma final_EEPROM_write_byte address value s :
  final (EEPROM_write_byte address value s)
  = set_EEPROM (<[address := to_byte value]> (EEPROM s)) s.
Proof. reflexivity. Qed.
Lemma events_EEPROM_write_byte address value s :
  events (EEPROM_write_byte address value s)
  = [EEPROM_write address (to_byte value)].
Proof. reflexivity. Qed.
Lemma final_store_EnableOutput level s :
  final (store_EnableOutput level s) = set_EnableOutput level s.
Proof. reflexivity. Qed.
Lemma events_store_EnableOutput level s :
  events (store_EnableOutput level s) = [EnableOutput_store level].
Proof. reflexivity. Qed.
Lemma final_WriteCurrentLimit_settled s :
  final (WriteCurrentLimit false false s) = s.
Proof. reflexivity. Qed.

Lemma final_TimePushbuttonHeld p s : final (TimePushbuttonHeld p s) = s.
Proof. destruct p; reflexivity. Qed.

Lemma Run_eq {A} (r : Run A) (a : A) (s : State) (t : list Event) :
  result r = a -> final r = s -> events r = t -> r = mkRun a s t.
Proof. destruct r; cbn; intros; subst; reflexivity. Qed.

Ltac run_calls :=
  rewrite ?final_DisableInterrupts, ?final_EnableInterrupts,
    ?result_RecallPreset, ?final_RecallPreset, ?final_StorePreset,
    ?result_EEPROM_read_byte, ?final_EEPROM_read_byte,
    ?final_EEPROM_write_byte, ?events_EEPROM_write_byte,
    ?final_store_EnableOutput, ?events_store_EnableOutput,
    ?final_WriteCurrentLimit_settled, ?final_TimePushbuttonHeld.

Ltac run_all := repeat (progress (run_step; run_calls)).




(** ** C4: the digit editor *)

Lemma count_places_spec (fuel : nat) : forall temp factor digit,
  0 < factor -> 0 <= temp < 65536 -> (Z.to_nat temp <= fuel)%nat ->
  0 <= digit -> digit + temp / factor < 256 ->
  count_places fuel temp factor digit = (temp mod factor, digit + temp / factor).
Proof.
  induction fuel as [|fuel IH]; intros temp factor digit Hf Ht Hfuel Hd Hq.
  - assert (temp = 0) as -> by lia. cbn.
    rewrite Z.mod_0_l, Z.div_0_l by lia. f_equal. lia.
  - cbn [count_places]. destruct (temp >=? factor) eqn:E.
    + assert (Hge : factor <= temp) by lia.
      assert (Hdiv : temp / factor = (temp - factor) / factor + 1).
      { replace temp with ((temp - factor) + 1 * factor) at 1 by lia.
        apply Z.div_add. lia. }
      assert (Hmod : temp mod factor = (temp - factor) mod factor).
      { replace temp with ((temp - factor) + 1 * factor) at 1 by lia.
        apply Z.mod_add. lia. }
      assert (0 <= (temp - factor) / factor) by (apply Z.div_pos; lia).
      rewrite (to_word_small (temp - factor)) by lia.
      rewrite (to_byte_small (digit + 1)) by lia.
      rewrite IH by lia. rewrite Hmod, Hdiv. f_equal. lia.
    + assert (Hlt : temp < factor) by lia.
      rewrite Z.mod_small, Z.div_small by lia. f_equal. lia.
Qed.

Ltac lia_div := Z.to_euclidean_division_equations; lia.

(** The decimal places of a limit within range, most significant first. *)
Lemma to_places_in_range limit :
  0 <= limit <= MaximumCurrent ->
  to_places CurrentDigitCount limit LargestDigitIncrement
  = [limit / 10000; limit / 1000 mod 10; limit / 100 mod 10;
     limit / 10 mod 10; limit mod 10].
Proof.
  unfold MaximumCurrent, CurrentDigitCount, LargestDigitIncrement. intros H.
  cbn [to_places].
  rewrite (count_places_spec _ limit 10000) by lia_div. cbn [Z.add].
  change (to_word (10000 / 10)) with 1000.
  rewrite (count_places_spec _ (limit mod 10000) 1000) by lia_div. cbn [Z.add].
  change (to_word (1000 / 10)) with 100.
  rewrite (count_places_spec _ (limit mod 10000 mod 1000) 100) by lia_div.
  cbn [Z.add]. change (to_word (100 / 10)) with 10.
  rewrite (count_places_spec _ (limit mod 10000 mod 1000 mod 100) 10) by lia_div.
  cbn [Z.add]. change (to_word (10 / 10)) with 1.
  rewrite (count_places_spec _ (limit mod 10000 mod 1000 mod 100 mod 10) 1)
    by lia_div.
  cbn [Z.add]. repeat f_equal; lia_div.
Qed.

Lemma from_places_small a b c d e :
  0 <= a <= 5 -> 0 <= b <= 9 -> 0 <= c <= 9 -> 0 <= d <= 9 -> 0 <= e <= 9 ->
  from_places [a; b; c; d; e] LargestDigitIncrement 0
  = 10000 * a + 1000 * b + 100 * c + 10 * d + e.
Proof.
  intros Ha Hb Hc Hd He. cbn [from_places].
  change (to_word (LargestDigitIncrement / 10)) with 1000.
  change (to_word (1000 / 10)) with 100.
  change (to_word (100 / 10)) with 10.
  change (to_word (10 / 10)) with 1.
  unfold LargestDigitIncrement.
  rewrite (to_word_small (a * 10000)) by lia.
  rewrite (to_word_small (b * 1000)) by lia.
  rewrite (to_word_small (c * 100)) by lia.
  rewrite (to_word_small (d * 10)) by lia.
  rewrite (to_word_small (e * 1)) by lia.
  rewrite (to_word_small (0 + a * 10000)) by lia.
  rewrite (to_word_small (0 + a * 10000 + b * 1000)) by lia.
  rewrite (to_word_small (0 + a * 10000 + b * 1000 + c * 100)) by lia.
  rewrite (to_word_small (0 + a * 10000 + b * 1000 + c * 100 + d * 10)) by lia.
  rewrite to_word_small by lia. lia.
Qed.

Lemma places_eq (a b c d e a' b' c' d' e' v v' : Z) :
  a = a' -> b = b' -> c = c' -> d = d' -> e = e' -> v = v' ->
  Some ([a; b; c; d; e], v) = Some ([a'; b'; c'; d'; e'], v').
Proof. intros. subst. reflexivity. Qed.

Ltac split_ifs :=
  repeat match goal with
         | |- context [if ?a >? ?b then _ else _] => destruct (Z.gtb_spec a b)
         | |- context [if ?a =? ?b then _ else _] => destruct (Z.eqb_spec a b)
         end.

Lemma increment_step_spec (limit : Z) (SelectedDigit : nat) :
  0 <= limit <= MaximumCurrent -> (SelectedDigit < CurrentDigitCount)%nat ->
  let DigitTemp := to_places CurrentDigitCount limit LargestDigitIncrement in
  let digit := digit_at DigitTemp SelectedDigit in
  let digit' := digit_after limit SelectedDigit digit in
  increment_step limit SelectedDigit
  = Some (<[SelectedDigit := digit']> DigitTemp,
          limit + (digit' - digit) * place_value SelectedDigit).
Proof.
  intros Hl Hs. cbv zeta. unfold increment_step.
  rewrite to_places_in_range by exact Hl.
  unfold MaximumCurrent, CurrentDigitCount in Hl, Hs.
  assert (Hd : 0 <= limit / 10000 <= 1 /\ 0 <= limit / 1000 mod 10 <= 9
               /\ 0 <= limit / 100 mod 10 <= 9 /\ 0 <= limit / 10 mod 10 <= 9
               /\ 0 <= limit mod 10 <= 9
               /\ limit = 10000 * (limit / 10000) + 1000 * (limit / 1000 mod 10)
                          + 100 * (limit / 100 mod 10)
                          + 10 * (limit / 10 mod 10) + limit mod 10)
    by lia_div.
  revert Hd.
  generalize (limit / 10000), (limit / 1000 mod 10), (limit / 100 mod 10),
    (limit / 10 mod 10), (limit mod 10).
  intros d0 d1 d2 d3 d4 (H0 & H1 & H2 & H3 & H4 & Hsum).
  destruct SelectedDigit as [|[|[|[|[|?]]]]]; try lia.
  all: unfold recompose_rounds, increment_digit, digit_at, digit_after, place_value.
  all: cbn [lookup list_lookup default insert list_insert from_option id].
  all: rewrite to_byte_small by lia.
  all: match goal with
       | |- context [if ?a + 1 >? 9 then _ else _] =>
           destruct (Z.gtb_spec (a + 1) 9)
       end.
  all: cbn [recompose insert list_insert].
  all: rewrite !from_places_small by lia.
  all: unfold MaximumCurrent.
  all: split_ifs.
  all: first [ exfalso; lia | apply places_eq; lia ].
Qed.

Lemma recomposed_after_increment (limit : Z) (SelectedDigit : nat) :
  0 <= limit <= MaximumCurrent -> (SelectedDigit < CurrentDigitCount)%nat ->
  let DigitTemp := to_places CurrentDigitCount limit LargestDigitIncrement in
  let digit := digit_at DigitTemp SelectedDigit in
  0 <= digit <= 9
  /\ digit * place_value SelectedDigit <= limit
  /\ from_places DigitTemp LargestDigitIncrement 0 = limit
  /\ from_places (increment_digit DigitTemp SelectedDigit) LargestDigitIncrement 0
     = (if digit =? 9 then limit - 9 * place_value SelectedDigit
        else limit + place_value SelectedDigit).
Proof.
  intros Hl Hs. cbv zeta.
  rewrite to_places_in_range by exact Hl.
  unfold MaximumCurrent, CurrentDigitCount in Hl, Hs.
  assert (Hd : 0 <= limit / 10000 <= 1 /\ 0 <= limit / 1000 mod 10 <= 9
               /\ 0 <= limit / 100 mod 10 <= 9 /\ 0 <= limit / 10 mod 10 <= 9
               /\ 0 <= limit mod 10 <= 9
               /\ limit = 10000 * (limit / 10000) + 1000 * (limit / 1000 mod 10)
                          + 100 * (limit / 100 mod 10)
                          + 10 * (limit / 10 mod 10) + limit mod 10)
    by lia_div.
  revert Hd.
  generalize (limit / 10000), (limit / 1000 mod 10), (limit / 100 mod 10),
    (limit / 10 mod 10), (limit mod 10).
  intros d0 d1 d2 d3 d4 (H0 & H1 & H2 & H3 & H4 & Hsum).
  destruct SelectedDigit as [|[|[|[|[|?]]]]]; try lia.
  all: unfold increment_digit, digit_at, place_value.
  all: cbn [lookup list_lookup default insert list_insert from_option id].
  all: rewrite to_byte_small by lia.
  all: match goal with
       | |- context [if ?a + 1 >? 9 then _ else _] =>
           destruct (Z.gtb_spec (a + 1) 9)
       end.
  all: rewrite !from_places_small by lia.
  all: split_ifs.
  all: lia.
Qed.

Lemma program_preset_in_range (presses : list Press) :
  forall (SelectedDigit : nat) (DigitIncrement : Z) (s : State),
    (SelectedDigit < CurrentDigitCount)%nat ->
    0 <= CurrentLimit s <= MaximumCurrent ->
    0 <= CurrentLimit (final (program_preset SelectedDigit DigitIncrement presses s))
      <= MaximumCurrent.
Proof.
  induction presses as [|p rest IH]; intros sel inc s Hsel Hs.
  - cbn [program_preset]. run_all. exact Hs.
  - cbn [program_preset]. run_all.
    destruct (result (TimePushbuttonHeld p s) <=? 2).
    + rewrite increment_step_spec by assumption. run_all.
      apply IH; [exact Hsel|]. cbn [CurrentLimit set_CurrentLimit].
      pose proof (recomposed_after_increment (CurrentLimit s) sel Hs Hsel)
        as (Hd & Hle & _).
      revert Hd Hle. cbv zeta.
      generalize (digit_at (to_places CurrentDigitCount (CurrentLimit s)
                              LargestDigitIncrement) sel).
      intros d Hd Hle. unfold digit_after, MaximumCurrent in *.
      assert (0 < place_value sel)
        by (destruct sel as [|[|[|[|?]]]]; cbn; lia).
      split_ifs; nia.
    + destruct ((result (TimePushbuttonHeld p s) >? 2)
                && (result (TimePushbuttonHeld p s) <=? 5)).
      * destruct (CurrentDigitCount <=? S sel)%nat eqn:E.
        -- apply IH; [unfold CurrentDigitCount; lia | exact Hs].
        -- apply IH; [|exact Hs]. apply Nat.leb_gt in E. lia.
      * run_all. exact Hs.
Qed.

(** C4. In the digit editor an increment step always leaves a current limit
    within [0, MaximumCurrent]: only the selected digit changes (no carry), a
    9 rolls over to 0, and when the recomposed number exceeds the maximum the
    selected digit is left at 0 (neither its previous value nor a clamp to
    the maximum).  A hold of at most 2 seconds in the editor makes this
    step: it stores the recomposed limit in [CurrentLimit] and the editor
    goes on from there, on the same digit; so the limit stays in range
    through any sequence of presses made in the editor. *)
Theorem C4_digit_editor (limit : Z) (SelectedDigit : nat) :
  0 <= limit <= MaximumCurrent -> (SelectedDigit < CurrentDigitCount)%nat ->
  let DigitTemp := to_places CurrentDigitCount limit LargestDigitIncrement in
  let digit := digit_at DigitTemp SelectedDigit in
  let recomposed :=
    from_places (increment_digit DigitTemp SelectedDigit)
      LargestDigitIncrement 0 in
  exists DigitTemp' limit',
    increment_step limit SelectedDigit = Some (DigitTemp', limit')
    /\ 0 <= limit' <= MaximumCurrent
    /\ (forall other : nat, other <> SelectedDigit ->
          DigitTemp' !! other = DigitTemp !! other)
    /\ limit' = limit + (digit_at DigitTemp' SelectedDigit - digit)
                        * place_value SelectedDigit
    /\ (digit = 9 -> digit_at DigitTemp' SelectedDigit = 0)
    /\ (MaximumCurrent < recomposed -> digit_at DigitTemp' SelectedDigit = 0)
    /\ (digit <> 9 -> recomposed <= MaximumCurrent ->
        digit_at DigitTemp' SelectedDigit = digit + 1)
    /\ (forall (p : Press) (rest : list Press) (DigitIncrement : Z)
               (s : State),
          CurrentLimit s = limit -> result (TimePushbuttonHeld p s) <= 2 ->
          let r :=
            program_preset SelectedDigit DigitIncrement (p :: rest) s in
          let next :=
            program_preset SelectedDigit DigitIncrement rest
              (set_CurrentLimit limit' s) in
          result r = result next
          /\ final r = final next
          /\ events r
             = await_level Pushbutton LOW
               :: events (TimePushbuttonHeld p s) ++ events next)
    /\ (forall (p : Press) (DigitIncrement : Z) (s : State),
          CurrentLimit s = limit -> result (TimePushbuttonHeld p s) <= 2 ->
          final (program_preset SelectedDigit DigitIncrement [p] s)
          = set_CurrentLimit limit' s)
    /\ forall (presses : list Press) (DigitIncrement : Z) (s : State),
         CurrentLimit s = limit ->
         0 <= CurrentLimit
                (final (program_preset SelectedDigit DigitIncrement presses s))
           <= MaximumCurrent.
Proof.
  intros Hl Hs. cbv zeta.
  pose proof (increment_step_spec limit SelectedDigit Hl Hs) as Hstep.
  assert (Hshort : forall DigitTemp' limit',
            increment_step limit SelectedDigit = Some (DigitTemp', limit') ->
            forall (p : Press) (rest : list Press) (DigitIncrement : Z)
                   (s : State),
              CurrentLimit s = limit ->
              result (TimePushbuttonHeld p s) <= 2 ->
              program_preset SelectedDigit DigitIncrement (p :: rest) s
              = mkRun
                  (result (program_preset SelectedDigit DigitIncrement rest
                             (set_CurrentLimit limit' s)))
                  (final (program_preset SelectedDigit DigitIncrement rest
                            (set_CurrentLimit limit' s)))
                  (await_level Pushbutton LOW
                   :: events (TimePushbuttonHeld p s)
                      ++ events (program_preset SelectedDigit DigitIncrement
                                   rest (set_CurrentLimit limit' s)))).
  { intros D l Hinc p rest inc s Hcl Hp. cbn [program_preset].
    apply Run_eq; run_all; rewrite Hcl, Hinc;
      replace (result (TimePushbuttonHeld p s) <=? 2) with true by lia;
      run_all; reflexivity. }
  pose proof (recomposed_after_increment limit SelectedDigit Hl Hs)
    as (Hd & Hle & _ & Hre).
  cbv zeta in Hstep, Hd, Hle, Hre.
  assert (Hlen : (SelectedDigit
                  < length (to_places CurrentDigitCount limit
                              LargestDigitIncrement))%nat).
  { rewrite to_places_in_range by exact Hl. exact Hs. }
  specialize (Hshort _ _ Hstep).
  revert Hstep Hshort Hd Hle Hre Hlen.
  generalize (to_places CurrentDigitCount limit LargestDigitIncrement).
  intros DigitTemp Hstep Hshort Hd Hle Hre Hlen.
  set (digit := digit_at DigitTemp SelectedDigit) in *.
  set (digit' := digit_after limit SelectedDigit digit) in *.
  assert (Hat : digit_at (<[SelectedDigit := digit']> DigitTemp) SelectedDigit
                = digit').
  { unfold digit_at. rewrite list_lookup_insert_eq by exact Hlen. reflexivity. }
  assert (Hpv : 0 < place_value SelectedDigit)
    by (destruct SelectedDigit as [|[|[|[|?]]]]; cbn; lia).
  exists (<[SelectedDigit := digit']> DigitTemp),
    (limit + (digit' - digit) * place_value SelectedDigit).
  rewrite Hat, Hre. subst digit'. unfold digit_after, MaximumCurrent in *.
  split; [exact Hstep|].
  split; [split; split_ifs; nia|].
  split; [intros other Hne; apply list_lookup_insert_ne; congruence|].
  split; [reflexivity|].
  split; [intros ->; reflexivity|].
  split; [split_ifs; intros; lia|].
  split; [split_ifs; intros; lia|].
  split.
  { intros p rest inc s Hcl Hp. cbv zeta.
    rewrite (Hshort p rest inc s) by assumption. repeat split. }
  split.
  { intros p inc s Hcl Hp.
    rewrite (Hshort p [] inc s) by assumption. reflexivity. }
  intros presses inc s Hcl. subst limit.
  apply program_preset_in_range; assumption.
Qed.

Lemma C4_digit_editor_witness :
  exists DigitTemp' limit',
    increment_step editor_limit 0 = Some (DigitTemp', limit')
    /\ 0 <= limit' <= MaximumCurrent
    /\ final (program_preset 0 LargestDigitIncrement [HeldFor 5]
                (set_CurrentLimit editor_limit running_state))
       = set_CurrentLimit limit' running_state.
Proof.
  destruct (C4_digit_editor editor_limit 0)
    as (D & l & H1 & H2 & _ & _ & _ & _ & _ & _ & H9 & _).
  - vm_compute. split; discriminate.
  - vm_compute. lia.
  - exists D, l. split; [exact H1|]. split; [exact H2|].
    rewrite (H9 (HeldFor 5) LargestDigitIncrement
               (set_CurrentLimit editor_limit running_state));
      [reflexivity | reflexivity | vm_compute; discriminate].
Defined.

(** ** C3: the press with back-EMF countermeasures enabled *)




Lemma final_loop_pushbutton_exit zero_crossing s :
  let r := loop_pushbutton_exit zero_crossing s in
  EnableOutput (final r)
  = (if BackEMFcountermeasuresRequired s && negb (DummyZeroCrossingIRQenable s)
     then HIGH else EnableOutput s)
  /\ EEPROM (final r) = EEPROM s
  /\ CurrentLimit (final r) = CurrentLimit s
  /\ RecalledPreset (final r) = RecalledPreset s
  /\ OvercurrentSensed (final r) = false
  /\ ZeroCrossingDetected (final r) = zero_crossing
  /\ result r = (if zero_crossing then Finished else StillBusy)
  /\ existsb is_output_off_request (events r) = false
  /\ (zero_crossing = true ->
      last (events r) = Some (digitalWrite OutputEnable (EnableOutput (final r)))).
Proof.
  destruct s as [m t cl rp b d z oc eo].
  destruct zero_crossing, b, d; cbn; repeat split; discriminate.
Qed.









(** ** C8: the overcurrent sweep *)





Lemma duty_writes_app a b : duty_writes (a ++ b) = duty_writes a ++ duty_writes b.
Proof. apply omap_app. Qed.












(** * Further properties of the sketch *)

(** ** The preset store *)

Lemma last_output_write_app a b :
  last_output_write (a ++ b)
  = match last_output_write b with
    | Some level => Some level
    | None => last_output_write a
    end.
Proof.
  unfold last_output_write. rewrite omap_app.
  set (f := fun e => match e with
                     | digitalWrite OutputEnable level => Some level
                     | _ => None
                     end).
  destruct (omap f b) as [|x l] eqn:E using rev_ind.
  - rewrite app_nil_r. reflexivity.
  - rewrite app_assoc, !last_snoc. reflexivity.
Qed.

(** X1. A value saved in a preset slot is the value loaded from it, the other
    slots and the two cells behind them (power-on default, countermeasure
    flag) are left as they were, the working values are not touched, and the
    access leaves the output pin driven low. *)
Theorem X1_store_recall_round_trip (s : State) (value preset other : Z) :
  0 <= value < 65536 -> 0 <= preset < CurrentPresets ->
  let stored := StorePreset value preset s in
  result (RecallPreset preset (final stored)) = value
  /\ (other <> preset ->
      result (RecallPreset other (final stored)) = result (RecallPreset other s))
  /\ cell (EEPROM (final stored)) PresetRecallBase
     = cell (EEPROM s) PresetRecallBase
  /\ cell (EEPROM (final stored)) BackEMFcountermeasuresRequiredBase
     = cell (EEPROM s) BackEMFcountermeasuresRequiredBase
  /\ CurrentLimit (final stored) = CurrentLimit s
  /\ RecalledPreset (final stored) = RecalledPreset s
  /\ last_output_write (events stored) = Some LOW
  /\ last_output_write (events (RecallPreset preset (final stored))) = Some LOW.
Proof.
  intros Hv Hp. cbv zeta. rewrite StorePreset_run, !RecallPreset_run.
  cbn [result final events EEPROM set_EEPROM CurrentLimit RecalledPreset].
  split; [|split; [|split; [|split]]].
  - rewrite stored_preset_write_eq. apply to_word_small. exact Hv.
  - intros Hne. apply stored_preset_write_ne. exact Hne.
  - apply cell_write_preset_outside;
      unfold preset_address, PresetRecallBase, CurrentPresetBase,
        BytesPerPreset, CurrentPresets in *; lia.
  - apply cell_write_preset_outside;
      unfold preset_address, BackEMFcountermeasuresRequiredBase,
        PresetRecallBase, CurrentPresetBase, BytesPerPreset,
        CurrentPresets in *; lia.
  - repeat split.
Qed.

Lemma X1_store_recall_round_trip_witness :
  result (RecallPreset 7 (final (StorePreset 4200 7 factory_state))) = 4200.
Proof.
  apply (X1_store_recall_round_trip factory_state 4200 7 0).
  - lia.
  - vm_compute. split; [discriminate | reflexivity].
Defined.

(** ** The pushbutton *)

Lemma held_loop_spec (fuel : nat) : forall (i : Z) (polls : nat) (value : Z),
  0 <= i -> i + Z.of_nat fuel <= 256 ->
  held_loop fuel i polls value
  = (if (Nat.min fuel polls =? 0)%nat then value
     else (i + Z.of_nat (Nat.min fuel polls) - 1) / 10).
Proof.
  induction fuel as [|fuel IH]; intros i polls value Hi Hf.
  - reflexivity.
  - destruct polls as [|polls]; [reflexivity|].
    cbn [held_loop Nat.min Nat.eqb]. rewrite IH by lia.
    rewrite to_byte_small by lia.
    destruct (Nat.min fuel polls) as [|m] eqn:E; cbn [Nat.eqb].
    + f_equal. lia.
    + f_equal. lia.
Qed.

Lemma result_TimePushbuttonHeld p s :
  result (TimePushbuttonHeld p s) = seconds_held p.
Proof. destruct p; reflexivity. Qed.

(** X2. [TimePushbuttonHeld] returns the number of whole seconds the button
    was found down, counted in 100 ms polls and capped at 10: 0 when the
    button is up at the first read, [(polls - 1) / 10] for a hold of at most
    101 polls, 10 for any longer hold.  It changes none of the globals. *)
Theorem X2_seconds_held_buckets (polls : nat) (s : State) :
  let r := TimePushbuttonHeld (HeldFor polls) s in
  result r = (if (polls =? 0)%nat then 0
              else (Z.of_nat (Nat.min polls 101) - 1) / 10)
  /\ 0 <= result r <= 10
  /\ final r = s
  /\ result (TimePushbuttonHeld NotPressed s) = 0
  /\ forall polls' : nat,
       (polls <= polls')%nat ->
       result r <= result (TimePushbuttonHeld (HeldFor polls') s).
Proof.
  cbv zeta. rewrite !result_TimePushbuttonHeld, final_TimePushbuttonHeld.
  unfold seconds_held.
  assert (H : forall n : nat,
             held_loop 101 0 n 0
             = (if (n =? 0)%nat then 0
                else (Z.of_nat (Nat.min n 101) - 1) / 10)).
  { intros n. rewrite held_loop_spec by lia.
    rewrite (Nat.min_comm 101 n).
    destruct n as [|n]; [reflexivity|].
    replace (Nat.min (S n) 101 =? 0)%nat with false
      by (symmetry; apply Nat.eqb_neq; lia).
    cbn [Nat.eqb]. f_equal. }
  rewrite H. split; [reflexivity|]. split; [|split; [reflexivity|split]].
  - destruct polls as [|polls]; cbn [Nat.eqb]; [lia|]. lia_div.
  - reflexivity.
  - intros polls' Hle. rewrite result_TimePushbuttonHeld.
    unfold seconds_held. rewrite H.
    destruct polls as [|polls]; destruct polls' as [|polls'];
      cbn [Nat.eqb]; try lia; lia_div.
Qed.

Lemma poll_pushbutton_spec (fuel : nat) : forall (i : nat) pressed s,
  result (poll_pushbutton fuel i pressed s) = negb (existsb pressed (seq i fuel))
  /\ final (poll_pushbutton fuel i pressed s) = s.
Proof.
  induction fuel as [|fuel IH]; intros i pressed s.
  - split; reflexivity.
  - cbn [poll_pushbutton seq existsb]. destruct (pressed i); run_all.
    + split; reflexivity.
    + destruct (IH (S i) pressed s) as [H1 H2]. rewrite H1, H2.
      split; reflexivity.
Qed.

(** X3. [PushbuttonTimeout (value)] polls the button [10 * value + 1] times,
    100 ms apart: it reports a timeout exactly when none of these polls finds
    the button down, and it changes none of the globals. *)
Theorem X3_PushbuttonTimeout_window (value : Z) (pressed : nat -> bool)
    (s : State) :
  0 <= value <= 25 ->
  let r := PushbuttonTimeout value pressed s in
  (result r = true <->
   forall i : nat, (Z.of_nat i <= 10 * value) -> pressed i = false)
  /\ final r = s.
Proof.
  intros Hv. cbv zeta. unfold PushbuttonTimeout.
  rewrite to_byte_small by lia.
  destruct (poll_pushbutton_spec (Z.to_nat (value * 10 + 1)) 0 pressed s)
    as [H1 H2].
  rewrite H1, H2. split; [|reflexivity].
  rewrite negb_true_iff. split.
  - intros H i Hi. destruct (pressed i) eqn:E; [|reflexivity].
    assert (Hex : existsb pressed (seq 0 (Z.to_nat (value * 10 + 1))) = true).
    { apply existsb_exists. exists i. split; [|exact E].
      apply in_seq. lia. }
    congruence.
  - intros H. apply not_true_is_false. intros E.
    apply existsb_exists in E as (i & Hin & Hp). apply in_seq in Hin.
    rewrite H in Hp by lia. discriminate.
Qed.

Lemma X3_PushbuttonTimeout_window_witness :
  result (PushbuttonTimeout 3 (fun i => Nat.eqb i 31) factory_state) = true.
Proof.
  apply (X3_PushbuttonTimeout_window 3 (fun i => Nat.eqb i 31) factory_state).
  - lia.
  - intros i Hi. apply Nat.eqb_neq. lia.
Defined.

(** ** Waiting for a zero crossing *)

Lemma poll_zero_crossing_events (n : nat) : forall (i : nat) edge s,
  (length (List.filter is_delay (events (poll_zero_crossing n i edge s))) <= n)%nat
  /\ (ZeroCrossingDetected s = true -> events (poll_zero_crossing n i edge s) = [])
  /\ existsb is_output_on_request (events (poll_zero_crossing n i edge s)) = false
  /\ existsb is_EEPROM_write (events (poll_zero_crossing n i edge s)) = false
  /\ (EnableOutput s = LOW ->
      forall level, In (digitalWrite OutputEnable level)
                      (events (poll_zero_crossing n i edge s)) -> level = LOW).
Proof.
  induction n as [|n IH]; intros i edge s.
  - cbn. repeat split; lia.
  - cbn [poll_zero_crossing]. run_all.
    destruct (ZeroCrossingDetected s) eqn:Hz; run_all.
    + cbn. repeat split; try lia; discriminate.
    + set (s1 := final (when (edge i) ZeroCrossingIRQ s)).
      destruct (IH (S i) edge s1) as (H1 & H2 & H3 & H4 & H5).
      assert (Hirq : existsb is_output_on_request
                       (events (when (edge i) ZeroCrossingIRQ s)) = false
                     /\ existsb is_EEPROM_write
                          (events (when (edge i) ZeroCrossingIRQ s)) = false
                     /\ List.filter is_delay
                          (events (when (edge i) ZeroCrossingIRQ s)) = []
                     /\ EnableOutput s1 = EnableOutput s
                     /\ forall level,
                          In (digitalWrite OutputEnable level)
                            (events (when (edge i) ZeroCrossingIRQ s)) ->
                          level = EnableOutput s).
      { subst s1. destruct (edge i); cbn; repeat split; try tauto.
        intros level [H|[]]. congruence. }
      destruct Hirq as (I1 & I2 & I3 & I4 & I5).
      rewrite !List.filter_app, !length_app, !existsb_app, I1, I2, I3, H3, H4.
      cbn [List.filter is_delay length app existsb is_output_on_request
           is_EEPROM_write orb Nat.add].
      split; [lia|]. split; [discriminate|]. split; [reflexivity|].
      split; [reflexivity|].
      intros Hlow level Hin. cbn [In] in Hin. rewrite in_app_iff in Hin.
      destruct Hin as [H|[H|H]]; [discriminate| |].
      * rewrite (I5 _ H). exact Hlow.
      * apply H5; [rewrite I4; exact Hlow | exact H].
Qed.

(** X4. [WaitForZeroCrossingOrTimeout] cannot hang: it executes at most
    [MaxZeroCrossingTime] polling delays.  It returns at once when the flag
    is already set, it leaves the flag set exactly when it was set before or
    an edge arrived in time, it never clears it, and it touches no other
    global. *)
Theorem X4_wait_is_bounded (edge : nat -> bool) (s : State) :
  let r := WaitForZeroCrossingOrTimeout edge s in
  (Z.of_nat (length (List.filter is_delay (events r))) <= MaxZeroCrossingTime)
  /\ (ZeroCrossingDetected s = true -> events r = [] /\ final r = s)
  /\ final r
     = set_ZeroCrossingDetected (ZeroCrossingDetected s || edge_seen edge) s
  /\ existsb is_EEPROM_write (events r) = false.
Proof.
  cbv zeta. unfold WaitForZeroCrossingOrTimeout.
  destruct (poll_zero_crossing_events (Z.to_nat MaxZeroCrossingTime) 0 edge s)
    as (H1 & H2 & _ & H4 & _).
  rewrite poll_zero_crossing_final.
  split; [|split; [|split; [reflexivity | exact H4]]].
  - assert (0 <= MaxZeroCrossingTime) by (vm_compute; discriminate). lia.
  - intros Hz. split; [exact (H2 Hz)|]. rewrite Hz. cbn [orb].
    rewrite <- Hz. apply set_ZeroCrossingDetected_same.
Qed.

(** ** The preset selection of the menu *)

Lemma passive_TimePushbuttonHeld p s :
  forallb is_passive (events (TimePushbuttonHeld p s)) = true.
Proof. destruct p; reflexivity. Qed.

Lemma events_TimePushbuttonHeld_any p s s' :
  events (TimePushbuttonHeld p s') = events (TimePushbuttonHeld p s).
Proof. destruct p; reflexivity. Qed.

Lemma next_preset_range r : 0 <= next_preset r < CurrentPresets.
Proof.
  unfold next_preset. pose proof (to_byte_range (r + 1)).
  destruct (Z.geb_spec (to_byte (r + 1)) CurrentPresets);
    unfold CurrentPresets in *; lia.
Qed.

Lemma next_preset_cycle r :
  0 <= r < CurrentPresets -> next_preset r = (r + 1) mod CurrentPresets.
Proof.
  intros H. unfold next_preset, CurrentPresets in *.
  rewrite to_byte_small by lia.
  destruct (Z.geb_spec (r + 1) 10).
  - assert (r = 9) as -> by lia. reflexivity.
  - symmetry. apply Z.mod_small. lia.
Qed.

Lemma select_preset_round OldPreset OldPWMvalue p rest s :
  let s1 := show_next s in
  let r := select_preset OldPreset OldPWMvalue (p :: rest) s in
  (seconds_held p <= 2 ->
   result r = result (select_preset OldPreset OldPWMvalue rest s1)
   /\ final r = final (select_preset OldPreset OldPWMvalue rest s1)
   /\ events r
      = round_events s p ++ events (select_preset OldPreset OldPWMvalue rest s1))
  /\ (2 < seconds_held p <= 5 ->
      result r = Finished /\ final r = s1
      /\ events r = round_events s p ++ events (WriteCurrentLimit false false s1))
  /\ (5 < seconds_held p ->
      result r = Finished
      /\ final r = set_CurrentLimit OldPWMvalue (set_RecalledPreset OldPreset s1)
      /\ events r = round_events s p).
Proof.
  cbv zeta. unfold round_events, show_next, next_preset.
  cbn [select_preset]. unfold when.
  destruct s as [m t cl rp b d z oc eo].
  cbn [RecalledPreset DummyZeroCrossingIRQenable EEPROM].
  split; [|split]; intros Hh; run_all; rewrite !result_TimePushbuttonHeld.
  - replace (seconds_held p >? 2) with false by lia.
    replace (seconds_held p >? 5) with false by lia.
    cbn [andb RecalledPreset set_RecalledPreset EEPROM].
    destruct (to_byte (rp + 1) >=? CurrentPresets), d, p; run_all;
      cbn -[select_preset stored_preset to_byte dutyCode];
      repeat split.
  - replace (seconds_held p >? 2) with true by lia.
    replace (seconds_held p <=? 5) with true by lia.
    cbn [andb RecalledPreset set_RecalledPreset EEPROM].
    destruct (to_byte (rp + 1) >=? CurrentPresets), d, p; run_all;
      cbn -[select_preset stored_preset to_byte dutyCode];
      repeat split.
  - replace (seconds_held p >? 2) with true by lia.
    replace (seconds_held p <=? 5) with false by lia.
    replace (seconds_held p >? 5) with true by lia.
    cbn [andb RecalledPreset set_RecalledPreset EEPROM].
    destruct (to_byte (rp + 1) >=? CurrentPresets), d, p; run_all;
      cbn -[select_preset stored_preset to_byte dutyCode];
      repeat split.
Qed.

Lemma show_next_fields s :
  EEPROM (show_next s) = EEPROM s
  /\ RecalledPreset (show_next s) = next_preset (RecalledPreset s)
  /\ CurrentLimit (show_next s)
     = stored_preset (EEPROM s) (next_preset (RecalledPreset s))
  /\ BackEMFcountermeasuresRequired (show_next s)
     = BackEMFcountermeasuresRequired s
  /\ DummyZeroCrossingIRQenable (show_next s) = DummyZeroCrossingIRQenable s
  /\ EnableOutput (show_next s) = EnableOutput s
  /\ ZeroCrossingTime (show_next s) = ZeroCrossingTime s.
Proof.
  unfold show_next. destruct (DummyZeroCrossingIRQenable s) eqn:E;
    cbn; rewrite ?E; repeat split.
Qed.

Lemma browse_fields (n : nat) : forall s,
  EEPROM (browse n s) = EEPROM s
  /\ RecalledPreset (browse n s) = Nat.iter n next_preset (RecalledPreset s)
  /\ (n <> 0%nat ->
      CurrentLimit (browse n s)
      = stored_preset (EEPROM s) (RecalledPreset (browse n s)))
  /\ BackEMFcountermeasuresRequired (browse n s)
     = BackEMFcountermeasuresRequired s
  /\ DummyZeroCrossingIRQenable (browse n s) = DummyZeroCrossingIRQenable s
  /\ EnableOutput (browse n s) = EnableOutput s
  /\ ZeroCrossingTime (browse n s) = ZeroCrossingTime s.
Proof.
  induction n as [|n IH]; intros s.
  - repeat split. intros H. congruence.
  - cbn [browse].
    destruct (IH (show_next s)) as (H1 & H2 & H3 & H4 & H5 & H6 & H7).
    destruct (show_next_fields s) as (S1 & S2 & S3 & S4 & S5 & S6 & S7).
    rewrite H1, H2, H4, H5, H6, H7, S1, S2, S4, S5, S6, S7.
    rewrite Nat.iter_succ_r.
    split; [reflexivity|]. split; [reflexivity|].
    split; [|repeat split].
    intros _. destruct n as [|n'].
    + cbn [browse Nat.iter nat_rect]. exact S3.
    + rewrite H3 by discriminate. rewrite H2, S1, S2. reflexivity.
Qed.

Lemma iter_next_preset (n : nat) r :
  0 <= r < CurrentPresets ->
  Nat.iter n next_preset r = (r + Z.of_nat n) mod CurrentPresets.
Proof.
  intros Hr. induction n as [|n IH].
  - cbn [Nat.iter nat_rect]. rewrite Z.add_0_r. symmetry.
    apply Z.mod_small. exact Hr.
  - rewrite Nat.iter_succ, IH.
    rewrite next_preset_cycle
      by (apply Z.mod_pos_bound; unfold CurrentPresets; lia).
    rewrite Zplus_mod_idemp_l. f_equal. lia.
Qed.

Lemma passive_round_events s p : forallb is_passive (round_events s p) = true.
Proof.
  unfold round_events. rewrite !forallb_app, passive_TimePushbuttonHeld.
  reflexivity.
Qed.

Lemma select_preset_browse (pressed : list Press) :
  Forall (fun p => seconds_held p <= 2) pressed ->
  forall OldPreset OldPWMvalue rest s,
  exists pre,
    forallb is_passive pre = true
    /\ result (select_preset OldPreset OldPWMvalue (pressed ++ rest) s)
       = result (select_preset OldPreset OldPWMvalue rest
                   (browse (length pressed) s))
    /\ final (select_preset OldPreset OldPWMvalue (pressed ++ rest) s)
       = final (select_preset OldPreset OldPWMvalue rest
                  (browse (length pressed) s))
    /\ events (select_preset OldPreset OldPWMvalue (pressed ++ rest) s)
       = pre ++ events (select_preset OldPreset OldPWMvalue rest
                          (browse (length pressed) s)).
Proof.
  induction 1 as [|p pressed Hp _ IH]; intros O P rest s.
  - exists []. repeat split.
  - destruct (select_preset_round O P p (pressed ++ rest) s) as [Hr _].
    destruct (Hr Hp) as (R1 & R2 & R3).
    destruct (IH O P rest (show_next s)) as (pre & Q0 & Q1 & Q2 & Q3).
    exists (round_events s p ++ pre).
    cbn [app length browse].
    rewrite R1, R2, R3, Q1, Q2, Q3, forallb_app, passive_round_events, Q0,
      app_assoc.
    repeat split.
Qed.

Lemma Run_ext {A} (r1 r2 : Run A) :
  result r1 = result r2 -> final r1 = final r2 -> events r1 = events r2 ->
  r1 = r2.
Proof. destruct r1, r2; cbn; intros; subst; reflexivity. Qed.

Lemma loop_menu_select WhatToDo presses s :
  0 <= WhatToDo <= 2 ->
  loop_menu WhatToDo presses s
  = select_preset (RecalledPreset s) (CurrentLimit s) presses s.
Proof.
  intros H. unfold loop_menu.
  replace (WhatToDo >=? 0) with true by lia.
  replace (WhatToDo <=? 2) with true by lia.
  cbn [andb]. apply Run_ext; run_all; reflexivity.
Qed.

(** X5. Leaving the preset selection with a hold of more than 5 seconds
    undoes the browsing: however many slots were shown, the recalled preset
    and the current limit are the ones the menu was entered with, the EEPROM
    and the output request are untouched, and nothing was written to the
    EEPROM, the PWM driver or the output request on the way. *)
Theorem X5_select_preset_cancel_restores (s : State) (WhatToDo : Z)
    (shown : list Press) (cancel : Press) (rest : list Press) :
  0 <= WhatToDo <= 2 ->
  Forall (fun p => seconds_held p <= 2) shown ->
  5 < seconds_held cancel ->
  let r := loop_menu WhatToDo (shown ++ cancel :: rest) s in
  result r = Finished
  /\ RecalledPreset (final r) = RecalledPreset s
  /\ CurrentLimit (final r) = CurrentLimit s
  /\ EEPROM (final r) = EEPROM s
  /\ EnableOutput (final r) = EnableOutput s
  /\ BackEMFcountermeasuresRequired (final r) = BackEMFcountermeasuresRequired s
  /\ forallb is_passive (events r) = true.
Proof.
  intros HW Hshown Hcancel. cbv zeta. rewrite loop_menu_select by exact HW.
  destruct (select_preset_browse shown Hshown (RecalledPreset s)
              (CurrentLimit s) (cancel :: rest) s)
    as (pre & P0 & P1 & P2 & P3).
  destruct (select_preset_round (RecalledPreset s) (CurrentLimit s) cancel rest
              (browse (length shown) s)) as (_ & _ & Hc).
  destruct (Hc Hcancel) as (Hc1 & Hc2 & Hc3).
  destruct (browse_fields (S (length shown)) s)
    as (B1 & _ & _ & B4 & _ & B6 & _).
  cbn [browse] in B1, B4, B6.
  rewrite P1, P2, P3, Hc1, Hc2, Hc3, forallb_app, P0, passive_round_events.
  cbn [RecalledPreset CurrentLimit EEPROM EnableOutput
       BackEMFcountermeasuresRequired set_CurrentLimit set_RecalledPreset].
  change (show_next (browse (length shown) s))
    with (browse 1 (browse (length shown) s)).
  assert (Hb : browse 1 (browse (length shown) s) = browse (S (length shown)) s).
  { clear. generalize (length shown). intros n. revert s.
    induction n as [|n IH]; intros s; [reflexivity|].
    cbn [browse] in *. apply IH. }
  rewrite Hb. cbn [browse]. rewrite B1, B4, B6. repeat split.
Qed.

Lemma X5_select_preset_cancel_restores_witness :
  let r := loop_menu 1 [HeldFor 5; HeldFor 8; HeldFor 70] factory_state in
  RecalledPreset (final r) = RecalledPreset factory_state
  /\ CurrentLimit (final r) = CurrentLimit factory_state.
Proof.
  destruct (X5_select_preset_cancel_restores factory_state 1
              [HeldFor 5; HeldFor 8] (HeldFor 70) [])
    as (_ & H1 & H2 & _).
  - lia.
  - repeat constructor; vm_compute; discriminate.
  - vm_compute. reflexivity.
  - cbv zeta. split; assumption.
Defined.

Lemma passive_views (t : list Event) :
  forallb is_passive t = true ->
  duty_writes t = []
  /\ existsb is_EEPROM_write t = false
  /\ existsb is_output_on_request t = false
  /\ existsb is_output_off_request t = false.
Proof.
  induction t as [|e t IH]; [repeat split|].
  cbn [forallb]. intros H. apply andb_true_iff in H as [He Ht].
  destruct (IH Ht) as (I1 & I2 & I3 & I4).
  destruct e; try discriminate;
    (split; [exact I1 | split; [exact I2 | split; [exact I3 | exact I4]]]).
Qed.

(** X6. Committing the selection with a hold of 3 to 5 seconds after [n]
    short presses recalls slot [(p + n + 1) mod CurrentPresets], where [p] is
    the slot recalled before: the current limit becomes the value stored in
    that slot, its duty code is the only one handed to the PWM driver, and
    the EEPROM is not written. *)
Theorem X6_select_preset_commit_recalls (s : State) (WhatToDo : Z)
    (shown : list Press) (commit : Press) (rest : list Press) :
  0 <= WhatToDo <= 2 ->
  0 <= RecalledPreset s < CurrentPresets ->
  Forall (fun p => seconds_held p <= 2) shown ->
  2 < seconds_held commit <= 5 ->
  let r := loop_menu WhatToDo (shown ++ commit :: rest) s in
  let slot := (RecalledPreset s + Z.of_nat (length shown) + 1)
              mod CurrentPresets in
  result r = Finished
  /\ RecalledPreset (final r) = slot
  /\ CurrentLimit (final r) = stored_preset (EEPROM s) slot
  /\ EEPROM (final r) = EEPROM s
  /\ duty_writes (events r) = [dutyCode (stored_preset (EEPROM s) slot)]
  /\ existsb is_EEPROM_write (events r) = false.
Proof.
  intros HW Hrp Hshown Hcommit. cbv zeta. rewrite loop_menu_select by exact HW.
  destruct (select_preset_browse shown Hshown (RecalledPreset s)
              (CurrentLimit s) (commit :: rest) s)
    as (pre & P0 & P1 & P2 & P3).
  destruct (select_preset_round (RecalledPreset s) (CurrentLimit s) commit rest
              (browse (length shown) s)) as (_ & Hc & _).
  destruct (Hc Hcommit) as (Hc1 & Hc2 & Hc3).
  destruct (browse_fields (S (length shown)) s)
    as (B1 & B2 & B3 & _).
  assert (Hb : show_next (browse (length shown) s) = browse (S (length shown)) s).
  { clear. generalize (length shown). intros n. revert s.
    induction n as [|n IH]; intros s; [reflexivity|].
    cbn [browse] in *. apply IH. }
  rewrite Hb in Hc2, Hc3.
  rewrite iter_next_preset in B2 by exact Hrp.
  replace (RecalledPreset s + Z.of_nat (S (length shown)))
    with (RecalledPreset s + Z.of_nat (length shown) + 1) in B2 by lia.
  specialize (B3 ltac:(discriminate)). rewrite B2 in B3.
  rewrite P1, P2, P3, Hc1, Hc2, Hc3, B1, B2, B3.
  split; [reflexivity|]. split; [reflexivity|]. split; [reflexivity|].
  split; [reflexivity|].
  destruct (passive_views pre P0) as (D1 & D2 & _ & _).
  assert (Hround : duty_writes
                     (round_events (browse (length shown) s) commit) = []
                   /\ existsb is_EEPROM_write
                        (round_events (browse (length shown) s) commit) = false).
  { unfold round_events. destruct commit; split; reflexivity. }
  destruct Hround as [R1 R2].
  rewrite !duty_writes_app, !existsb_app, D1, D2, R1, R2,
    WriteCurrentLimit_duty, B3.
  split; reflexivity.
Qed.

Lemma X6_select_preset_commit_recalls_witness :
  let r := loop_menu 0 [HeldFor 5; HeldFor 8; HeldFor 40] factory_state in
  RecalledPreset (final r) = 3 /\ CurrentLimit (final r) = 2500.
Proof.
  destruct (X6_select_preset_commit_recalls factory_state 0
              [HeldFor 5; HeldFor 8] (HeldFor 40) [])
    as (_ & H1 & H2 & _).
  - lia.
  - vm_compute. split; [discriminate | reflexivity].
  - repeat constructor; vm_compute; discriminate.
  - vm_compute. split; [reflexivity | discriminate].
  - cbv zeta in *. split; [exact H1 | exact H2].
Defined.

(** ** The range invariant of the menu *)

Lemma select_preset_keeps (presses : list Press) :
  forall OldPreset OldPWMvalue s,
  let r := select_preset OldPreset OldPWMvalue presses s in
  EEPROM (final r) = EEPROM s
  /\ EnableOutput (final r) = EnableOutput s
  /\ BackEMFcountermeasuresRequired (final r) = BackEMFcountermeasuresRequired s
  /\ DummyZeroCrossingIRQenable (final r) = DummyZeroCrossingIRQenable s
  /\ existsb is_EEPROM_write (events r) = false
  /\ existsb is_energising (events r) = false
  /\ ((RecalledPreset (final r) = OldPreset
       /\ CurrentLimit (final r) = OldPWMvalue)
      \/ (0 <= RecalledPreset (final r) < CurrentPresets
          /\ CurrentLimit (final r)
             = stored_preset (EEPROM s) (RecalledPreset (final r)))).
Proof.
  induction presses as [|p rest IH]; intros O P s; cbv zeta.
  - destruct (show_next_fields s) as (S1 & S2 & S3 & S4 & S5 & S6 & _).
    assert (H : select_preset O P [] s
                = mkRun StillBusy (show_next s)
                    (events (RecallPreset (next_preset (RecalledPreset s)) s)
                     ++ [await_level Pushbutton LOW])).
    { cbn [select_preset]. unfold show_next, next_preset, when.
      destruct s as [m t cl rp b d z oc eo].
      cbn [RecalledPreset DummyZeroCrossingIRQenable EEPROM].
      apply Run_eq; run_all;
        cbn [RecalledPreset set_RecalledPreset EEPROM];
        destruct (to_byte (rp + 1) >=? CurrentPresets), d; run_all;
        reflexivity. }
    rewrite H. cbn [result final events].
    rewrite S1, S2, S3, S4, S5, S6.
    repeat split. right. split; [apply next_preset_range | reflexivity].
  - destruct (select_preset_round O P p rest s) as (H1 & H2 & H3).
    destruct (show_next_fields s) as (S1 & S2 & S3 & S4 & S5 & S6 & _).
    destruct (passive_views _ (passive_round_events s p)) as (_ & V2 & _ & _).
    assert (V3 : existsb is_energising (round_events s p) = false)
      by (unfold round_events; destruct p; reflexivity).
    assert (Hcase : seconds_held p <= 2 \/ 2 < seconds_held p <= 5
                    \/ 5 < seconds_held p) by lia.
    destruct Hcase as [Hc|[Hc|Hc]].
    + destruct (H1 Hc) as (_ & R2 & R3).
      destruct (IH O P (show_next s)) as (I1 & I2 & I3 & I4 & I5 & I6 & I7).
      rewrite R2, R3, I1, I2, I3, I4, !existsb_app, I5, I6, V2, V3,
        S1, S4, S5, S6.
      repeat split. rewrite S1 in I7. exact I7.
    + destruct (H2 Hc) as (_ & R2 & R3).
      rewrite R2, R3, !existsb_app, V2, V3, S1, S2, S3, S4, S5, S6.
      repeat split. right. split; [apply next_preset_range | reflexivity].
    + destruct (H3 Hc) as (_ & R2 & R3).
      rewrite R2, R3, V2, V3.
      cbn [EEPROM EnableOutput BackEMFcountermeasuresRequired
           DummyZeroCrossingIRQenable RecalledPreset CurrentLimit
           set_CurrentLimit set_RecalledPreset].
      rewrite S1, S4, S5, S6. repeat split. left. split; reflexivity.
Qed.

Lemma program_preset_keeps (presses : list Press) :
  forall (SelectedDigit : nat) (DigitIncrement : Z) (s : State),
  let r := program_preset SelectedDigit DigitIncrement presses s in
  EEPROM (final r) = EEPROM s
  /\ RecalledPreset (final r) = RecalledPreset s
  /\ EnableOutput (final r) = EnableOutput s
  /\ BackEMFcountermeasuresRequired (final r) = BackEMFcountermeasuresRequired s
  /\ DummyZeroCrossingIRQenable (final r) = DummyZeroCrossingIRQenable s
  /\ existsb is_EEPROM_write (events r) = false
  /\ existsb is_energising (events r) = false.
Proof.
  induction presses as [|p rest IH]; intros sel inc s; cbv zeta.
  - cbn [program_preset]. run_all. repeat split.
  - cbn [program_preset]. run_all.
    assert (Hp : existsb is_EEPROM_write (events (TimePushbuttonHeld p s)) = false
                 /\ existsb is_energising
                      (events (TimePushbuttonHeld p s)) = false)
      by (destruct p; split; reflexivity).
    destruct Hp as [P1 P2].
    rewrite !existsb_app, P1, P2.
    destruct (result (TimePushbuttonHeld p s) <=? 2).
    + destruct (increment_step (CurrentLimit s) sel) as [[D l]|]; run_all.
      * destruct (IH sel inc (set_CurrentLimit l s))
          as (I1 & I2 & I3 & I4 & I5 & I6 & I7).
        rewrite I1, I2, I3, I4, I5, !existsb_app, I6, I7. repeat split.
      * repeat split.
    + destruct ((result (TimePushbuttonHeld p s) >? 2)
                && (result (TimePushbuttonHeld p s) <=? 5)).
      * destruct (CurrentDigitCount <=? S sel)%nat.
        -- destruct (IH 0%nat LargestDigitIncrement s)
             as (I1 & I2 & I3 & I4 & I5 & I6 & I7).
           rewrite I1, I2, I3, I4, I5, I6, I7. repeat split.
        -- destruct (IH (S sel) (to_word (inc / 10)) s)
             as (I1 & I2 & I3 & I4 & I5 & I6 & I7).
           rewrite I1, I2, I3, I4, I5, I6, I7. repeat split.
      * run_all. repeat split.
Qed.

Lemma stored_preset_nonneg m preset : 0 <= stored_preset m preset.
Proof. unfold stored_preset, to_word. apply Z.mod_pos_bound. lia. Qed.

Lemma presets_in_range_write m value preset :
  presets_in_range m -> 0 <= value <= MaximumCurrent ->
  presets_in_range (write_preset m value preset).
Proof.
  intros Hm Hv other Ho. destruct (Z.eq_dec other preset) as [->|Hne].
  - rewrite stored_preset_write_eq.
    rewrite to_word_small by (unfold MaximumCurrent in Hv; lia). lia.
  - rewrite stored_preset_write_ne by exact Hne. apply Hm. exact Ho.
Qed.

Lemma presets_in_range_default m value :
  presets_in_range m -> presets_in_range (<[PresetRecallBase := value]> m).
Proof.
  intros Hm other Ho. unfold stored_preset.
  rewrite !cell_insert_ne
    by (unfold preset_address, PresetRecallBase, CurrentPresetBase,
          BytesPerPreset, CurrentPresets in *; lia).
  apply Hm. exact Ho.
Qed.

Lemma loop_menu_keeps WhatToDo presses s :
  working_in_range s -> presets_in_range (EEPROM s) ->
  let r := loop_menu WhatToDo presses s in
  working_in_range (final r)
  /\ presets_in_range (EEPROM (final r))
  /\ EnableOutput (final r) = EnableOutput s
  /\ BackEMFcountermeasuresRequired (final r) = BackEMFcountermeasuresRequired s
  /\ DummyZeroCrossingIRQenable (final r) = DummyZeroCrossingIRQenable s
  /\ existsb is_energising (events r) = false.
Proof.
  intros [Hcl Hrp] Hm. cbv zeta. unfold loop_menu, working_in_range.
  destruct ((WhatToDo >=? 0) && (WhatToDo <=? 2)).
  { run_all.
    destruct (select_preset_keeps presses (RecalledPreset s) (CurrentLimit s) s)
      as (K1 & K2 & K3 & K4 & _ & K6 & K7).
    rewrite ?app_nil_l.
    rewrite K1, K2, K3, K4, K6. repeat split; try assumption.
    all: destruct K7 as [[E1 E2]|[Hq E2]]; rewrite ?E1, ?E2; try lia.
    all: try apply stored_preset_nonneg.
    all: apply Hm; exact Hq. }
  destruct ((WhatToDo >? 2) && (WhatToDo <=? 5)).
  { destruct (program_preset_keeps presses 0%nat LargestDigitIncrement s)
      as (K1 & K2 & K3 & K4 & K5 & _ & K7).
    pose proof (program_preset_in_range presses 0%nat LargestDigitIncrement s
                  ltac:(unfold CurrentDigitCount; lia) Hcl) as Hin.
    rewrite K1, K2, K3, K4, K5, K7. repeat split; try assumption; lia. }
  destruct ((WhatToDo >? 5) && (WhatToDo <=? 9)).
  { run_all. cbn [EEPROM set_EEPROM CurrentLimit RecalledPreset EnableOutput
                  BackEMFcountermeasuresRequired DummyZeroCrossingIRQenable].
    rewrite StorePreset_run. cbn [events].
    repeat split; try lia.
    apply presets_in_range_write; assumption. }
  destruct (WhatToDo =? 10).
  { run_all. cbn [EEPROM set_EEPROM CurrentLimit RecalledPreset EnableOutput
                  BackEMFcountermeasuresRequired DummyZeroCrossingIRQenable].
    repeat split; try lia.
    apply presets_in_range_default. exact Hm. }
  run_all. repeat split; try assumption; lia.
Qed.

Lemma poll_pushbutton_quiet (fuel : nat) : forall (i : nat) pressed s,
  existsb is_energising (events (poll_pushbutton fuel i pressed s)) = false
  /\ existsb is_EEPROM_write (events (poll_pushbutton fuel i pressed s)) = false.
Proof.
  induction fuel as [|fuel IH]; intros i pressed s.
  - split; reflexivity.
  - cbn [poll_pushbutton]. destruct (pressed i); run_all.
    + split; reflexivity.
    + destruct (IH (S i) pressed s) as [H1 H2].
      rewrite !existsb_app, H1, H2. split; reflexivity.
Qed.

Lemma quiet_TimePushbuttonHeld p s :
  existsb is_energising (events (TimePushbuttonHeld p s)) = false
  /\ existsb is_EEPROM_write (events (TimePushbuttonHeld p s)) = false.
Proof. destruct p; split; reflexivity. Qed.

Lemma loop_pushbutton_entry_keeps second p s :
  let r := loop_pushbutton_entry second p s in
  (final r = s \/ final r = set_EnableOutput LOW s)
  /\ existsb is_energising (events r) = false
  /\ existsb is_EEPROM_write (events r) = false.
Proof.
  cbv zeta. unfold loop_pushbutton_entry, PushbuttonTimeout.
  generalize (Z.to_nat (to_byte 3 * 10 + 1)). intros fuel.
  destruct (poll_pushbutton_spec fuel 0 second s) as [_ P2].
  destruct (poll_pushbutton_quiet fuel 0 second s) as [Q1 Q2].
  run_all. destruct (BackEMFcountermeasuresRequired s); cbn [Bool.eqb].
  - run_all. rewrite P2.
    destruct (result (poll_pushbutton fuel 0 second s)); cbn [Bool.eqb];
      run_all; rewrite ?P2; run_all.
    + rewrite !existsb_app, Q1, Q2. repeat split. left. reflexivity.
    + destruct (quiet_TimePushbuttonHeld p (set_EnableOutput LOW s))
        as [T1 T2].
      rewrite !existsb_app, Q1, Q2, T1, T2. repeat split. right. reflexivity.
  - run_all. destruct (quiet_TimePushbuttonHeld p s) as [T1 T2].
    cbn [app]. rewrite T1, T2. repeat split. left. reflexivity.
Qed.

Lemma loop_pushbutton_run second p presses zero_crossing s :
  let entry := loop_pushbutton_entry second p s in
  let menu := loop_menu (result entry) presses (final entry) in
  let r := loop_pushbutton second p presses zero_crossing s in
  match result menu with
  | Finished =>
      let leave := loop_pushbutton_exit zero_crossing (final menu) in
      result r = result leave /\ final r = final leave
      /\ events r = events entry ++ events menu ++ events leave
  | StillBusy =>
      result r = StillBusy /\ final r = final menu
      /\ events r = events entry ++ events menu
  end.
Proof.
  cbv zeta. unfold loop_pushbutton. run.
  destruct (result (loop_menu _ presses _)); run; rewrite ?app_nil_r;
    repeat split.
Qed.

(** X7. The pushbutton handler keeps the working values and the stored
    presets in range: entered with a valid current limit, a valid recalled
    slot and valid limits in all ten slots, it leaves them so whatever is
    pressed, for how long and whether the mains comes back; and it never
    changes the countermeasure flag or the diagnostic flag. *)
Theorem X7_loop_pushbutton_keeps_ranges (s : State) (second : nat -> bool)
    (p : Press) (presses : list Press) (zero_crossing : bool) :
  working_in_range s -> presets_in_range (EEPROM s) ->
  let r := loop_pushbutton second p presses zero_crossing s in
  working_in_range (final r)
  /\ presets_in_range (EEPROM (final r))
  /\ BackEMFcountermeasuresRequired (final r) = BackEMFcountermeasuresRequired s
  /\ DummyZeroCrossingIRQenable (final r) = DummyZeroCrossingIRQenable s.
Proof.
  intros Hw Hm. cbv zeta.
  pose proof (loop_pushbutton_run second p presses zero_crossing s) as Hrun.
  cbv zeta in Hrun.
  destruct (loop_pushbutton_entry_keeps second p s) as (He & _ & _).
  cbv zeta in He.
  assert (Hw1 : working_in_range (final (loop_pushbutton_entry second p s))
                /\ presets_in_range
                     (EEPROM (final (loop_pushbutton_entry second p s)))
                /\ BackEMFcountermeasuresRequired
                     (final (loop_pushbutton_entry second p s))
                   = BackEMFcountermeasuresRequired s
                /\ DummyZeroCrossingIRQenable
                     (final (loop_pushbutton_entry second p s))
                   = DummyZeroCrossingIRQenable s).
  { destruct He as [-> | ->]; repeat split; try apply Hw; try exact Hm;
      destruct s; assumption || reflexivity || apply Hw || exact Hm. }
  destruct Hw1 as (Hw1 & Hm1 & Hb1 & Hd1).
  destruct (loop_menu_keeps (result (loop_pushbutton_entry second p s))
              presses _ Hw1 Hm1) as (Kw & Km & _ & Kb & Kd & _).
  revert Hrun Kw Km Kb Kd.
  generalize (loop_menu (result (loop_pushbutton_entry second p s)) presses
                (final (loop_pushbutton_entry second p s))).
  intros menu Hrun Kw Km Kb Kd.
  assert (Hexit : forall s',
            BackEMFcountermeasuresRequired
              (final (loop_pushbutton_exit zero_crossing s'))
            = BackEMFcountermeasuresRequired s'
            /\ DummyZeroCrossingIRQenable
                 (final (loop_pushbutton_exit zero_crossing s'))
               = DummyZeroCrossingIRQenable s').
  { intros s'. unfold loop_pushbutton_exit. run_all.
    destruct zero_crossing; run_all; destruct (Bool.eqb _ _ && _);
      split; reflexivity. }
  destruct (result menu).
  - destruct Hrun as (_ & Hf & _). rewrite Hf.
    destruct (final_loop_pushbutton_exit zero_crossing (final menu))
      as (_ & E2 & E3 & E4 & _).
    destruct (Hexit (final menu)) as [F1 F2].
    unfold working_in_range, presets_in_range in *.
    rewrite E2, E3, E4, F1, F2, Kb, Kd.
    split; [exact Kw|]. split; [exact Km|]. split; assumption.
  - destruct Hrun as (_ & Hf & _). rewrite Hf, Kb, Kd.
    split; [exact Kw|]. split; [exact Km|]. split; assumption.
Qed.

Lemma X7_loop_pushbutton_keeps_ranges_witness :
  let r := loop_pushbutton (fun _ => false) (HeldFor 45) [HeldFor 5] true
             (final (setup_check_presets factory_state)) in
  working_in_range (final r) /\ presets_in_range (EEPROM (final r)).
Proof.
  destruct (X7_loop_pushbutton_keeps_ranges
              (final (setup_check_presets factory_state)) (fun _ => false)
              (HeldFor 45) [HeldFor 5] true) as (H1 & H2 & _).
  - vm_compute. repeat split; discriminate || reflexivity.
  - intros preset Hp.
    assert (Hc : preset = 0 \/ preset = 1 \/ preset = 2 \/ preset = 3
                 \/ preset = 4 \/ preset = 5 \/ preset = 6 \/ preset = 7
                 \/ preset = 8 \/ preset = 9)
      by (unfold CurrentPresets in Hp; lia).
    repeat (destruct Hc as [->|Hc]); try subst preset; vm_compute;
      discriminate.
  - cbv zeta. split; assumption.
Defined.

(** ** Diagnostic mode *)

Lemma loop_menu_quiet WhatToDo presses s :
  let r := loop_menu WhatToDo presses s in
  EnableOutput (final r) = EnableOutput s
  /\ DummyZeroCrossingIRQenable (final r) = DummyZeroCrossingIRQenable s
  /\ existsb is_energising (events r) = false.
Proof.
  cbv zeta. unfold loop_menu.
  destruct ((WhatToDo >=? 0) && (WhatToDo <=? 2)).
  { run_all.
    destruct (select_preset_keeps presses (RecalledPreset s) (CurrentLimit s) s)
      as (_ & K2 & _ & K4 & _ & K6 & _).
    rewrite ?app_nil_l. rewrite K2, K4, K6. repeat split. }
  destruct ((WhatToDo >? 2) && (WhatToDo <=? 5)).
  { destruct (program_preset_keeps presses 0%nat LargestDigitIncrement s)
      as (_ & _ & K3 & _ & K5 & _ & K7).
    rewrite K3, K5, K7. repeat split. }
  destruct ((WhatToDo >? 5) && (WhatToDo <=? 9)).
  { run_all. rewrite StorePreset_run. repeat split. }
  destruct (WhatToDo =? 10).
  { run_all. repeat split. }
  run_all. repeat split.
Qed.

(** X8. In diagnostic mode the pushbutton handler never energises the load:
    entered with the diagnostic flag set and the output request low (the
    state [setup] leaves in that mode), it leaves the request low, and none
    of its statements raises the request or writes the output pin high,
    whatever is pressed and whether or not a zero crossing follows. *)
Theorem X8_diagnostic_mode_never_energises (s : State) (second : nat -> bool)
    (p : Press) (presses : list Press) (zero_crossing : bool) :
  DummyZeroCrossingIRQenable s = true -> EnableOutput s = LOW ->
  let r := loop_pushbutton second p presses zero_crossing s in
  EnableOutput (final r) = LOW
  /\ DummyZeroCrossingIRQenable (final r) = true
  /\ existsb is_energising (events r) = false.
Proof.
  intros Hd He. cbv zeta.
  pose proof (loop_pushbutton_run second p presses zero_crossing s) as Hrun.
  cbv zeta in Hrun.
  destruct (loop_pushbutton_entry_keeps second p s) as (Hf & Hq & _).
  cbv zeta in Hf, Hq.
  assert (H1 : EnableOutput (final (loop_pushbutton_entry second p s)) = LOW
               /\ DummyZeroCrossingIRQenable
                    (final (loop_pushbutton_entry second p s)) = true).
  { destruct Hf as [-> | ->]; [split; assumption|].
    destruct s; split; [reflexivity | exact Hd]. }
  destruct H1 as [He1 Hd1].
  destruct (loop_menu_quiet (result (loop_pushbutton_entry second p s))
              presses (final (loop_pushbutton_entry second p s)))
    as (K1 & K2 & K3).
  cbv zeta in K1, K2, K3. rewrite He1 in K1. rewrite Hd1 in K2.
  revert Hrun K1 K2 K3.
  generalize (loop_menu (result (loop_pushbutton_entry second p s)) presses
                (final (loop_pushbutton_entry second p s))).
  intros menu Hrun K1 K2 K3.
  destruct (result menu).
  - destruct Hrun as (_ & Hfin & Hev). rewrite Hfin, Hev.
    rewrite !existsb_app, Hq, K3.
    unfold loop_pushbutton_exit. run_all. rewrite K2.
    rewrite andb_false_r.
    destruct zero_crossing; run_all;
      cbn [when final events EnableOutput DummyZeroCrossingIRQenable
           set_ZeroCrossingDetected set_OvercurrentSensed];
      unfold ZeroCrossingIRQ; run_all;
      cbn [EnableOutput DummyZeroCrossingIRQenable
           set_ZeroCrossingDetected set_OvercurrentSensed];
      rewrite ?K1, ?K2; repeat split.
  - destruct Hrun as (_ & Hfin & Hev). rewrite Hfin, Hev.
    rewrite !existsb_app, Hq, K3, K1, K2. repeat split.
Qed.

Lemma X8_diagnostic_mode_never_energises_witness :
  let s := set_DummyZeroCrossingIRQenable true factory_state in
  let r := loop_pushbutton (fun _ => false) (HeldFor 80) [] true s in
  EnableOutput (final r) = LOW.
Proof.
  destruct (X8_diagnostic_mode_never_energises
              (set_DummyZeroCrossingIRQenable true factory_state)
              (fun _ => false) (HeldFor 80) [] true) as (H1 & _).
  - reflexivity.
  - reflexivity.
  - cbv zeta. exact H1.
Defined.

(** ** [setup] from the preset check to its end *)

Lemma follows_request_views level (t : list Event) :
  forallb (follows_request level) t = true ->
  forallb is_passive t = true
  /\ (level = LOW -> existsb is_energising t = false).
Proof.
  induction t as [|e t IH]; [repeat split|].
  cbn [forallb existsb]. intros H. apply andb_true_iff in H as [He Ht].
  destruct (IH Ht) as [I1 I2]. unfold follows_request in He.
  apply andb_true_iff in He as [He1 He2]. rewrite He1, I1.
  split; [reflexivity|]. intros ->. rewrite (I2 eq_refl), orb_false_r.
  destruct e as [[] []| | | | | | | | | |[]| | | | | |]; try reflexivity;
    discriminate.
Qed.

Lemma poll_zero_crossing_follows (n : nat) : forall (i : nat) edge s,
  forallb (follows_request (EnableOutput s))
    (events (poll_zero_crossing n i edge s)) = true.
Proof.
  induction n as [|n IH]; intros i edge s.
  - reflexivity.
  - cbn [poll_zero_crossing]. run_all.
    destruct (ZeroCrossingDetected s); run_all; [reflexivity|].
    rewrite !forallb_app.
    assert (H : EnableOutput (final (when (edge i) ZeroCrossingIRQ s))
                = EnableOutput s
                /\ forallb (follows_request (EnableOutput s))
                     (events (when (edge i) ZeroCrossingIRQ s)) = true).
    { destruct (edge i); [|split; reflexivity].
      split; [reflexivity|]. cbn. unfold follows_request. cbn.
      rewrite eqb_reflx. reflexivity. }
    destruct H as [H1 H2]. rewrite H2.
    specialize (IH (S i) edge (final (when (edge i) ZeroCrossingIRQ s))).
    rewrite H1 in IH. rewrite IH. reflexivity.
Qed.

Lemma WaitForZeroCrossingOrTimeout_follows edge s level :
  EnableOutput s = level ->
  forallb (follows_request level)
    (events (WaitForZeroCrossingOrTimeout edge s)) = true.
Proof. intros <-. apply poll_zero_crossing_follows. Qed.

Lemma setup_qualify_follows mains s :
  forallb (follows_request (EnableOutput s)) (events (setup_qualify mains s))
  = true.
Proof.
  unfold setup_qualify. run.
  rewrite !WaitForZeroCrossingOrTimeout_final.
  cbn [ZeroCrossingDetected set_ZeroCrossingDetected].
  rewrite forallb_app, WaitForZeroCrossingOrTimeout_follows by reflexivity.
  destruct (ZeroCrossingDetected s || edge_seen (any_edge mains)); run;
    [|reflexivity].
  rewrite !WaitForZeroCrossingOrTimeout_final.
  cbn [ZeroCrossingDetected set_ZeroCrossingDetected orb negb].
  rewrite !forallb_app.
  rewrite !WaitForZeroCrossingOrTimeout_follows by (destruct s; reflexivity).
  cbn [forallb andb app].
  destruct (edge_seen (rising_edge mains)); cbn [negb]; run.
  2:{ reflexivity. }
  rewrite !WaitForZeroCrossingOrTimeout_final.
  cbn [ZeroCrossingDetected set_ZeroCrossingDetected orb negb].
  rewrite !forallb_app.
  rewrite !WaitForZeroCrossingOrTimeout_follows by (destruct s; reflexivity).
  cbn [forallb andb app].
  repeat match goal with
         | |- context [if ?c then _ else _] => destruct c
         end; reflexivity.
Qed.

Lemma setup_qualify_frame mains s :
  let r := setup_qualify mains s in
  EEPROM (final r) = EEPROM s
  /\ CurrentLimit (final r) = CurrentLimit s
  /\ RecalledPreset (final r) = RecalledPreset s
  /\ BackEMFcountermeasuresRequired (final r) = BackEMFcountermeasuresRequired s
  /\ EnableOutput (final r) = EnableOutput s.
Proof.
  cbv zeta. unfold setup_qualify. run.
  rewrite !WaitForZeroCrossingOrTimeout_final.
  cbn [ZeroCrossingDetected set_ZeroCrossingDetected].
  destruct (ZeroCrossingDetected s || edge_seen (any_edge mains)); run.
  2:{ destruct s; repeat split. }
  rewrite !WaitForZeroCrossingOrTimeout_final.
  cbn [ZeroCrossingDetected set_ZeroCrossingDetected orb negb].
  destruct (edge_seen (rising_edge mains)); cbn [negb]; run.
  2:{ destruct s; repeat split. }
  rewrite !WaitForZeroCrossingOrTimeout_final.
  cbn [ZeroCrossingDetected set_ZeroCrossingDetected orb negb].
  repeat match goal with
         | |- context [if ?c then _ else _] => destruct c
         end; destruct s; repeat split.
Qed.

Lemma check_presets_events (n : nat) : forall (i : Z) (s : State),
  duty_writes (events (check_presets n i s)) = []
  /\ existsb is_energising (events (check_presets n i s)) = false.
Proof.
  induction n as [|n IH]; intros i s.
  - split; reflexivity.
  - cbn [check_presets]. run. rewrite RecallPreset_run.
    cbn [result final events].
    set (m := if stored_preset (EEPROM s) i >? MaximumCurrent
              then StorePreset 0 i else ret tt).
    assert (Hm : duty_writes (events (m s)) = []
                 /\ existsb is_energising (events (m s)) = false).
    { subst m. destruct (_ >? _); split; reflexivity. }
    destruct Hm as [M1 M2].
    destruct (IH (i + 1) (final (m s))) as [I1 I2].
    rewrite !duty_writes_app, !existsb_app, M1, M2, I1, I2.
    split; reflexivity.
Qed.

Lemma setup_check_presets_final s :
  let r := setup_check_presets s in
  final r = set_EEPROM (EEPROM (final r)) s
  /\ presets_in_range (EEPROM (final r))
  /\ 0 <= cell (EEPROM (final r)) PresetRecallBase < CurrentPresets
  /\ duty_writes (events r) = []
  /\ existsb is_energising (events r) = false.
Proof.
  cbv zeta. unfold setup_check_presets. run_all.
  generalize (check_presets_spec (Z.to_nat CurrentPresets) 0 s).
  generalize (check_presets_events (Z.to_nat CurrentPresets) 0 s).
  cbv zeta.
  generalize (check_presets (Z.to_nat CurrentPresets) 0 s).
  intros r [E1 E2] (H1 & H2 & _).
  assert (Hn : forall j, 0 <= j < CurrentPresets ->
                 stored_preset (EEPROM (final r)) j <= MaximumCurrent).
  { intros j Hj. destruct (H2 j) as (-> & _).
    { unfold CurrentPresets in *. cbn. lia. }
    unfold normalised. destruct (Z.gtb_spec (stored_preset (EEPROM s) j)
                                   MaximumCurrent);
      [unfold MaximumCurrent|]; lia. }
  pose proof (to_byte_range (default 255 (EEPROM (final r) !! PresetRecallBase)))
    as Hb.
  fold (cell (EEPROM (final r)) PresetRecallBase) in Hb.
  destruct (Z.geb_spec (cell (EEPROM (final r)) PresetRecallBase)
              CurrentPresets) as [Hge|Hlt]; run_all.
  - cbn [EEPROM set_EEPROM].
    split.
    { set (m := <[PresetRecallBase := to_byte 0]> (EEPROM (final r))).
      rewrite H1. destruct s; reflexivity. }
    split; [apply presets_in_range_default; exact Hn|].
    split; [rewrite cell_insert_eq; vm_compute; split;
            [discriminate | reflexivity]|].
    rewrite !duty_writes_app, !existsb_app, E1, E2. split; reflexivity.
  - split; [exact H1|]. split; [exact Hn|]. split; [lia|].
    rewrite !duty_writes_app, !existsb_app, E1, E2. split; reflexivity.
Qed.

Lemma setup_finish_normal s :
  let r := setup_finish ErrorNone s in
  result r = Normal
  /\ EEPROM (final r) = EEPROM s
  /\ RecalledPreset (final r) = cell (EEPROM s) PresetRecallBase
  /\ CurrentLimit (final r)
     = stored_preset (EEPROM s) (cell (EEPROM s) PresetRecallBase)
  /\ BackEMFcountermeasuresRequired (final r) = BackEMFcountermeasuresRequired s
  /\ duty_writes (events r) = [dutyCode (CurrentLimit (final r))].
Proof.
  cbv zeta. unfold setup_finish. run_all.
  change (negb (ErrorNone =? ErrorNone)) with false. cbv iota. run_all.
  cbn [RecalledPreset set_RecalledPreset set_CurrentLimit EEPROM
       DummyZeroCrossingIRQenable CurrentLimit].
  rewrite !RecallPreset_run. cbn [result events].
  destruct s as [m t cl rp b d z oc eo].
  cbn [RecalledPreset set_RecalledPreset set_CurrentLimit EEPROM
       DummyZeroCrossingIRQenable CurrentLimit].
  destruct d; repeat split.
Qed.

Lemma setup_finish_halted ErrorCode s :
  ErrorCode <> ErrorNone ->
  let r := setup_finish ErrorCode s in
  result r = Halted ErrorCode
  /\ final r = s
  /\ duty_writes (events r) = []
  /\ existsb is_energising (events r) = false
  /\ last_output_write (events r) = Some LOW.
Proof.
  intros Hne. cbv zeta. unfold setup_finish. run_all.
  destruct (Z.eqb_spec ErrorCode ErrorNone) as [|_]; [contradiction|].
  cbn [negb]. run_all.
  destruct (ErrorCode =? ErrorSinewaveOnly), (ErrorCode =? ErrorNoAltCycles),
    (ErrorCode =? ErrorNoZeroCross); repeat split.
Qed.

Lemma setup_tail_run mains s :
  let check := setup_check_presets s in
  let qualify := setup_qualify mains (final check) in
  let finish := setup_finish (result qualify) (final qualify) in
  let r := setup_tail mains s in
  result r = result finish /\ final r = final finish
  /\ events r = events check ++ events qualify ++ events finish.
Proof. cbv zeta. unfold setup_tail, setup_startup. run. repeat split. Qed.

(** X9. Whatever the EEPROM holds at power-on, when [setup] reaches normal
    operation every preset slot holds a valid limit, the recalled preset is
    the valid slot named by the power-on default cell, the current limit is
    the value stored in that slot, and the only duty code handed to the PWM
    driver on the way is the one of that limit. *)
Theorem X9_setup_establishes_ranges (mains : Mains) (s : State) :
  let r := setup_tail mains s in
  result r = Normal ->
  working_in_range (final r)
  /\ presets_in_range (EEPROM (final r))
  /\ RecalledPreset (final r) = cell (EEPROM (final r)) PresetRecallBase
  /\ CurrentLimit (final r)
     = stored_preset (EEPROM (final r)) (RecalledPreset (final r))
  /\ duty_writes (events r) = [MaximumCurrent + 1 - CurrentLimit (final r)].
Proof.
  cbv zeta.
  destruct (setup_tail_run mains s) as (Hr & Hf & He). cbv zeta in Hr, Hf, He.
  destruct (setup_check_presets_final s) as (_ & Hc2 & Hc3 & Hc4 & _).
  cbv zeta in Hc2, Hc3, Hc4.
  destruct (setup_qualify_frame mains (final (setup_check_presets s)))
    as (Q1 & _).
  cbv zeta in Q1.
  pose proof (setup_qualify_follows mains (final (setup_check_presets s)))
    as Q2.
  apply follows_request_views in Q2 as [Q2 _].
  apply passive_views in Q2 as (Q2 & _).
  rewrite Hr, Hf, He. clear Hr Hf He.
  revert Q1 Q2.
  generalize (setup_qualify mains (final (setup_check_presets s))).
  intros q Q1 Q2 Hn.
  destruct (Z.eq_dec (result q) ErrorNone) as [E|E].
  2:{ destruct (setup_finish_halted (result q) (final q) E) as (H & _).
      cbv zeta in H. rewrite H in Hn. discriminate. }
  rewrite E.
  destruct (setup_finish_normal (final q)) as (_ & F2 & F3 & F4 & _ & F6).
  cbv zeta in F2, F3, F4, F6.
  rewrite !duty_writes_app, Hc4, Q2, F6. cbn [app].
  rewrite Q1 in F2, F3, F4.
  assert (Hw : working_in_range (final (setup_finish ErrorNone (final q)))).
  { unfold working_in_range. rewrite F3, F4. split; [|exact Hc3].
    split; [apply stored_preset_nonneg | apply Hc2; exact Hc3]. }
  split; [exact Hw|]. rewrite F2. split; [exact Hc2|].
  split; [exact F3|]. split; [rewrite F3; exact F4|].
  rewrite dutyCode_in_range by apply Hw. reflexivity.
Qed.

Lemma X9_setup_establishes_ranges_witness :
  let r := setup_tail sine_mains corrupt_state in
  working_in_range (final r) /\ presets_in_range (EEPROM (final r)).
Proof.
  destruct (X9_setup_establishes_ranges sine_mains corrupt_state)
    as (H1 & H2 & _).
  - vm_compute. reflexivity.
  - cbv zeta. split; assumption.
Defined.

(** X10. A start-up that ends in the halt loop has not energised the load:
    with the output request low as at power-on, no statement from the preset
    check to the halt raises the request or writes the output pin high; the
    last write to the pin is low, no duty code is handed to the PWM driver
    and the working values are untouched. *)
Theorem X10_halted_setup_never_energises (mains : Mains) (s : State)
    (ErrorCode : Z) :
  EnableOutput s = LOW ->
  let r := setup_tail mains s in
  result r = Halted ErrorCode ->
  ErrorCode <> ErrorNone
  /\ existsb is_energising (events r) = false
  /\ last_output_write (events r) = Some LOW
  /\ duty_writes (events r) = []
  /\ EnableOutput (final r) = LOW
  /\ CurrentLimit (final r) = CurrentLimit s
  /\ RecalledPreset (final r) = RecalledPreset s.
Proof.
  intros Hlow. cbv zeta.
  destruct (setup_tail_run mains s) as (Hr & Hf & He). cbv zeta in Hr, Hf, He.
  destruct (setup_check_presets_final s) as (Hc1 & _ & _ & Hc4 & Hc5).
  cbv zeta in Hc1, Hc4, Hc5.
  assert (Hs1 : EnableOutput (final (setup_check_presets s)) = LOW
                /\ CurrentLimit (final (setup_check_presets s)) = CurrentLimit s
                /\ RecalledPreset (final (setup_check_presets s))
                   = RecalledPreset s).
  { rewrite Hc1. destruct s; repeat split. exact Hlow. }
  destruct Hs1 as (S1 & S2 & S3).
  destruct (setup_qualify_frame mains (final (setup_check_presets s)))
    as (_ & Q2 & Q3 & _ & Q5).
  cbv zeta in Q2, Q3, Q5.
  pose proof (setup_qualify_follows mains (final (setup_check_presets s)))
    as Q.
  rewrite S1 in Q.
  apply follows_request_views in Q as [Qp Qe].
  apply passive_views in Qp as (Qd & _).
  specialize (Qe eq_refl).
  rewrite Hr, Hf, He. clear Hr Hf He.
  rewrite S1 in Q5. rewrite S2 in Q2. rewrite S3 in Q3.
  revert Q2 Q3 Q5 Qd Qe.
  generalize (setup_qualify mains (final (setup_check_presets s))).
  intros q Q2 Q3 Q5 Qd Qe Hh.
  destruct (Z.eq_dec (result q) ErrorNone) as [E|E].
  { rewrite E in Hh. destruct (setup_finish_normal (final q)) as (H & _).
    cbv zeta in H. rewrite H in Hh. discriminate. }
  destruct (setup_finish_halted (result q) (final q) E) as (F1 & F2 & F3 & F4 & F5).
  cbv zeta in F1, F2, F3, F4, F5.
  rewrite F1 in Hh. injection Hh as <-.
  rewrite F2, !duty_writes_app, !existsb_app, Hc4, Hc5, Qd, Qe, F3, F4.
  rewrite !last_output_write_app, F5.
  repeat split; assumption.
Qed.

Lemma X10_halted_setup_never_energises_witness :
  let r := setup_tail dead_mains corrupt_state in
  existsb is_energising (events r) = false.
Proof.
  destruct (X10_halted_setup_never_energises dead_mains corrupt_state
              ErrorNoZeroCross) as (_ & H & _).
  - reflexivity.
  - vm_compute. reflexivity.
  - cbv zeta. exact H.
Defined.

(** ** A saved setting and the next power-on *)

Lemma setup_check_presets_values s :
  let r := setup_check_presets s in
  (forall j, 0 <= j < CurrentPresets ->
     stored_preset (EEPROM (final r)) j
     = normalised (stored_preset (EEPROM s) j))
  /\ cell (EEPROM (final r)) PresetRecallBase
     = (if cell (EEPROM s) PresetRecallBase >=? CurrentPresets then 0
        else cell (EEPROM s) PresetRecallBase)
  /\ cell (EEPROM (final r)) BackEMFcountermeasuresRequiredBase
     = cell (EEPROM s) BackEMFcountermeasuresRequiredBase.
Proof.
  cbv zeta. unfold setup_check_presets. run_all.
  generalize (check_presets_spec (Z.to_nat CurrentPresets) 0 s). cbv zeta.
  generalize (check_presets (Z.to_nat CurrentPresets) 0 s).
  intros r (_ & H2 & H3).
  destruct (H3 PresetRecallBase) as [Hd _].
  { right. unfold preset_address, PresetRecallBase, CurrentPresetBase,
      BytesPerPreset, CurrentPresets. lia. }
  destruct (H3 BackEMFcountermeasuresRequiredBase) as [Hf _].
  { right. unfold preset_address, BackEMFcountermeasuresRequiredBase,
      PresetRecallBase, CurrentPresetBase, BytesPerPreset, CurrentPresets.
    lia. }
  assert (Hn : forall j, 0 <= j < CurrentPresets ->
                 stored_preset (EEPROM (final r)) j
                 = normalised (stored_preset (EEPROM s) j)).
  { intros j Hj. apply H2. unfold CurrentPresets in *. cbn. lia. }
  rewrite Hd.
  destruct (cell (EEPROM s) PresetRecallBase >=? CurrentPresets); run_all.
  - cbn [EEPROM set_EEPROM].
    split; [|split].
    + intros j Hj. rewrite <- (Hn j Hj). unfold stored_preset.
      rewrite !cell_insert_ne
        by (unfold preset_address, PresetRecallBase, CurrentPresetBase,
              BytesPerPreset, CurrentPresets in *; lia).
      reflexivity.
    + rewrite cell_insert_eq. reflexivity.
    + rewrite cell_insert_ne by (vm_compute; discriminate). exact Hf.
  - split; [exact Hn|]. split; [exact Hd | exact Hf].
Qed.

(** X11. A setting saved from the menu survives a power cycle: after the
    current limit was stored in the recalled slot (hold of 6 to 9 seconds)
    and that slot made the power-on default (hold of 10 seconds), a start-up
    that reaches normal operation from the resulting EEPROM comes up with
    the same recalled slot and the same current limit, whatever the other
    slots hold. *)
Theorem X11_saved_setting_survives_power_cycle (s boot : State)
    (WhatToDo : Z) (presses presses' : list Press) (mains : Mains) :
  working_in_range s -> 5 < WhatToDo <= 9 ->
  let saved := final (loop_menu 10 presses' (final (loop_menu WhatToDo presses s))) in
  EEPROM boot = EEPROM saved ->
  let r := setup_tail mains boot in
  result r = Normal ->
  CurrentLimit saved = CurrentLimit s
  /\ RecalledPreset saved = RecalledPreset s
  /\ CurrentLimit (final r) = CurrentLimit s
  /\ RecalledPreset (final r) = RecalledPreset s.
Proof.
  intros [Hcl Hrp] HW. cbv zeta.
  assert (Hstore : loop_menu WhatToDo presses s
                   = mkRun Finished
                       (set_EEPROM (write_preset (EEPROM s) (CurrentLimit s)
                                      (RecalledPreset s)) s)
                       (events (StorePreset (CurrentLimit s)
                                  (RecalledPreset s) s))).
  { unfold loop_menu.
    replace ((WhatToDo >=? 0) && (WhatToDo <=? 2)) with false by lia.
    replace ((WhatToDo >? 2) && (WhatToDo <=? 5)) with false by lia.
    replace ((WhatToDo >? 5) && (WhatToDo <=? 9)) with true by lia.
    apply Run_eq; run_all; rewrite ?StorePreset_run, ?app_nil_r;
      reflexivity. }
  rewrite Hstore. cbn [final].
  set (s1 := set_EEPROM _ s).
  assert (Hdefault : final (loop_menu 10 presses' s1)
                     = set_EEPROM (<[PresetRecallBase :=
                                       to_byte (RecalledPreset s1)]>
                                     (EEPROM s1)) s1).
  { unfold loop_menu. cbn [Z.geb Z.leb Z.gtb Z.eqb Z.compare Pos.compare
                           Pos.compare_cont andb Pos.eqb].
    run_all. reflexivity. }
  rewrite Hdefault. subst s1.
  cbn [EEPROM set_EEPROM RecalledPreset CurrentLimit].
  intros Hboot Hn.
  destruct (setup_tail_run mains boot) as (Hr & Hf & _).
  cbv zeta in Hr, Hf. rewrite Hr in Hn. rewrite Hf.
  destruct (setup_check_presets_values boot) as (V1 & V2 & _).
  cbv zeta in V1, V2. rewrite Hboot in V1, V2.
  destruct (setup_qualify_frame mains (final (setup_check_presets boot)))
    as (Q1 & _).
  cbv zeta in Q1. revert Hn Q1.
  generalize (setup_qualify mains (final (setup_check_presets boot))).
  intros q Hn Q1.
  destruct (Z.eq_dec (result q) ErrorNone) as [E|E].
  2:{ destruct (setup_finish_halted (result q) (final q) E) as (H & _).
      cbv zeta in H. rewrite H in Hn. discriminate. }
  rewrite E. destruct (setup_finish_normal (final q)) as (_ & _ & F3 & F4 & _).
  cbv zeta in F3, F4. rewrite F3, F4, Q1. clear F3 F4 Hn E Q1 Hr Hf.
  rewrite cell_insert_eq in V2.
  rewrite to_byte_small in V2 by (unfold CurrentPresets in Hrp; lia).
  replace (RecalledPreset s >=? CurrentPresets) with false in V2 by lia.
  rewrite V2, (V1 _ Hrp). unfold stored_preset at 1.
  rewrite !cell_insert_ne
    by (unfold preset_address, PresetRecallBase, CurrentPresetBase,
          BytesPerPreset, CurrentPresets in *; lia).
  fold (stored_preset (write_preset (EEPROM s) (CurrentLimit s)
                         (RecalledPreset s)) (RecalledPreset s)).
  rewrite stored_preset_write_eq.
  rewrite to_word_small by (unfold MaximumCurrent in Hcl; lia).
  unfold normalised.
  replace (CurrentLimit s >? MaximumCurrent) with false by lia.
  repeat split.
Qed.

Lemma X11_saved_setting_survives_power_cycle_witness :
  let s := set_CurrentLimit 1234 (set_RecalledPreset 6 factory_state) in
  let saved := final (loop_menu 10 [] (final (loop_menu 7 [] s))) in
  let r := setup_tail sine_mains
             (set_EEPROM (EEPROM saved) factory_state) in
  CurrentLimit (final r) = 1234 /\ RecalledPreset (final r) = 6.
Proof.
  destruct (X11_saved_setting_survives_power_cycle
              (set_CurrentLimit 1234 (set_RecalledPreset 6 factory_state))
              (set_EEPROM
                 (EEPROM (final (loop_menu 10 []
                    (final (loop_menu 7 []
                       (set_CurrentLimit 1234
                          (set_RecalledPreset 6 factory_state)))))))
                 factory_state)
              7 [] [] sine_mains) as (_ & _ & H3 & H4).
  - vm_compute. repeat split; discriminate || reflexivity.
  - lia.
  - reflexivity.
  - vm_compute. reflexivity.
  - cbv zeta. split; [exact H3 | exact H4].
Defined.

(** ** The serial commands [READ] and [READ ALL] *)

Lemma serial_numbers_app a b :
  serial_numbers (a ++ b) = serial_numbers a ++ serial_numbers b.
Proof. apply omap_app. Qed.

Lemma serial_lines_app a b :
  serial_lines (a ++ b) = serial_lines a ++ serial_lines b.
Proof. apply omap_app. Qed.

Lemma serial_READ_accepted MemoryToRead s :
  1 <= MemoryToRead <= CurrentPresets ->
  serial_READ MemoryToRead s
  = mkRun true s
      (events (RecallPreset (MemoryToRead - 1) s)
       ++ [Serial_print_number (stored_preset (EEPROM s) (MemoryToRead - 1));
           Serial_println " mA"]).
Proof.
  intros H. unfold serial_READ, memory_in_range.
  unfold CurrentPresets in *.
  replace (MemoryToRead <=? 10) with true by lia.
  replace (MemoryToRead >=? 1) with true by lia.
  replace (MemoryToRead <? 100) with true by lia.
  change (10 >=? 100) with false. change (10 <? 100) with true.
  cbn [andb orb negb].
  rewrite (to_word_small (MemoryToRead - 1)) by lia.
  rewrite (to_byte_small (MemoryToRead - 1)) by lia.
  apply Run_eq; run_all; rewrite ?RecallPreset_run; reflexivity.
Qed.

Lemma serial_READ_rejected MemoryToRead s :
  MemoryToRead < 1 \/ CurrentPresets < MemoryToRead ->
  serial_READ MemoryToRead s = mkRun false s [].
Proof.
  intros H. unfold serial_READ, memory_in_range.
  unfold CurrentPresets in *.
  destruct (MemoryToRead <=? 10) eqn:E1, (MemoryToRead >=? 1) eqn:E3;
    cbn; try reflexivity.
  exfalso. lia.
Qed.

(** X12. [READ <slot>] prints the value a preceding [STORE <slot> <mA>] saved,
    followed by [OK], and changes nothing; reading another slot prints what
    it printed before the [STORE]; and a slot outside [1..CurrentPresets]
    is answered [ERROR] with nothing read. *)
Theorem X12_READ_returns_what_STORE_saved (s : State) (slot mA other : Z)
    (indeterminate : Z) (passes : list SweepPass) :
  1 <= slot <= CurrentPresets -> 0 <= mA <= MaximumCurrent ->
  let stored :=
    final (serial_command (STORE slot (Milliamps mA)) indeterminate passes s) in
  let r := serial_command (READ slot) indeterminate passes stored in
  result r = Some true
  /\ serial_numbers (events r) = [mA]
  /\ serial_lines (events r) = [" mA"; "OK"]
  /\ final r = stored
  /\ (1 <= other <= CurrentPresets -> other <> slot ->
      serial_numbers
        (events (serial_command (READ other) indeterminate passes stored))
      = serial_numbers
          (events (serial_command (READ other) indeterminate passes s)))
  /\ (other < 1 \/ CurrentPresets < other ->
      serial_command (READ other) indeterminate passes stored
      = mkRun (Some false) stored [Serial_println "ERROR"]).
Proof.
  intros Hslot HmA. cbv zeta.
  unfold serial_command, returned, serial_reply. run_all.
  rewrite serial_STORE_value_accepted by (try assumption; lia).
  cbn [final result].
  set (stored := set_EEPROM _ s).
  rewrite (serial_READ_accepted slot stored) by exact Hslot.
  cbn [final result events].
  rewrite !serial_numbers_app, !serial_lines_app, RecallPreset_run.
  cbn [events].
  split; [reflexivity|]. split.
  { subst stored. cbn [EEPROM set_EEPROM]. rewrite stored_preset_write_eq.
    rewrite to_word_small by (unfold MaximumCurrent in HmA; lia).
    reflexivity. }
  split; [reflexivity|]. split; [reflexivity|]. split.
  - intros Ho Hne.
    rewrite (serial_READ_accepted other stored),
      (serial_READ_accepted other s) by exact Ho.
    cbn [final result events].
    rewrite !serial_numbers_app, !RecallPreset_run. cbn [events].
    subst stored. cbn [EEPROM set_EEPROM].
    rewrite stored_preset_write_ne by lia. reflexivity.
  - intros Ho.
    apply Run_eq; run_all; rewrite serial_READ_rejected by exact Ho;
      reflexivity.
Qed.

Lemma X12_READ_returns_what_STORE_saved_witness :
  let stored :=
    final (serial_command (STORE 4 (Milliamps 750)) 0 [] factory_state) in
  serial_numbers (events (serial_command (READ 4) 0 [] stored)) = [750].
Proof.
  destruct (X12_READ_returns_what_STORE_saved factory_state 4 750 11 0 [])
    as (_ & H & _).
  - vm_compute. split; discriminate.
  - vm_compute. split; discriminate.
  - cbv zeta. exact H.
Defined.

Lemma read_all_spec (n : nat) : forall (i : Z) (s : State),
  0 <= i -> i + Z.of_nat n <= 256 ->
  let r := read_all n i s in
  final r = s
  /\ serial_numbers (events r)
     = flat_map (fun j => [j + 1; stored_preset (EEPROM s) j])
         (seqZ i (Z.of_nat n))
  /\ existsb is_EEPROM_write (events r) = false
  /\ existsb is_energising (events r) = false.
Proof.
  induction n as [|n IH]; intros i s Hi Hn; cbv zeta.
  - repeat split.
  - cbn [read_all]. change (CurrentPresets <? 100) with true. cbv iota.
    run_all. rewrite (to_byte_small i) by lia.
    destruct (IH (i + 1) s) as (I1 & I2 & I3 & I4); [lia | lia |].
    cbv zeta in I1, I2, I3, I4.
    rewrite RecallPreset_run. cbn [result final events].
    rewrite I1. split; [reflexivity|].
    replace (Z.of_nat (S n)) with (Z.succ (Z.of_nat n)) by lia.
    rewrite seqZ_cons by lia. cbn [flat_map].
    replace (Z.succ i) with (i + 1) by lia.
    replace (Z.pred (Z.succ (Z.of_nat n))) with (Z.of_nat n) by lia.
    repeat rewrite ?serial_numbers_app, ?existsb_app.
    rewrite I2, I3, I4. repeat split.
Qed.

(** X13. [READ ALL] lists the power-on default and then the ten slots in
    ascending order, each under the number [STORE] and [READ] know it by
    (slot [j] as [j + 1]) with the value stored in it; it is answered [OK]
    and changes neither the globals nor the EEPROM. *)
Theorem X13_READ_ALL_lists_every_slot (s : State) (indeterminate : Z)
    (passes : list SweepPass) :
  let r := serial_command READ_ALL indeterminate passes s in
  result r = Some true
  /\ final r = s
  /\ serial_numbers (events r)
     = to_byte (cell (EEPROM s) PresetRecallBase + 1)
       :: flat_map (fun j => [j + 1; stored_preset (EEPROM s) j])
            (seqZ 0 CurrentPresets)
  /\ last (events r) = Some (Serial_println "OK")
  /\ existsb is_EEPROM_write (events r) = false.
Proof.
  cbv zeta. unfold serial_command, returned, serial_reply, serial_READ_ALL.
  run_all.
  change (CurrentPresets <? 100) with true. cbv iota.
  destruct (read_all_spec (Z.to_nat CurrentPresets) 0 s)
    as (R1 & R2 & R3 & _); [lia | vm_compute; discriminate |].
  cbv zeta in R1, R2, R3.
  change (Z.of_nat (Z.to_nat CurrentPresets)) with CurrentPresets in R2.
  revert R1 R2 R3. generalize (read_all (Z.to_nat CurrentPresets) 0 s).
  intros q R1 R2 R3. rewrite R1.
  repeat rewrite ?serial_numbers_app, ?existsb_app.
  rewrite R2, R3.
  split; [reflexivity|]. split; [reflexivity|]. split; [reflexivity|].
  split; [|reflexivity].
  rewrite !app_nil_r, !app_assoc. apply last_snoc.
Qed.

(** ** The countermeasure flag: what persists and what does not *)

Lemma setup_read_BackEMF_flag s :
  BackEMFcountermeasuresRequired (final (setup_read_BackEMF s))
  = negb (cell (EEPROM s) BackEMFcountermeasuresRequiredBase =? 0)
  /\ EEPROM (final (setup_read_BackEMF s)) = EEPROM s.
Proof.
  unfold setup_read_BackEMF. run_all.
  cbn [BackEMFcountermeasuresRequired set_BackEMFcountermeasuresRequired].
  unfold bool_of_int.
  destruct (cell (EEPROM s) BackEMFcountermeasuresRequiredBase =? 0);
    cbn [negb Bool.eqb andb]; run_all; split; reflexivity.
Qed.

Lemma flag_cell_read_back (m : gmap Z Z) (f : bool) :
  negb (cell (<[BackEMFcountermeasuresRequiredBase := to_byte (int_of_bool f)]> m)
          BackEMFcountermeasuresRequiredBase =? 0) = f.
Proof. rewrite cell_insert_eq. destruct f; reflexivity. Qed.

Lemma flag_write_keeps_presets (m : gmap Z Z) (v j : Z) :
  0 <= j < CurrentPresets ->
  stored_preset (<[BackEMFcountermeasuresRequiredBase := v]> m) j
  = stored_preset m j.
Proof.
  intros Hj. unfold stored_preset.
  rewrite !cell_insert_ne
    by (unfold preset_address, BackEMFcountermeasuresRequiredBase,
          PresetRecallBase, CurrentPresetBase, BytesPerPreset,
          CurrentPresets in *; lia).
  reflexivity.
Qed.

(** X14. [BACK_EMF ON] and [BACK_EMF OFF] set the flag and make it the one
    the next power-on reads back; they leave the presets and the power-on
    default alone.  [BACK_EMF CHECK] reports the flag and changes nothing,
    and any other field is answered [ERROR] with nothing done. *)
Theorem X14_BACK_EMF_setting_persists (s boot : State) (on : bool)
    (indeterminate : Z) (passes : list SweepPass) (j : Z) :
  0 <= j < CurrentPresets ->
  let r := serial_command (BACK_EMF (if on then ON else OFF))
             indeterminate passes s in
  EEPROM boot = EEPROM (final r) ->
  let check := serial_command (BACK_EMF CHECK) indeterminate passes s in
  result r = Some true
  /\ BackEMFcountermeasuresRequired (final r) = on
  /\ BackEMFcountermeasuresRequired (final (setup_read_BackEMF boot)) = on
  /\ stored_preset (EEPROM (final r)) j = stored_preset (EEPROM s) j
  /\ cell (EEPROM (final r)) PresetRecallBase
     = cell (EEPROM s) PresetRecallBase
  /\ final check = s
  /\ serial_lines (events check)
     = [if BackEMFcountermeasuresRequired s then "enabled" else "disabled";
        "OK"]
  /\ existsb is_EEPROM_write (events check) = false
  /\ serial_command (BACK_EMF OtherField) indeterminate passes s
     = mkRun (Some false) s [Serial_println "ERROR"].
Proof.
  intros Hj. cbv zeta. intros Hboot.
  destruct (setup_read_BackEMF_flag boot) as [B1 _]. rewrite B1, Hboot.
  clear B1 Hboot.
  assert (Hr : final (serial_command (BACK_EMF (if on then ON else OFF))
                        indeterminate passes s)
               = set_EEPROM
                   (<[BackEMFcountermeasuresRequiredBase :=
                        to_byte (int_of_bool on)]> (EEPROM s))
                   (set_BackEMFcountermeasuresRequired on s)
               /\ result (serial_command (BACK_EMF (if on then ON else OFF))
                            indeterminate passes s) = Some true).
  { unfold serial_command, returned, serial_reply.
    destruct on; cbn [serial_BACK_EMF]; run_all; split; reflexivity. }
  destruct Hr as [-> ->].
  cbn [EEPROM set_EEPROM BackEMFcountermeasuresRequired
       set_BackEMFcountermeasuresRequired].
  rewrite flag_cell_read_back, flag_write_keeps_presets by exact Hj.
  rewrite cell_insert_ne by (vm_compute; discriminate).
  split; [reflexivity|]. split; [destruct s; reflexivity|].
  split; [reflexivity|]. split; [reflexivity|]. split; [reflexivity|].
  unfold serial_command, returned, serial_reply. cbn [serial_BACK_EMF].
  run_all.
  destruct (BackEMFcountermeasuresRequired s); repeat split.
Qed.

Lemma X14_BACK_EMF_setting_persists_witness :
  let r := serial_command (BACK_EMF ON) 0 [] factory_state in
  BackEMFcountermeasuresRequired
    (final (setup_read_BackEMF (set_EEPROM (EEPROM (final r)) factory_state)))
  = true.
Proof.
  destruct (X14_BACK_EMF_setting_persists factory_state
              (set_EEPROM
                 (EEPROM (final (serial_command (BACK_EMF ON) 0 []
                                   factory_state))) factory_state)
              true 0 [] 0) as (_ & _ & H & _).
  - vm_compute. split; [discriminate | reflexivity].
  - reflexivity.
  - cbv zeta. exact H.
Defined.

(** X15. The two toggles of the countermeasure flag at power-on differ in
    what they keep.  A hold of 2-4 seconds inverts the flag for this run
    only: the EEPROM is not written, so the next power-on reads the old
    setting.  A hold of 10 seconds or more on the calibration screen
    inverts the flag, writes it to the EEPROM so that the next power-on
    reads the new setting, and leaves the unit in diagnostic mode with the
    current limit at [MaximumCurrent] and the presets as they were. *)
Theorem X15_toggle_temporary_or_permanent (s boot : State) (p : Press)
    (passes : list SweepPass) (j : Z) :
  10 <= seconds_held p -> 0 <= j < CurrentPresets ->
  let t := setup_temporary_toggle s in
  let c := setup_calibration p passes s in
  EEPROM boot = EEPROM (final c) ->
  BackEMFcountermeasuresRequired (final t)
  = negb (BackEMFcountermeasuresRequired s)
  /\ EEPROM (final t) = EEPROM s
  /\ existsb is_EEPROM_write (events t) = false
  /\ BackEMFcountermeasuresRequired (final c)
     = negb (BackEMFcountermeasuresRequired s)
  /\ BackEMFcountermeasuresRequired (final (setup_read_BackEMF boot))
     = negb (BackEMFcountermeasuresRequired s)
  /\ DummyZeroCrossingIRQenable (final c) = true
  /\ CurrentLimit (final c) = MaximumCurrent
  /\ stored_preset (EEPROM (final c)) j = stored_preset (EEPROM s) j
  /\ duty_writes (events c) = [1].
Proof.
  intros Hp Hj. cbv zeta. intros Hboot.
  destruct (setup_read_BackEMF_flag boot) as [B1 _]. rewrite B1, Hboot.
  clear B1 Hboot.
  assert (Hc : final (setup_calibration p passes s)
               = set_DummyZeroCrossingIRQenable true
                   (set_EEPROM
                      (<[BackEMFcountermeasuresRequiredBase :=
                           to_byte (int_of_bool
                                      (negb (BackEMFcountermeasuresRequired s)))]>
                         (EEPROM s))
                      (set_BackEMFcountermeasuresRequired
                         (negb (BackEMFcountermeasuresRequired s))
                         (set_CurrentLimit (to_word MaximumCurrent) s)))
               /\ duty_writes (events (setup_calibration p passes s)) = [1]).
  { unfold setup_calibration. run_all. rewrite result_TimePushbuttonHeld.
    replace (seconds_held p >=? 10) with true by lia. run_all.
    split; [destruct s; reflexivity|].
    repeat rewrite ?duty_writes_app.
    rewrite WriteCurrentLimit_duty.
    destruct p; reflexivity. }
  destruct Hc as [-> ->].
  cbn [EEPROM set_EEPROM BackEMFcountermeasuresRequired
       set_BackEMFcountermeasuresRequired set_DummyZeroCrossingIRQenable
       DummyZeroCrossingIRQenable CurrentLimit set_CurrentLimit].
  rewrite flag_cell_read_back, flag_write_keeps_presets by exact Hj.
  unfold setup_temporary_toggle. run_all.
  destruct s as [m t cl rp b d z oc eo]; destruct b; repeat split.
Qed.

Lemma X15_toggle_temporary_or_permanent_witness :
  let c := setup_calibration (HeldFor 150) [] factory_state in
  BackEMFcountermeasuresRequired (final c) = true
  /\ DummyZeroCrossingIRQenable (final c) = true.
Proof.
  destruct (X15_toggle_temporary_or_permanent factory_state
              (set_EEPROM
                 (EEPROM (final (setup_calibration (HeldFor 150) []
                                   factory_state))) factory_state)
              (HeldFor 150) [] 0) as (_ & _ & _ & H4 & _ & H6 & _).
  - vm_compute. discriminate.
  - vm_compute. split; [discriminate | reflexivity].
  - reflexivity.
  - cbv zeta. split; [exact H4 | exact H6].
Defined.

(** ** The load percentage *)

(** X16. The percentage shown for the load is the elapsed part of the half
    cycle, [elapsed * 100 / HalfPeriod], capped at 100.  The subtraction of
    the two [micros()] readings is done modulo 2^32, so the result is the
    same when the counter wrapped between them; it is exact as long as
    [elapsed * 100] fits 32 bits. *)
Theorem X16_LoadPercentage_wrap_safe (ZeroCrossingStart elapsed HalfPeriod : Z) :
  0 <= ZeroCrossingStart < 4294967296 ->
  0 <= elapsed -> elapsed * 100 < 4294967296 -> 0 < HalfPeriod ->
  let micros := to_ulong (ZeroCrossingStart + elapsed) in
  LoadPercentage micros ZeroCrossingStart HalfPeriod
  = Z.min 100 (elapsed * 100 / HalfPeriod)
  /\ 0 <= LoadPercentage micros ZeroCrossingStart HalfPeriod <= 100
  /\ (HalfPeriod <= elapsed ->
      LoadPercentage micros ZeroCrossingStart HalfPeriod = 100).
Proof.
  intros Hs He Hm Hh. cbv zeta.
  assert (Hq : 0 <= elapsed * 100 / HalfPeriod)
    by (apply Z.div_pos; lia).
  assert (H : LoadPercentage (to_ulong (ZeroCrossingStart + elapsed))
                ZeroCrossingStart HalfPeriod
              = Z.min 100 (elapsed * 100 / HalfPeriod)).
  { unfold LoadPercentage, to_ulong. cbv zeta.
    rewrite Z.mod_mod by lia.
    rewrite <- Zminus_mod.
    replace (ZeroCrossingStart + elapsed - ZeroCrossingStart) with elapsed
      by lia.
    rewrite (Z.mod_small elapsed) by lia.
    rewrite (Z.mod_small (elapsed * 100)) by lia.
    destruct (Z.gtb_spec (elapsed * 100 / HalfPeriod) 100).
    - rewrite Z.min_l by lia. reflexivity.
    - rewrite Z.min_r by lia. apply to_byte_small. lia. }
  rewrite H. split; [reflexivity|]. split; [lia|].
  intros Hle. apply Z.min_l.
  apply Z.div_le_lower_bound; lia.
Qed.

Lemma X16_LoadPercentage_wrap_safe_witness :
  LoadPercentage (to_ulong (4294967000 + 9000)) 4294967000 10000 = 90.
Proof.
  destruct (X16_LoadPercentage_wrap_safe 4294967000 9000 10000)
    as (H & _); try lia.
  cbv zeta in H. rewrite H. reflexivity.
Defined.

(** ** The serial command [COMP_TEST] *)

Lemma comp_test_loop_spec (rounds : list CompRound) : forall s,
  let r := comp_test_loop rounds s in
  final r = set_OvercurrentSensed (OvercurrentSensed (final r)) s
  /\ existsb is_EEPROM_write (events r) = false
  /\ existsb is_energising (events r) = false
  /\ duty_writes (events r) = []
  /\ (length (List.filter is_comp_report (events r)) <= length rounds)%nat
  /\ (result r = Finished <-> existsb comp_serial rounds = true)
  /\ (result r = Finished ->
      last (serial_lines (events r))
      = Some "End of overcurrent comparator test").
Proof.
  induction rounds as [|q rest IH]; intros s; cbv zeta.
  - cbn. repeat split; try discriminate; try lia. destruct s; reflexivity.
  - cbn [comp_test_loop existsb length]. run.
    set (m1 := when (comp_interrupt q) OvercurrentIRQ).
    set (s1 := final (m1 s)).
    assert (H1 : s1 = set_OvercurrentSensed (OvercurrentSensed s1) s
                 /\ existsb is_EEPROM_write (events (m1 s)) = false
                 /\ existsb is_energising (events (m1 s)) = false
                 /\ duty_writes (events (m1 s)) = []
                 /\ List.filter is_comp_report (events (m1 s)) = []
                 /\ serial_lines (events (m1 s)) = []).
    { subst s1 m1. destruct (comp_interrupt q), s; repeat split. }
    destruct H1 as (A1 & A2 & A3 & A4 & A5 & A6).
    set (m2 := if Bool.eqb (OvercurrentSensed s1) true then ret false
               else
                 emit (digitalRead OvercurrentIRQpin (negb (comp_pin_low q))) ;;
                 ret (comp_pin_low q)).
    assert (H2 : final (m2 s1) = s1
                 /\ existsb is_EEPROM_write (events (m2 s1)) = false
                 /\ existsb is_energising (events (m2 s1)) = false
                 /\ duty_writes (events (m2 s1)) = []
                 /\ List.filter is_comp_report (events (m2 s1)) = []
                 /\ serial_lines (events (m2 s1)) = []).
    { subst m2. destruct (Bool.eqb (OvercurrentSensed s1) true);
        repeat split. }
    destruct H2 as (B1 & B2 & B3 & B4 & B5 & B6). rewrite !B1.
    set (m3 := when (Bool.eqb (OvercurrentSensed s1) true || result (m2 s1))
                 _).
    set (s3 := final (m3 s1)).
    assert (H3 : s3 = set_OvercurrentSensed (OvercurrentSensed s3) s
                 /\ existsb is_EEPROM_write (events (m3 s1)) = false
                 /\ existsb is_energising (events (m3 s1)) = false
                 /\ duty_writes (events (m3 s1)) = []
                 /\ (length (List.filter is_comp_report (events (m3 s1)))
                     <= 1)%nat).
    { subst s3 m3.
      generalize (Bool.eqb (OvercurrentSensed s1) true || result (m2 s1)).
      intros c.
      assert (Hs1 : exists o, s1 = set_OvercurrentSensed o s)
        by (eexists; exact A1).
      destruct Hs1 as [o Ho]. rewrite Ho.
      destruct c; [|destruct s; repeat split; cbn; lia].
      unfold when. run.
      destruct (comp_interrupt_late q), o, s; repeat split; cbn; lia. }
    destruct H3 as (Hc1 & Hc2 & Hc3 & Hc4 & Hc5).
    destruct (comp_serial q) eqn:Hq; run.
    + cbn [orb]. rewrite !existsb_app, !duty_writes_app, !List.filter_app,
        !length_app, !serial_lines_app, A2, A3, A4, A5, B2, B3, B4, B5, Hc2,
        Hc3, Hc4.
      cbn [app length existsb is_EEPROM_write is_energising orb duty_writes
           omap List.filter is_comp_report String.eqb Ascii.eqb Bool.eqb].
      split; [exact Hc1|]. split; [reflexivity|]. split; [reflexivity|].
      split; [reflexivity|]. split; [cbn; lia|]. split; [tauto|].
      intros _.
      repeat (rewrite last_app; cbn [serial_lines omap last]). reflexivity.
    + cbn [orb].
      destruct (IH s3) as (I1 & I2 & I3 & I4 & I5 & I6 & I7).
      cbv zeta in I1, I2, I3, I4, I5, I6, I7.
      rewrite !existsb_app, !duty_writes_app, !List.filter_app,
        !length_app, !serial_lines_app, A2, A3, A4, A5, B2, B3, B4, B5, Hc2,
        Hc3, Hc4, I2, I3, I4.
      cbn [app length existsb is_EEPROM_write is_energising orb duty_writes
           omap List.filter is_comp_report].
      split.
      { rewrite I1 at 1. rewrite Hc1. destruct s; reflexivity. }
      split; [reflexivity|]. split; [reflexivity|]. split; [reflexivity|].
      split; [cbn; lia|]. split; [exact I6|].
      intros Hf. specialize (I7 Hf). revert I7.
      generalize (serial_lines (events (comp_test_loop rest s3))).
      intros L HL.
      repeat (rewrite last_app; cbn [serial_lines omap last]; rewrite ?HL).
      reflexivity.
Qed.

(** X17. [COMP_TEST <mA>] with a value above [MaximumCurrent] is refused
    with nothing done.  Otherwise the value becomes the current limit, its
    duty code is the only one handed to the PWM driver, the EEPROM, the
    recalled preset and the output request are left alone, there is at most
    one report per round of the test, and the test ends exactly when a
    serial byte arrives; [DisableInterrupts] is then the last thing done,
    so the triggers are disarmed and the output pin is driven low. *)
Theorem X17_COMP_TEST_programs_the_threshold (s : State) (CurrentToTest : Z)
    (rounds : list CompRound) :
  0 <= CurrentToTest ->
  let r := serial_COMP_TEST CurrentToTest rounds s in
  (MaximumCurrent < CurrentToTest -> r = mkRun (Some false) s [])
  /\ (CurrentToTest <= MaximumCurrent ->
      CurrentLimit (final r) = CurrentToTest
      /\ duty_writes (events r) = [MaximumCurrent + 1 - CurrentToTest]
      /\ EEPROM (final r) = EEPROM s
      /\ RecalledPreset (final r) = RecalledPreset s
      /\ EnableOutput (final r) = EnableOutput s
      /\ existsb is_EEPROM_write (events r) = false
      /\ existsb is_energising (events r) = false
      /\ (length (List.filter is_comp_report (events r)) <= length rounds)%nat
      /\ (existsb comp_serial rounds = true ->
          result r = Some true /\ last_output_write (events r) = Some LOW
          /\ exists before, events r = before ++ DisableInterrupts_events)
      /\ (existsb comp_serial rounds = false -> result r = None)).
Proof.
  intros H0. cbv zeta. unfold serial_COMP_TEST. split.
  - intros Hgt. replace (CurrentToTest <=? MaximumCurrent) with false by lia.
    reflexivity.
  - intros Hle. replace (CurrentToTest <=? MaximumCurrent) with true by lia.
    run_all.
    set (s1 := set_OvercurrentSensed false (set_CurrentLimit CurrentToTest s)).
    destruct (comp_test_loop_spec rounds s1)
      as (L1 & L2 & L3 & L4 & L5 & L6 & _).
    cbv zeta in L1, L2, L3, L4, L5, L6.
    assert (Hw : duty_writes
                   (events (WriteCurrentLimit false false
                              (set_CurrentLimit CurrentToTest s)))
                 = [MaximumCurrent + 1 - CurrentToTest]
                 /\ existsb is_EEPROM_write
                      (events (WriteCurrentLimit false false
                                 (set_CurrentLimit CurrentToTest s))) = false
                 /\ existsb is_energising
                      (events (WriteCurrentLimit false false
                                 (set_CurrentLimit CurrentToTest s))) = false
                 /\ List.filter is_comp_report
                      (events (WriteCurrentLimit false false
                                 (set_CurrentLimit CurrentToTest s))) = []).
    { split; [|repeat split].
      rewrite WriteCurrentLimit_duty.
      rewrite dutyCode_in_range by (destruct s; cbn; lia).
      destruct s; reflexivity. }
    destruct Hw as (W1 & W2 & W3 & W4).
    revert L1 L2 L3 L4 L5 L6. generalize (comp_test_loop rounds s1).
    intros q L1 L2 L3 L4 L5 L6.
    assert (Hend : forall (k : Progress -> M (option bool)),
              k = (fun p => match p with
                            | Finished => DisableInterrupts ;; ret (Some true)
                            | StillBusy => ret None
                            end) ->
              final (k (result q) (final q)) = final q
              /\ duty_writes (events (k (result q) (final q))) = []
              /\ existsb is_EEPROM_write (events (k (result q) (final q)))
                 = false
              /\ existsb is_energising (events (k (result q) (final q)))
                 = false
              /\ List.filter is_comp_report (events (k (result q) (final q)))
                 = []
              /\ (result q = Finished ->
                  result (k (result q) (final q)) = Some true
                  /\ last_output_write (events (k (result q) (final q)))
                     = Some LOW
                  /\ events (k (result q) (final q))
                     = DisableInterrupts_events)
              /\ (result q = StillBusy ->
                  result (k (result q) (final q)) = None)).
    { intros k ->. destruct (result q); repeat split; discriminate. }
    destruct (Hend _ eq_refl) as (E1 & E2 & E3 & E4 & E5 & E6 & E7).
    repeat rewrite ?duty_writes_app, ?existsb_app, ?List.filter_app,
      ?length_app.
    rewrite W1, W2, W3, W4, L2, L3, L4, E2, E3, E4, E5.
    rewrite E1.
    assert (P : CurrentLimit (final q) = CurrentToTest
                /\ EEPROM (final q) = EEPROM s
                /\ RecalledPreset (final q) = RecalledPreset s
                /\ EnableOutput (final q) = EnableOutput s)
      by (rewrite L1; subst s1; destruct s; repeat split).
    destruct P as (P1 & P2 & P3 & P4). rewrite P1, P2, P3, P4.
    split; [reflexivity|]. split; [reflexivity|]. split; [reflexivity|].
    split; [reflexivity|]. split; [reflexivity|]. split; [reflexivity|].
    split; [reflexivity|]. split; [cbn; lia|]. split.
    + intros Hs. apply L6 in Hs. destruct (E6 Hs) as (R1 & R2 & R3).
      split; [exact R1|]. split.
      * rewrite !last_output_write_app, R2. reflexivity.
      * rewrite R3, !app_assoc. eexists. reflexivity.
    + intros Hs. apply E7. destruct (result q); [|reflexivity].
      rewrite (proj1 L6 eq_refl) in Hs. discriminate.
Qed.

Lemma X17_COMP_TEST_programs_the_threshold_witness :
  let r := serial_COMP_TEST 2500
             [Build_CompRound true false false false;
              Build_CompRound false false false true] factory_state in
  CurrentLimit (final r) = 2500 /\ result r = Some true.
Proof.
  destruct (X17_COMP_TEST_programs_the_threshold factory_state 2500
              [Build_CompRound true false false false;
               Build_CompRound false false false true]) as [_ H].
  - lia.
  - destruct H as (H1 & _ & _ & _ & _ & _ & _ & _ & H9 & _).
    + vm_compute. discriminate.
    + destruct H9 as (H9 & _); [reflexivity|].
      cbv zeta. split; [exact H1 | exact H9].
Defined.

(** ** What the serial commands and the calibration screen leave alone *)

Lemma print_zeros_quiet (n : nat) s :
  final (print_zeros n s) = s
  /\ existsb is_EEPROM_write (events (print_zeros n s)) = false
  /\ existsb is_energising (events (print_zeros n s)) = false.
Proof.
  induction n as [|n IH]; [repeat split|].
  cbn [print_zeros]. run_all. destruct IH as (I1 & I2 & I3).
  rewrite !existsb_app, I1, I2, I3. repeat split.
Qed.

Lemma sweep_for_keeps (c : Channel) (fuel : nat) : forall i env s,
  let r := sweep_for c fuel i env s in
  (exists limit sensed,
     final r = set_OvercurrentSensed sensed (set_CurrentLimit limit s))
  /\ existsb is_EEPROM_write (events r) = false
  /\ existsb is_energising (events r) = false.
Proof.
  induction fuel as [|fuel IH]; intros i env s; cbv zeta.
  - split; [|split; reflexivity].
    exists (CurrentLimit s), (OvercurrentSensed s). destruct s; reflexivity.
  - cbn [sweep_for]. unfold poll_stop. run_all.
    destruct (stop (env i)) eqn:Hstop; run_all.
    { split; [|split; destruct c; reflexivity].
      exists (CurrentLimit s), (OvercurrentSensed s). destruct s; reflexivity. }
    set (s1 := final (WriteCurrentLimit true (trip_settling (env i))
                        (set_CurrentLimit i s))).
    set (e1 := events (WriteCurrentLimit true (trip_settling (env i))
                         (set_CurrentLimit i s))).
    assert (H1 : (exists sensed,
                    s1 = set_OvercurrentSensed sensed (set_CurrentLimit i s))
                 /\ existsb is_EEPROM_write e1 = false
                 /\ existsb is_energising e1 = false).
    { subst s1 e1. unfold WriteCurrentLimit. run_all.
      cbn [negb CurrentLimit set_CurrentLimit].
      destruct (i =? 0), (trip_settling (env i)), s as [m t cl rp b d z oc eo];
        cbn; (split; [eexists; reflexivity | split; reflexivity]). }
    destruct H1 as ([o1 Hs1] & E1 & E2).
    set (s2 := final (when (trip_settled (env i)) OvercurrentIRQ s1)).
    set (e2 := events (when (trip_settled (env i)) OvercurrentIRQ s1)).
    assert (H2 : (exists sensed,
                    s2 = set_OvercurrentSensed sensed (set_CurrentLimit i s))
                 /\ existsb is_EEPROM_write e2 = false
                 /\ existsb is_energising e2 = false).
    { subst s2 e2. rewrite Hs1.
      destruct (trip_settled (env i)), s as [m t cl rp b d z oc eo];
        cbn; (split; [eexists; reflexivity | split; reflexivity]). }
    destruct H2 as ([o2 Hs2] & E3 & E4).
    destruct (OvercurrentSensed s2) eqn:Ho; run_all.
    + unfold report_trip. run_all.
      destruct (print_zeros_quiet (ZeroCount (CurrentLimit s2)) s2)
        as (Z1 & Z2 & Z3).
      destruct c; run_all; rewrite ?Z1; repeat rewrite ?existsb_app;
        rewrite ?Z2, ?Z3, E1, E2, E3, E4;
        (split; [exists i, o2; exact Hs2 | split; reflexivity]).
    + set (m3 := when (negb false && (CurrentLimit s2 =? MaximumCurrent))
                   (report_out_of_limits c)).
      assert (H3 : final (m3 s2) = s2
                   /\ existsb is_EEPROM_write (events (m3 s2)) = false
                   /\ existsb is_energising (events (m3 s2)) = false).
      { subst m3. destruct (negb false && (CurrentLimit s2 =? MaximumCurrent));
          destruct c; repeat split. }
      destruct H3 as (F1 & F2 & F3). rewrite F1.
      destruct (IH (to_word (i + 1)) env s2) as ([l [o Hf]] & I2 & I3).
      cbv zeta in Hf, I2, I3.
      repeat rewrite ?existsb_app.
      rewrite E1, E2, E3, E4, F2, F3, I2, I3.
      split; [|split; destruct c; reflexivity].
      exists l, o. rewrite Hf, Hs2. destruct s; reflexivity.
Qed.

Lemma sweep_keeps (c : Channel) (passes : list SweepPass) : forall s,
  let r := sweep c passes s in
  (exists limit sensed,
     final r = set_OvercurrentSensed sensed (set_CurrentLimit limit s))
  /\ existsb is_EEPROM_write (events r) = false
  /\ existsb is_energising (events r) = false.
Proof.
  induction passes as [|p rest IH]; intros s; cbv zeta.
  - split; [|split; reflexivity].
    exists (CurrentLimit s), (OvercurrentSensed s). destruct s; reflexivity.
  - cbn [sweep]. unfold poll_stop, sweep_pass. run_all.
    destruct (stop_before p); run_all.
    { split; [|split; destruct c; reflexivity].
      exists (CurrentLimit s), (OvercurrentSensed s). destruct s; reflexivity. }
    destruct (sweep_for_keeps c (Z.to_nat (MaximumCurrent + 1)) 0 (steps p) s)
      as ([l1 [o1 H1]] & A2 & A3).
    cbv zeta in H1, A2, A3. revert H1 A2 A3.
    generalize (sweep_for c (Z.to_nat (MaximumCurrent + 1)) 0 (steps p) s).
    intros q H1 A2 A3.
    destruct (IH (final q)) as ([l [o Hf]] & I2 & I3).
    cbv zeta in Hf, I2, I3.
    repeat rewrite ?existsb_app. rewrite A2, A3, I2, I3.
    split; [|split; destruct c; reflexivity].
    exists l, o. rewrite Hf, H1. destruct s; reflexivity.
Qed.

Lemma serial_STORE_quiet MemoryToStore field indeterminate s :
  let r := serial_STORE MemoryToStore field indeterminate s in
  EnableOutput (final r) = EnableOutput s
  /\ existsb is_energising (events r) = false.
Proof.
  cbv zeta. unfold serial_STORE.
  match goal with
  | |- context [if ?c then _ else _] => destruct c
  end; [|split; reflexivity].
  run_all. destruct field; cbn [negb]; rewrite ?StorePreset_run;
    split; reflexivity.
Qed.

Lemma returned_reply (command : M bool) (s : State) :
  (ended <- returned command ;; serial_reply ended) s
  = mkRun (Some (result (command s))) (final (command s))
      (events (command s)
       ++ [Serial_println (if result (command s) then "OK" else "ERROR")]).
Proof.
  unfold returned, serial_reply.
  apply Run_eq; run; rewrite ?app_nil_r; destruct (result (command s));
    reflexivity.
Qed.

Lemma result_returned_reply (command : M bool) (s : State) :
  result ((ended <- returned command ;; serial_reply ended) s)
  = Some (result (command s)).
Proof. rewrite returned_reply. reflexivity. Qed.

Lemma final_returned_reply (command : M bool) (s : State) :
  final ((ended <- returned command ;; serial_reply ended) s)
  = final (command s).
Proof. rewrite returned_reply. reflexivity. Qed.

Lemma events_returned_reply (command : M bool) (s : State) :
  events ((ended <- returned command ;; serial_reply ended) s)
  = events (command s)
    ++ [Serial_println (if result (command s) then "OK" else "ERROR")].
Proof. rewrite returned_reply. reflexivity. Qed.

Lemma serial_STORE_valid MemoryToStore field indeterminate s :
  result (serial_STORE MemoryToStore field indeterminate s)
  = memory_in_range MemoryToStore
    && (match field with
        | DEFAULT => indeterminate
        | Milliamps ValueToStore => ValueToStore
        end <=? MaximumCurrent).
Proof.
  unfold serial_STORE, memory_in_range.
  destruct field;
    match goal with
    | |- context [?v <=? MaximumCurrent] =>
        destruct (MemoryToStore <=? CurrentPresets), (v <=? MaximumCurrent),
          (MemoryToStore >=? 1), (MemoryToStore <? 100)
    end; reflexivity.
Qed.

Lemma serial_READ_ALL_frame (s : State) :
  result (serial_READ_ALL s) = true
  /\ final (serial_READ_ALL s) = s
  /\ existsb is_EEPROM_write (events (serial_READ_ALL s)) = false
  /\ existsb is_energising (events (serial_READ_ALL s)) = false.
Proof.
  unfold serial_READ_ALL. run_all.
  destruct (read_all_spec (Z.to_nat CurrentPresets) 0 s)
    as (R1 & _ & R3 & R4); [lia | vm_compute; discriminate |].
  cbv zeta in R1, R3, R4. revert R1 R3 R4.
  generalize (read_all (Z.to_nat CurrentPresets) 0 s). intros q R1 R3 R4.
  rewrite R1, !existsb_app, R3, R4. repeat split.
Qed.

(** X18. Each of the commands [STORE], [READ], [READ ALL], [CALIBRATE] and
    [BACK_EMF], and a line that is none of the known commands, returns at
    once and is closed by one line, [OK] or [ERROR]: [READ ALL] and
    [CALIBRATE] are always valid, [READ] and [STORE] exactly when the slot
    is one of [1..CurrentPresets] (and, for [STORE], the value the test
    reads is at most [MaximumCurrent]), [BACK_EMF] with [ON], [OFF] or
    [CHECK], an unknown line never.  [CURRENT_SWEEP] is answered [OK] only
    once the sweep was stopped; while it runs nothing follows the sweep's
    own output.  No command raises the output request or writes the output
    pin high, and only [STORE] and [BACK_EMF ON]/[OFF] write the EEPROM:
    after any other it is as it was. *)
Theorem X18_serial_command_reply_and_writes (command : Command)
    (indeterminate : Z) (passes : list SweepPass) (s : State) :
  let r := serial_command command indeterminate passes s in
  let swept := sweep OnSerial passes s in
  result r
  = match command with
    | STORE MemoryToStore field =>
        Some (memory_in_range MemoryToStore
              && (match field with
                  | DEFAULT => indeterminate
                  | Milliamps ValueToStore => ValueToStore
                  end <=? MaximumCurrent))
    | READ_ALL | CALIBRATE => Some true
    | READ MemoryToRead => Some (memory_in_range MemoryToRead)
    | BACK_EMF OtherField | Unrecognised => Some false
    | BACK_EMF _ => Some true
    | CURRENT_SWEEP =>
        match result swept with
        | Finished => Some true
        | StillBusy => None
        end
    end
  /\ match result r with
     | Some ValidField =>
         last (events r)
         = Some (Serial_println (if ValidField then "OK" else "ERROR"))
     | None => events r = EnableInterrupts_events ++ events swept
     end
  /\ EnableOutput (final r) = EnableOutput s
  /\ existsb is_energising (events r) = false
  /\ match command with
     | STORE _ _ | BACK_EMF ON | BACK_EMF OFF => True
     | _ =>
         EEPROM (final r) = EEPROM s
         /\ existsb is_EEPROM_write (events r) = false
     end.
Proof.
  cbv zeta. unfold serial_command.
  destruct command as [MemoryToStore field| |MemoryToRead| |field| |];
    rewrite ?result_returned_reply, ?final_returned_reply,
      ?events_returned_reply.
  - rewrite serial_STORE_valid.
    destruct (serial_STORE_quiet MemoryToStore field indeterminate s)
      as [H1 H2].
    cbv zeta in H1, H2.
    rewrite last_snoc, existsb_app, H1, H2. repeat split.
  - destruct (serial_READ_ALL_frame s) as (R1 & R2 & R3 & R4).
    revert R1 R2 R3 R4. generalize (serial_READ_ALL s).
    intros q R1 R2 R3 R4.
    rewrite R1, R2, last_snoc, !existsb_app, R3, R4. repeat split.
  - unfold serial_READ.
    destruct (memory_in_range MemoryToRead); run_all;
      rewrite ?RecallPreset_run, last_snoc; repeat split.
  - unfold serial_CALIBRATE. run_all. rewrite last_snoc.
    destruct s as [m t cl rp b d z oc eo]. repeat split.
  - rewrite last_snoc.
    destruct field; cbn [serial_BACK_EMF]; run_all;
      destruct s as [m t cl rp b d z oc eo]; repeat split.
  - unfold serial_CURRENT_SWEEP, serial_reply. run_all.
    destruct (sweep_keeps OnSerial passes s) as ([l [o Hf]] & S2 & S3).
    cbv zeta in Hf, S2, S3. revert Hf S2 S3.
    generalize (sweep OnSerial passes s). intros q Hf S2 S3.
    destruct (result q); run_all; rewrite Hf, ?app_nil_r, !existsb_app,
      S2, S3; destruct s as [m t cl rp b d z oc eo].
    + split; [reflexivity|]. split; [|repeat split].
      rewrite !app_assoc. apply last_snoc.
    + repeat split.
  - repeat split.
Qed.

Lemma setup_calibration_quiet (s : State) (p : Press)
    (passes : list SweepPass) :
  let c := setup_calibration p passes s in
  let swept :=
    sweep OnLCD passes (set_CurrentLimit (to_word MaximumCurrent) s) in
  EnableOutput (final c) = EnableOutput s
  /\ RecalledPreset (final c) = RecalledPreset s
  /\ existsb is_energising (events c) = false
  /\ hd_error (duty_writes (events c))
     = Some (MaximumCurrent + 1 - MaximumCurrent)
  /\ result c
     = (if (seconds_held p >=? 5) && (seconds_held p <=? 9) then result swept
        else Finished)
  /\ DummyZeroCrossingIRQenable (final c)
     = match result c with
       | Finished => true
       | StillBusy => DummyZeroCrossingIRQenable s
       end
  /\ (seconds_held p < 10 ->
      EEPROM (final c) = EEPROM s
      /\ BackEMFcountermeasuresRequired (final c)
         = BackEMFcountermeasuresRequired s
      /\ existsb is_EEPROM_write (events c) = false).
Proof.
  cbv zeta. unfold setup_calibration. run_all.
  rewrite result_TimePushbuttonHeld.
  set (s0 := set_CurrentLimit (to_word MaximumCurrent) s).
  destruct (quiet_TimePushbuttonHeld p s0) as [T1 T2].
  assert (Hw : duty_writes (events (WriteCurrentLimit false false s0))
               = [MaximumCurrent + 1 - MaximumCurrent]
               /\ existsb is_energising
                    (events (WriteCurrentLimit false false s0)) = false
               /\ existsb is_EEPROM_write
                    (events (WriteCurrentLimit false false s0)) = false).
  { subst s0. destruct s; repeat split. }
  destruct Hw as (W1 & W2 & W3).
  repeat rewrite ?duty_writes_app, ?existsb_app.
  rewrite W1, W2, W3, T1, T2. cbn [app hd_error].
  destruct (Z.geb_spec (seconds_held p) 10) as [H10|H10]; run_all.
  { replace ((seconds_held p >=? 5) && (seconds_held p <=? 9)) with false
      by lia.
    subst s0. destruct s as [m t cl rp b d z oc eo].
    repeat split; lia. }
  destruct ((seconds_held p >=? 5) && (seconds_held p <=? 9)); run_all.
  2:{ subst s0. destruct s as [m t cl rp b d z oc eo]. repeat split. }
  destruct (sweep_keeps OnLCD passes s0) as ([l [o Hf]] & S2 & S3).
  cbv zeta in Hf, S2, S3. revert Hf S2 S3.
  generalize (sweep OnLCD passes s0). intros q Hf S2 S3.
  destruct (result q); run_all; rewrite Hf;
    repeat rewrite ?existsb_app; rewrite S2, S3;
    subst s0; destruct s as [m t cl rp b d z oc eo]; repeat split.
Qed.

(** X19. The calibration screen leaves the output request and the recalled
    preset as it found them, writes the duty code of [MaximumCurrent]
    first, and has no statement that raises the request or writes the
    output pin high.  It ends, in diagnostic mode, unless the button was
    held 5 to 9 seconds and the sweep that hold starts has not been
    stopped: then the screen has not ended and the diagnostic flag is as it
    was.  Unless the button was held 10 seconds or more the EEPROM and the
    countermeasure flag are untouched, sweep or not. *)
Theorem X19_calibration_enters_diagnostic_mode (s : State) (p : Press)
    (passes : list SweepPass) :
  let c := setup_calibration p passes s in
  let swept :=
    sweep OnLCD passes (set_CurrentLimit (to_word MaximumCurrent) s) in
  EnableOutput (final c) = EnableOutput s
  /\ RecalledPreset (final c) = RecalledPreset s
  /\ existsb is_energising (events c) = false
  /\ hd_error (duty_writes (events c))
     = Some (MaximumCurrent + 1 - MaximumCurrent)
  /\ result c
     = (if (seconds_held p >=? 5) && (seconds_held p <=? 9) then result swept
        else Finished)
  /\ DummyZeroCrossingIRQenable (final c)
     = match result c with
       | Finished => true
       | StillBusy => DummyZeroCrossingIRQenable s
       end
  /\ (seconds_held p < 10 ->
      EEPROM (final c) = EEPROM s
      /\ BackEMFcountermeasuresRequired (final c)
         = BackEMFcountermeasuresRequired s
      /\ existsb is_EEPROM_write (events c) = false).
Proof. exact (setup_calibration_quiet s p passes). Qed.

Lemma setup_tail_diagnostic (mains : Mains) (s : State) :
  DummyZeroCrossingIRQenable s = true -> EnableOutput s = LOW ->
  let r := setup_tail mains s in
  EnableOutput (final r) = LOW
  /\ DummyZeroCrossingIRQenable (final r) = true
  /\ existsb is_energising (events r) = false.
Proof.
  intros Hd Hlow. cbv zeta.
  destruct (setup_tail_run mains s) as (_ & Hf & He). cbv zeta in Hf, He.
  destruct (setup_check_presets_final s) as (Hc1 & _ & _ & _ & Hc5).
  cbv zeta in Hc1, Hc5.
  assert (Hs1 : EnableOutput (final (setup_check_presets s)) = LOW
                /\ DummyZeroCrossingIRQenable (final (setup_check_presets s))
                   = true).
  { rewrite Hc1. destruct s; split; assumption. }
  destruct Hs1 as (S1 & S2).
  destruct (setup_qualify_frame mains (final (setup_check_presets s)))
    as (_ & _ & _ & _ & Q5).
  destruct (setup_qualify_result mains (final (setup_check_presets s)))
    as (_ & _ & Q6).
  cbv zeta in Q5, Q6.
  pose proof (setup_qualify_follows mains (final (setup_check_presets s)))
    as Q.
  rewrite S1 in Q.
  apply follows_request_views in Q as [_ Qe]. specialize (Qe eq_refl).
  rewrite Hf, He. clear Hf He.
  rewrite S1 in Q5. rewrite S2 in Q6.
  revert Q5 Q6 Qe.
  generalize (setup_qualify mains (final (setup_check_presets s))).
  intros q Q5 Q6 Qe.
  rewrite !existsb_app, Hc5, Qe.
  unfold setup_finish. run_all.
  destruct (result q =? ErrorNone); cbn [negb]; run_all.
  - rewrite !RecallPreset_run.
    cbn [result final events DummyZeroCrossingIRQenable set_CurrentLimit
         set_RecalledPreset EnableOutput].
    rewrite Q6. cbn [negb when]. run_all.
    cbn [DummyZeroCrossingIRQenable set_CurrentLimit set_RecalledPreset
         EnableOutput].
    rewrite Q5, Q6. repeat split.
  - destruct (result q =? ErrorSinewaveOnly), (result q =? ErrorNoAltCycles),
      (result q =? ErrorNoZeroCross); run_all; rewrite Q5, Q6; repeat split.
Qed.

(** X20. A start-up in diagnostic mode does not energise the load: entered
    with the diagnostic flag set and the output request low, the rest of
    [setup] leaves the request low and the flag set in normal operation as
    in a halt, and none of its statements raises the request or writes the
    output pin high. *)
Theorem X20_diagnostic_setup_keeps_output_off (mains : Mains) (s : State) :
  DummyZeroCrossingIRQenable s = true -> EnableOutput s = LOW ->
  let r := setup_tail mains s in
  EnableOutput (final r) = LOW
  /\ DummyZeroCrossingIRQenable (final r) = true
  /\ existsb is_energising (events r) = false.
Proof. exact (setup_tail_diagnostic mains s). Qed.

Lemma X20_diagnostic_setup_keeps_output_off_witness :
  let s := set_DummyZeroCrossingIRQenable true corrupt_state in
  EnableOutput (final (setup_tail sine_mains s)) = LOW.
Proof.
  destruct (X20_diagnostic_setup_keeps_output_off sine_mains
              (set_DummyZeroCrossingIRQenable true corrupt_state))
    as (H & _).
  - reflexivity.
  - reflexivity.
  - cbv zeta. exact H.
Defined.

(** ** The digit editor of the menu *)

Lemma program_preset_short sel inc p rest s :
  (sel < CurrentDigitCount)%nat -> 0 <= CurrentLimit s <= MaximumCurrent ->
  seconds_held p <= 2 ->
  exists limit,
    0 <= limit <= MaximumCurrent
    /\ result (program_preset sel inc (p :: rest) s)
       = result (program_preset sel inc rest (set_CurrentLimit limit s))
    /\ final (program_preset sel inc (p :: rest) s)
       = final (program_preset sel inc rest (set_CurrentLimit limit s))
    /\ duty_writes (events (program_preset sel inc (p :: rest) s))
       = duty_writes
           (events (program_preset sel inc rest (set_CurrentLimit limit s))).
Proof.
  intros Hsel Hs Hp.
  pose proof (program_preset_in_range [p] sel inc s Hsel Hs) as Hr.
  revert Hr. cbn [program_preset]. run_all.
  rewrite !result_TimePushbuttonHeld.
  replace (seconds_held p <=? 2) with true by lia.
  rewrite increment_step_spec by assumption. run_all.
  cbn [CurrentLimit set_CurrentLimit]. intros Hr.
  eexists. split; [exact Hr|].
  split; [reflexivity|]. split; [reflexivity|].
  rewrite !duty_writes_app.
  assert (Ht : duty_writes (events (TimePushbuttonHeld p s)) = [])
    by (destruct p; reflexivity).
  rewrite Ht. reflexivity.
Qed.

Lemma program_preset_medium sel inc p rest s :
  2 < seconds_held p <= 5 ->
  let sel' := if (CurrentDigitCount <=? S sel)%nat then 0%nat else S sel in
  let inc' := if (CurrentDigitCount <=? S sel)%nat then LargestDigitIncrement
              else to_word (inc / 10) in
  result (program_preset sel inc (p :: rest) s)
  = result (program_preset sel' inc' rest s)
  /\ final (program_preset sel inc (p :: rest) s)
     = final (program_preset sel' inc' rest s)
  /\ duty_writes (events (program_preset sel inc (p :: rest) s))
     = duty_writes (events (program_preset sel' inc' rest s)).
Proof.
  intros Hp. cbv zeta. cbn [program_preset]. run_all.
  rewrite !result_TimePushbuttonHeld.
  replace (seconds_held p <=? 2) with false by lia.
  replace ((seconds_held p >? 2) && (seconds_held p <=? 5)) with true by lia.
  assert (Ht : duty_writes (events (TimePushbuttonHeld p s)) = [])
    by (destruct p; reflexivity).
  rewrite !duty_writes_app, Ht.
  destruct (CurrentDigitCount <=? S sel)%nat; repeat split.
Qed.

Lemma program_preset_commit (edits : list Press) :
  forall sel inc commit rest s,
  (sel < CurrentDigitCount)%nat -> 0 <= CurrentLimit s <= MaximumCurrent ->
  Forall (fun p => seconds_held p <= 5) edits -> 5 < seconds_held commit ->
  let r := program_preset sel inc (edits ++ commit :: rest) s in
  result r = Finished
  /\ 0 <= CurrentLimit (final r) <= MaximumCurrent
  /\ duty_writes (events r) = [dutyCode (CurrentLimit (final r))].
Proof.
  induction edits as [|p edits IH]; intros sel inc commit rest s Hsel Hs He Hc;
    cbv zeta.
  - cbn [app program_preset]. run_all. rewrite !result_TimePushbuttonHeld.
    replace (seconds_held commit <=? 2) with false by lia.
    replace ((seconds_held commit >? 2) && (seconds_held commit <=? 5))
      with false by lia.
    run_all. split; [reflexivity|]. split; [exact Hs|].
    assert (Ht : duty_writes (events (TimePushbuttonHeld commit s)) = [])
      by (destruct commit; reflexivity).
    rewrite !duty_writes_app, Ht, WriteCurrentLimit_duty. reflexivity.
  - inversion He as [|? ? Hp He']; subst.
    cbn [app].
    destruct (Z.le_gt_cases (seconds_held p) 2) as [Hshort|Hmed].
    + destruct (program_preset_short sel inc p (edits ++ commit :: rest) s
                  Hsel Hs Hshort) as (l & Hl & R1 & R2 & R3).
      rewrite R1, R2, R3.
      apply (IH sel inc commit rest (set_CurrentLimit l s)); assumption.
    + destruct (program_preset_medium sel inc p (edits ++ commit :: rest) s)
        as (R1 & R2 & R3); [lia|].
      cbv zeta in R1, R2, R3. rewrite R1, R2, R3.
      apply IH; try assumption.
      destruct (CurrentDigitCount <=? S sel)%nat eqn:E;
        [unfold CurrentDigitCount; lia | apply Nat.leb_gt in E; lia].
Qed.

(** X21. The digit editor reprograms the comparator only when it is left:
    after any number of increments and cursor moves, the hold of more than
    5 seconds that leaves the editor hands the duty code of the edited limit
    to the PWM driver, and it is the only duty code written.  The edited
    limit is within range, and it is not saved: the EEPROM and the recalled
    preset are as they were. *)
Theorem X21_editor_commits_on_exit (s : State) (WhatToDo : Z)
    (edits : list Press) (commit : Press) (rest : list Press) :
  2 < WhatToDo <= 5 -> 0 <= CurrentLimit s <= MaximumCurrent ->
  Forall (fun p => seconds_held p <= 5) edits -> 5 < seconds_held commit ->
  let r := loop_menu WhatToDo (edits ++ commit :: rest) s in
  result r = Finished
  /\ 0 <= CurrentLimit (final r) <= MaximumCurrent
  /\ duty_writes (events r) = [MaximumCurrent + 1 - CurrentLimit (final r)]
  /\ EEPROM (final r) = EEPROM s
  /\ RecalledPreset (final r) = RecalledPreset s
  /\ existsb is_EEPROM_write (events r) = false.
Proof.
  intros HW Hs He Hc. cbv zeta. unfold loop_menu.
  replace ((WhatToDo >=? 0) && (WhatToDo <=? 2)) with false by lia.
  replace ((WhatToDo >? 2) && (WhatToDo <=? 5)) with true by lia.
  destruct (program_preset_commit edits 0%nat LargestDigitIncrement commit
              rest s) as (R1 & R2 & R3);
    [unfold CurrentDigitCount; lia | assumption..|].
  destruct (program_preset_keeps (edits ++ commit :: rest) 0%nat
              LargestDigitIncrement s) as (K1 & K2 & _ & _ & _ & K6 & _).
  cbv zeta in R1, R2, R3, K1, K2, K6.
  rewrite R1, R3, K1, K2, K6, dutyCode_in_range by exact R2.
  repeat split; apply R2.
Qed.

Lemma X21_editor_commits_on_exit_witness :
  let r := loop_menu 4 [HeldFor 5; HeldFor 35; HeldFor 5; HeldFor 70]
             running_state in
  result r = Finished
  /\ duty_writes (events r) = [MaximumCurrent + 1 - CurrentLimit (final r)].
Proof.
  destruct (X21_editor_commits_on_exit running_state 4
              [HeldFor 5; HeldFor 35; HeldFor 5] (HeldFor 70) [])
    as (H1 & _ & H3 & _).
  - lia.
  - vm_compute. split; discriminate.
  - repeat constructor; vm_compute; discriminate.
  - vm_compute. reflexivity.
  - cbv zeta. split; [exact H1 | exact H3].
Defined.

(** X22. The cursor of the digit editor cycles: [CurrentDigitCount] holds of
    3 to 5 seconds bring it back to the first digit, so the editor goes on
    exactly as if they had not been made, with the current limit
    unchanged. *)
Theorem X22_editor_cursor_cycles (s : State) (WhatToDo : Z)
    (moves rest : list Press) :
  2 < WhatToDo <= 5 -> length moves = CurrentDigitCount ->
  Forall (fun p => 2 < seconds_held p <= 5) moves ->
  let r := loop_menu WhatToDo (moves ++ rest) s in
  let r' := loop_menu WhatToDo rest s in
  result r = result r' /\ final r = final r'
  /\ duty_writes (events r) = duty_writes (events r').
Proof.
  intros HW Hlen Hm. cbv zeta. unfold loop_menu.
  replace ((WhatToDo >=? 0) && (WhatToDo <=? 2)) with false by lia.
  replace ((WhatToDo >? 2) && (WhatToDo <=? 5)) with true by lia.
  destruct moves as [|p1 [|p2 [|p3 [|p4 [|p5 [|p6 more]]]]]];
    try discriminate Hlen.
  inversion Hm as [|? ? H1 Hm1]; subst.
  inversion Hm1 as [|? ? H2 Hm2]; subst.
  inversion Hm2 as [|? ? H3 Hm3]; subst.
  inversion Hm3 as [|? ? H4 Hm4]; subst.
  inversion Hm4 as [|? ? H5 _]; subst.
  cbn [app].
  destruct (program_preset_medium 0 LargestDigitIncrement p1
              (p2 :: p3 :: p4 :: p5 :: rest) s H1) as (A1 & A2 & A3).
  cbn [Nat.leb CurrentDigitCount] in A1, A2, A3. rewrite A1, A2, A3.
  destruct (program_preset_medium 1 (to_word (LargestDigitIncrement / 10)) p2
              (p3 :: p4 :: p5 :: rest) s H2) as (B1 & B2 & B3).
  cbn [Nat.leb CurrentDigitCount] in B1, B2, B3. rewrite B1, B2, B3.
  destruct (program_preset_medium 2
              (to_word (to_word (LargestDigitIncrement / 10) / 10)) p3
              (p4 :: p5 :: rest) s H3) as (Hc1 & Hc2 & Hc3).
  cbn [Nat.leb CurrentDigitCount] in Hc1, Hc2, Hc3. rewrite Hc1, Hc2, Hc3.
  destruct (program_preset_medium 3
              (to_word (to_word (to_word (LargestDigitIncrement / 10) / 10)
                        / 10)) p4 (p5 :: rest) s H4) as (D1 & D2 & D3).
  cbn [Nat.leb CurrentDigitCount] in D1, D2, D3. rewrite D1, D2, D3.
  destruct (program_preset_medium 4
              (to_word (to_word (to_word (to_word (LargestDigitIncrement / 10)
                                          / 10) / 10) / 10)) p5 rest s H5)
    as (E1 & E2 & E3).
  cbn [Nat.leb CurrentDigitCount] in E1, E2, E3. rewrite E1, E2, E3.
  repeat split.
Qed.

Lemma X22_editor_cursor_cycles_witness :
  final (loop_menu 3 (repeat (HeldFor 35) 5 ++ [HeldFor 5; HeldFor 70])
           running_state)
  = final (loop_menu 3 [HeldFor 5; HeldFor 70] running_state).
Proof.
  destruct (X22_editor_cursor_cycles running_state 3 (repeat (HeldFor 35) 5)
              [HeldFor 5; HeldFor 70]) as (_ & H & _).
  - lia.
  - reflexivity.
  - repeat constructor; vm_compute; discriminate || reflexivity.
  - cbv zeta in H. exact H.
Defined.

(** X23. Both ways into diagnostic mode keep the load off through the rest of
    the start-up.  After the serial command [EXIT DIAGNOSTICS], and after the
    calibration screen once it has ended, [setup] goes on to its end with
    the diagnostic flag set and the output request as low as it was at
    power-on; while a sweep started from the screen is still running
    [setup] goes no further.  In every case nothing raises the request or
    writes the output pin high.  A plain [EXIT] leaves the diagnostic flag
    as it was. *)
Theorem X23_diagnostic_entries_keep_output_off (mains : Mains) (s : State)
    (p : Press) (passes : list SweepPass) :
  EnableOutput s = LOW ->
  let screen := setup_calibration p passes s in
  let via_screen :=
    (ended <- setup_calibration p passes ;;
     match ended with
     | Finished => started <- setup_tail mains ;; ret (Some started)
     | StillBusy => ret None
     end) s in
  let via_serial := (serial_EXIT true ;; setup_tail mains) s in
  (EnableOutput (final via_screen) = LOW
   /\ existsb is_energising (events via_screen) = false
   /\ match result screen with
      | Finished =>
          result via_screen = Some (result (setup_tail mains (final screen)))
          /\ DummyZeroCrossingIRQenable (final via_screen) = true
      | StillBusy =>
          result via_screen = None
          /\ final via_screen = final screen
          /\ events via_screen = events screen
      end)
  /\ (EnableOutput (final via_serial) = LOW
      /\ DummyZeroCrossingIRQenable (final via_serial) = true
      /\ existsb is_energising (events via_serial) = false)
  /\ final (serial_EXIT false s) = s.
Proof.
  intros Hlow. cbv zeta. split; [|split; [|reflexivity]].
  - destruct (setup_calibration_quiet s p passes)
      as (K1 & _ & K3 & _ & _ & K6 & _).
    cbv zeta in K1, K3, K6. rewrite Hlow in K1. run.
    revert K1 K3 K6. generalize (setup_calibration p passes s).
    intros screen K1 K3 K6.
    destruct (result screen); cbv beta iota.
    + destruct (setup_tail_diagnostic mains (final screen) K6 K1)
        as (T1 & T2 & T3).
      cbv zeta in T1, T2, T3. run.
      rewrite T1, T2, !existsb_app, K3, T3. repeat split.
    + run. rewrite K1, existsb_app, K3, app_nil_r. repeat split.
  - run.
    destruct (setup_tail_diagnostic mains (final (serial_EXIT true s)))
      as (T1 & T2 & T3);
      [reflexivity | destruct s; exact Hlow |].
    cbv zeta in T1, T2, T3.
    rewrite T1, T2, existsb_app, T3. repeat split.
Qed.

Lemma X23_diagnostic_entries_keep_output_off_witness :
  EnableOutput
    (final ((ended <- setup_calibration (HeldFor 150) [] ;;
             match ended with
             | Finished =>
                 started <- setup_tail sine_mains ;; ret (Some started)
             | StillBusy => ret None
             end) corrupt_state)) = LOW.
Proof.
  destruct (X23_diagnostic_entries_keep_output_off sine_mains corrupt_state
              (HeldFor 150) []) as ((H & _) & _).
  - reflexivity.
  - cbv zeta in H. exact H.
Defined.
